(** * ERP-Modern: the persistence gateway, the client record manager and the
    notification engine, embedded shallowly and checked against the
    specification.

    Layout of the development:
    - [Sql]: the values, schemas and statements that [database.py] and
      [frames/clients.py] send to SQLite, with an executable in-memory
      semantics of those statements;
    - [Py]: Python-level results (a value or a raised exception), the
      interface of the database driver, the in-memory SQLite as a driver
      and the [sqlite3] module in front of it, which refuses the integers
      SQLite does not store;
    - [Gateway]: [DBManager] ([fetch], [execute], [get_config], [set_config],
      [registrar_movimiento_inventario], [create_tables],
      [insert_initial_data]) over an arbitrary driver;
    - [PyStr]: [str.strip] and the two patterns given to [re.match];
    - [Clients]: [ClientsFrame.validate_form] and [ClientsFrame.delete_client];
    - [Notif]: [NotificationManager] as a labelled transition system whose
      labels are the calls and timer expirations delivered by the event
      loop, the passing of time and the setting of the system clock;
    - [Additional]: the other methods of [DBManager]
      ([get_empresa_info], [crear_backup], [registrar_auditoria]);
    - [ClientsEdit]: [ClientsFrame.save_client] and
      [ClientsFrame.load_client_details];
    - [NotifCenter]: [NotificationManager.reposition_notifications] and
      the unread counter of the notification centre;
    - [Query]: SELECT statements with a compound WHERE clause, and
      [DBManager.fetch] on them;
    - [Login]: [ModernLoginDialog.attempt_login];
    - [StockAlerts]: [DBManager.get_productos_bajo_stock] and
      [NotificationManager.check_stock_alerts];
    - [Settings]: loading and saving in [ConfigFrame];
    - [NotifFacts], [SqlFacts], [PyStrFacts], [GatewayFacts], [ClientsFacts]:
      the properties, one theorem per claim of the specification (C1 to
      C10), each named in the comment that precedes it;
    - [AdditionalFacts], [ClientsEditFacts], [NotifCenterFacts],
      [QueryFacts], [LoginFacts], [StockAlertsFacts], [SettingsFacts]:
      further properties of the same code (X1, X2, ...), named in the same
      way.

    Modelling conventions.  Python [int] is [Z]; SQLite TEXT is a [string]
    of UTF-8 bytes; a REAL literal is the rational it denotes; the text of a
    form field is a list of Unicode code points.  SQL text is represented by
    its abstract syntax, one constructor per statement shape used by the
    program.  The program opens one connection, never enables foreign-key
    enforcement and commits after every write, so a statement acts on the
    tables at once and a commit changes nothing more. *)

From Stdlib Require Import ZArith List String Ascii Bool Lia QArith Arith.
From Stdlib Require Import DecimalString.
Import ListNotations.

Local Open Scope string_scope.
Local Open Scope list_scope.
Local Open Scope Q_scope.
Local Open Scope Z_scope.

(** [length] is the length of a list throughout. *)
Abbreviation length := List.length.

(** String concatenation, kept apart from list append. *)
Notation "a +++ b" := (String.append a b) (at level 60, right associativity).

Set Implicit Arguments.

(* ================================================================== *)
(** * SQL: data model and statement semantics *)
(* ================================================================== *)

Module Sql.

(** ** Values and schemas *)

Inductive sqlval : Type :=
| Null
| Int (z : Z)
| Real (q : Q)
| Text (s : string).

(** Column type affinities (DATETIME and DATE columns have NUMERIC
    affinity, BLOB columns have none). *)
Inductive affinity : Type := TEXT | NUMERIC | INTEGER | REAL | BLOB.

Inductive dflt : Type :=
| DfltNull
| DfltLit (v : sqlval)
| DfltCurrentTimestamp.

Record column : Type := Col {
  cname : string;
  caff : affinity;
  cnotnull : bool;
  cunique : bool;
  cdefault : dflt
}.

(** [RowidPk c ai]: [c INTEGER PRIMARY KEY], with AUTOINCREMENT when [ai];
    [KeyPk c]: a primary key on a column of another type, which SQLite
    implements as a uniqueness constraint. *)
Inductive pkey : Type :=
| NoPk
| RowidPk (c : string) (autoinc : bool)
| KeyPk (c : string).

Record schema : Type := Schema {
  cols : list column;
  pk : pkey
}.

Record row : Type := Row {
  rowid : Z;
  cells : list sqlval
}.

Record table : Type := Table {
  tschema : schema;
  trows : list row;
  tseq : Z  (* sqlite_sequence: largest rowid ever handed out *)
}.

Definition db : Type := string -> option table.

Definition empty_db : db := fun _ => None.

Definition db_set (d : db) (t : string) (v : table) : db :=
  fun t' => if String.eqb t t' then Some v else d t'.

(** ** Statements *)

Inductive expr : Type :=
| EParam (n : nat)          (* the n-th [?] of the statement, from 0 *)
| ELit (v : sqlval)
| ENow.                     (* datetime('now') *)

Inductive cond : Type :=
| CTrue
| CEq (c : string) (e : expr)
| CInSelect (c : string) (sc : string) (st : string) (sw : cond).
                            (* c IN (SELECT sc FROM st WHERE sw) *)

Inductive proj : Type :=
| PStar
| PCols (cs : list string)
| PCountStar.

Inductive stmt : Type :=
| SELECT (p : proj) (t : string) (w : cond) (order_by : list string)
         (limit : option nat)
| INSERT (or_replace : bool) (t : string) (cs : list string) (vs : list expr)
| UPDATE (t : string) (sets : list (string * expr)) (w : cond)
| DELETE (t : string) (w : cond)
| CREATE_TABLE_IF_NOT_EXISTS (t : string) (s : schema).

(** ** Errors of the driver: the subclasses of [sqlite3.Error] that the
    modelled statements can produce. *)

Inductive sqlite3_Error : Type :=
| OperationalError (msg : string)
| IntegrityError (msg : string)
| ProgrammingError (msg : string).

Definition res (A : Type) : Type := (sqlite3_Error + A)%type.

Definition rbind {A B} (m : res A) (f : A -> res B) : res B :=
  match m with
  | inl e => inl e
  | inr a => f a
  end.

Declare Scope res_scope.
Delimit Scope res_scope with res.
Notation "x <- m ;; k" := (rbind m (fun x => k))
  (at level 100, m at next level, right associativity) : res_scope.

Local Open Scope res_scope.

Fixpoint rmap {A B} (f : A -> res B) (l : list A) : res (list B) :=
  match l with
  | [] => inr []
  | a :: l' =>
      b <- f a ;;
      bs <- rmap f l' ;;
      inr (b :: bs)
  end.

(** ** Comparison of values *)

Definition sql_eqb (a b : sqlval) : bool :=
  match a, b with
  | Int x, Int y => Z.eqb x y
  | Int x, Real q | Real q, Int x => Qeq_bool (inject_Z x) q
  | Real p, Real q => Qeq_bool p q
  | Text s, Text u => String.eqb s u
  | _, _ => false          (* NULL = anything is not true *)
  end.

(** Ordering used by ORDER BY: NULL first, then numbers, then text in
    byte order (the BINARY collation). *)
Fixpoint string_leb (s u : string) : bool :=
  match s, u with
  | EmptyString, _ => true
  | String _ _, EmptyString => false
  | String a s', String b u' =>
      let x := nat_of_ascii a in
      let y := nat_of_ascii b in
      if Nat.ltb x y then true
      else if Nat.ltb y x then false
      else string_leb s' u'
  end.

Definition num_of (v : sqlval) : option Q :=
  match v with
  | Int z => Some (inject_Z z)
  | Real q => Some q
  | _ => None
  end.

Definition sql_leb (a b : sqlval) : bool :=
  match a, b with
  | Null, _ => true
  | _, Null => false
  | Text s, Text u => string_leb s u
  | Text _, _ => false
  | _, Text _ => true
  | _, _ =>
      match num_of a, num_of b with
      | Some p, Some q => Qle_bool p q
      | _, _ => true
      end
  end.

(** ** Affinity *)

Definition Q_is_integer (q : Q) : bool :=
  Z.eqb (Z.modulo (Qnum q) (Z.pos (Qden q))) 0.

(** The conversion SQLite applies to a value stored in, or compared with,
    a column.  Numbers written to a REAL column become reals and integral
    reals written to an INTEGER or NUMERIC column become integers.  The
    conversions between text and numbers are not modelled: a number is
    kept as it is in a TEXT column and numeric text in a numeric column,
    where SQLite would convert them.  The statements of the program bind
    text only to TEXT, DATE and DATETIME columns, where the values bound
    are not numerals, and numbers only to numeric columns; the properties
    below are stated for such values. *)
Definition apply_affinity (a : affinity) (v : sqlval) : sqlval :=
  match a, v with
  | REAL, Int z => Real (inject_Z z)
  | (INTEGER | NUMERIC), Real q =>
      if Q_is_integer q then Int (Z.div (Qnum q) (Z.pos (Qden q))) else v
  | _, _ => v
  end.

(** ** Column lookup *)

Fixpoint col_index_from (n : nat) (cs : list column) (c : string)
  : option nat :=
  match cs with
  | [] => None
  | k :: cs' =>
      if String.eqb (cname k) c then Some n else col_index_from (S n) cs' c
  end.

Definition col_index (s : schema) (c : string) : option nat :=
  col_index_from 0 (cols s) c.

Definition find_col (s : schema) (c : string) : option column :=
  find (fun k => String.eqb (cname k) c) (cols s).

Definition no_such_column (c : string) : sqlite3_Error :=
  OperationalError ("no such column: " +++ c).

Definition no_such_table (t : string) : sqlite3_Error :=
  OperationalError ("no such table: " +++ t).

Definition resolve (s : schema) (c : string) : res (nat * column) :=
  match col_index s c, find_col s c with
  | Some i, Some k => inr (i, k)
  | _, _ => inl (no_such_column c)
  end.

Definition get_table (d : db) (t : string) : res table :=
  match d t with
  | Some tb => inr tb
  | None => inl (no_such_table t)
  end.

Definition cell (r : row) (i : nat) : sqlval := nth i (cells r) Null.

(** ** Expressions and conditions *)

Definition eval_expr (params : list sqlval) (clock : string) (e : expr)
  : res sqlval :=
  match e with
  | EParam n =>
      match nth_error params n with
      | Some v => inr v
      | None => inl (ProgrammingError "Incorrect number of bindings supplied")
      end
  | ELit v => inr v
  | ENow => inr (Text clock)
  end.

(** A condition is compiled against the schema into a predicate on rows;
    unknown columns and tables are reported before any row is visited. *)
Fixpoint compile_cond (d : db) (s : schema) (params : list sqlval)
    (clock : string) (w : cond) : res (row -> bool) :=
  match w with
  | CTrue => inr (fun _ => true)
  | CEq c e =>
      ik <- resolve s c ;;
      v <- eval_expr params clock e ;;
      let v' := apply_affinity (caff (snd ik)) v in
      inr (fun r => sql_eqb (cell r (fst ik)) v')
  | CInSelect c sc st sw =>
      ik <- resolve s c ;;
      tb <- get_table d st ;;
      jk <- resolve (tschema tb) sc ;;
      p <- compile_cond d (tschema tb) params clock sw ;;
      let keys := map (fun r => cell r (fst jk)) (filter p (trows tb)) in
      inr (fun r => existsb (sql_eqb (cell r (fst ik))) keys)
  end.

(** ** INSERT *)

Fixpoint list_set {A} (i : nat) (v : A) (l : list A) : list A :=
  match l, i with
  | [], _ => []
  | _ :: l', O => v :: l'
  | a :: l', S i' => a :: list_set i' v l'
  end.

Definition max_rowid (rs : list row) : Z :=
  fold_right (fun r m => Z.max (rowid r) m) 0 rs.

Definition default_value (clock : string) (k : column) : sqlval :=
  match cdefault k with
  | DfltNull => Null
  | DfltLit v => v
  | DfltCurrentTimestamp => Text clock
  end.

Fixpoint assoc_find (c : string) (l : list (string * sqlval))
  : option sqlval :=
  match l with
  | [] => None
  | (c', v) :: l' => if String.eqb c' c then Some v else assoc_find c l'
  end.

(** The cells of a new row, in schema order: the value given for the
    column, or the column's default. *)
Definition build_cells (clock : string) (s : schema)
    (given : list (string * sqlval)) : list sqlval :=
  map (fun k =>
         apply_affinity (caff k)
           match assoc_find (cname k) given with
           | Some v => v
           | None => default_value clock k
           end)
      (cols s).

(** The rowid of a new row: the value given for an INTEGER PRIMARY KEY
    column or, when that is NULL or there is no such column, a fresh one.
    The boolean tells whether the rowid was given. *)
Definition assign_rowid (tb : table) (cs : list sqlval)
  : res (Z * list sqlval * bool) :=
  let s := tschema tb in
  match pk s with
  | RowidPk c ai =>
      match col_index s c with
      | Some i =>
          match nth i cs Null with
          | Null =>
              let top := if ai then Z.max (tseq tb) (max_rowid (trows tb))
                         else max_rowid (trows tb) in
              inr (top + 1, list_set i (Int (top + 1)) cs, false)
          | Int z => inr (z, cs, true)
          | _ => inl (IntegrityError "datatype mismatch")
          end
      | None => inl (no_such_column c)
      end
  | _ => inr (max_rowid (trows tb) + 1, cs, false)
  end.

Definition is_null (v : sqlval) : bool :=
  match v with Null => true | _ => false end.

(** NOT NULL constraints of a row about to be written.  Under OR REPLACE
    a NULL in such a column is replaced by the column's default when that
    is not NULL. *)
Fixpoint check_notnull (or_replace : bool) (t : string) (clock : string)
    (ks : list column) (cs : list sqlval) : res (list sqlval) :=
  match ks, cs with
  | k :: ks', v :: cs' =>
      v' <- (if cnotnull k && is_null v then
               let dv := apply_affinity (caff k) (default_value clock k) in
               if or_replace && negb (is_null dv) then inr dv
               else inl (IntegrityError
                           ("NOT NULL constraint failed: " +++ t +++ "." +++ cname k))
             else inr v) ;;
      rest <- check_notnull or_replace t clock ks' cs' ;;
      inr (v' :: rest)
  | _, _ => inr cs
  end.

(** Positions and names of the columns that must hold distinct values. *)
Fixpoint unique_from (n : nat) (p : pkey) (ks : list column)
  : list (nat * string) :=
  match ks with
  | [] => []
  | k :: ks' =>
      let keyed := match p with
                   | KeyPk c => String.eqb c (cname k)
                   | _ => false
                   end in
      if cunique k || keyed
      then (n, cname k) :: unique_from (S n) p ks'
      else unique_from (S n) p ks'
  end.

Definition unique_cols (s : schema) : list (nat * string) :=
  unique_from 0 (pk s) (cols s).

(** [conflicts s rid given cs r]: the stored row [r] collides with a new
    row of rowid [rid] and cells [cs]. *)
Definition conflicts (s : schema) (rid : Z) (given : bool)
    (cs : list sqlval) (r : row) : bool :=
  (given && Z.eqb (rowid r) rid)
  || existsb (fun ic => sql_eqb (cell r (fst ic)) (nth (fst ic) cs Null))
             (unique_cols s).

Definition unique_failed (t : string) (s : schema) (cs : list sqlval)
    (bad : list row) : sqlite3_Error :=
  match find (fun ic =>
                existsb (fun r => sql_eqb (cell r (fst ic)) (nth (fst ic) cs Null))
                        bad)
             (unique_cols s) with
  | Some ic => IntegrityError ("UNIQUE constraint failed: " +++ t +++ "." +++ snd ic)
  | None =>
      IntegrityError
        ("UNIQUE constraint failed: " +++ t +++ "."
           +++ match pk s with RowidPk c _ => c | _ => "rowid" end)
  end.

Definition run_insert (d : db) (clock : string) (or_replace : bool)
    (t : string) (cs : list string) (vs : list expr) (params : list sqlval)
  : res (db * Z) :=
  tb <- get_table d t ;;
  let s := tschema tb in
  _ <- rmap (resolve s) cs ;;
  _ <- (if Nat.eqb (List.length cs) (List.length vs) then inr tt
        else inl (OperationalError "values and columns differ in number")) ;;
  vals <- rmap (eval_expr params clock) vs ;;
  let cells0 := build_cells clock s (combine cs vals) in
  ric <- assign_rowid tb cells0 ;;
  let '(rid, cells1, given) := ric in
  cells2 <- check_notnull or_replace t clock (cols s) cells1 ;;
  let bad := filter (conflicts s rid given cells2) (trows tb) in
  _ <- (match bad with
        | [] => inr tt
        | _ :: _ => if or_replace then inr tt
                    else inl (unique_failed t s cells2 bad)
        end) ;;
  let kept := filter (fun r => negb (conflicts s rid given cells2 r)) (trows tb) in
  let seq := match pk s with
             | RowidPk _ true => Z.max (tseq tb) rid
             | _ => tseq tb
             end in
  inr (db_set d t (Table s (kept ++ [Row rid cells2]) seq), rid).

(** ** UPDATE and DELETE *)

Definition assignment : Type := (nat * column * sqlval)%type.

Definition resolve_set (s : schema) (params : list sqlval) (clock : string)
    (ce : string * expr) : res assignment :=
  ik <- resolve s (fst ce) ;;
  v <- eval_expr params clock (snd ce) ;;
  inr (fst ik, snd ik, apply_affinity (caff (snd ik)) v).

Definition apply_sets (asg : list assignment) (cs : list sqlval)
  : list sqlval :=
  fold_left (fun acc (a : assignment) => list_set (fst (fst a)) (snd a) acc)
            asg cs.

Definition null_assignment (asg : list assignment) : option column :=
  option_map (fun a : assignment => snd (fst a))
    (find (fun a : assignment => cnotnull (snd (fst a)) && is_null (snd a)) asg).

(** The columns written by the statement that carry a uniqueness
    constraint (the rowid column included). *)
Definition unique_assigned (s : schema) (asg : list assignment)
  : list (nat * string) :=
  filter (fun ic =>
            existsb (fun a : assignment => Nat.eqb (fst (fst a)) (fst ic)) asg)
         (unique_cols s ++
          match pk s with
          | RowidPk c _ =>
              match col_index s c with Some i => [(i, c)] | None => [] end
          | _ => []
          end).

Fixpoint distinct_at (i : nat) (rs : list row) : bool :=
  match rs with
  | [] => true
  | r :: rs' =>
      negb (existsb (fun r' => sql_eqb (cell r i) (cell r' i)) rs')
      && distinct_at i rs'
  end.

(** After an assignment to the INTEGER PRIMARY KEY column the rowid
    follows the cell. *)
Definition rekey (s : schema) (asg : list assignment) (r : row) : res row :=
  match pk s with
  | RowidPk c _ =>
      match col_index s c with
      | Some i =>
          if existsb (fun a : assignment => Nat.eqb (fst (fst a)) i) asg then
            match cell r i with
            | Int z => inr (Row z (cells r))
            | _ => inl (IntegrityError "datatype mismatch")
            end
          else inr r
      | None => inr r
      end
  | _ => inr r
  end.

Definition run_update (d : db) (clock : string) (t : string)
    (sets : list (string * expr)) (w : cond) (params : list sqlval)
  : res db :=
  tb <- get_table d t ;;
  let s := tschema tb in
  asg <- rmap (resolve_set s params clock) sets ;;
  p <- compile_cond d s params clock w ;;
  _ <- (match null_assignment asg with
        | Some k =>
            if existsb p (trows tb)
            then inl (IntegrityError
                        ("NOT NULL constraint failed: " +++ t +++ "." +++ cname k))
            else inr tt
        | None => inr tt
        end) ;;
  rows' <- rmap (fun r =>
                   if p r then rekey s asg (Row (rowid r) (apply_sets asg (cells r)))
                   else inr r)
                (trows tb) ;;
  _ <- (match find (fun ic => negb (distinct_at (fst ic) rows'))
                   (unique_assigned s asg) with
        | Some ic =>
            inl (IntegrityError
                   ("UNIQUE constraint failed: " +++ t +++ "." +++ snd ic))
        | None => inr tt
        end) ;;
  inr (db_set d t (Table s rows' (tseq tb))).

Definition run_delete (d : db) (clock : string) (t : string) (w : cond)
    (params : list sqlval) : res db :=
  tb <- get_table d t ;;
  p <- compile_cond d (tschema tb) params clock w ;;
  inr (db_set d t
         (Table (tschema tb) (filter (fun r => negb (p r)) (trows tb)) (tseq tb))).

(** ** SELECT *)

(** [row_leb idx a b]: [a] comes no later than [b] under ORDER BY on the
    columns at positions [idx]. *)
Fixpoint row_leb (idx : list nat) (a b : row) : bool :=
  match idx with
  | [] => true
  | i :: idx' =>
      if sql_leb (cell a i) (cell b i) then
        if sql_leb (cell b i) (cell a i) then row_leb idx' a b else true
      else false
  end.

Fixpoint insert_sorted (idx : list nat) (r : row) (rs : list row)
  : list row :=
  match rs with
  | [] => [r]
  | r' :: rs' =>
      if row_leb idx r r' then r :: rs
      else r' :: insert_sorted idx r rs'
  end.

Definition order_rows (idx : list nat) (rs : list row) : list row :=
  match idx with
  | [] => rs
  | _ :: _ => fold_right (insert_sorted idx) [] rs
  end.

Definition run_select (d : db) (clock : string) (p : proj) (t : string)
    (w : cond) (order_by : list string) (limit : option nat)
    (params : list sqlval) : res (list (list sqlval)) :=
  tb <- get_table d t ;;
  let s := tschema tb in
  f <- compile_cond d s params clock w ;;
  ord <- rmap (resolve s) order_by ;;
  let hits := filter f (trows tb) in
  let sorted := order_rows (map fst ord) hits in
  let cut := match limit with
             | Some n => firstn n sorted
             | None => sorted
             end in
  match p with
  | PStar => inr (map cells cut)
  | PCols cs =>
      idx <- rmap (resolve s) cs ;;
      inr (map (fun r => map (fun ik => cell r (fst ik)) idx) cut)
  | PCountStar =>
      inr [[Int (Z.of_nat (List.length hits))]]
  end.

(** ** The connection *)

Definition expr_arity (e : expr) : nat :=
  match e with EParam _ => 1%nat | _ => 0%nat end.

Fixpoint cond_arity (w : cond) : nat :=
  match w with
  | CTrue => 0%nat
  | CEq _ e => expr_arity e
  | CInSelect _ _ _ sw => cond_arity sw
  end.

Definition sum_arity (es : list expr) : nat :=
  fold_right (fun e n => (expr_arity e + n)%nat) 0%nat es.

(** Number of [?] placeholders of a statement. *)
Definition stmt_arity (q : stmt) : nat :=
  match q with
  | SELECT _ _ w _ _ => cond_arity w
  | INSERT _ _ _ vs => sum_arity vs
  | UPDATE _ sets w => (sum_arity (map snd sets) + cond_arity w)%nat
  | DELETE _ w => cond_arity w
  | CREATE_TABLE_IF_NOT_EXISTS _ _ => 0%nat
  end.

(** What one connection with its cursor holds: the tables, the cursor's
    [lastrowid], the rows of the last statement not yet fetched, and the
    wall clock read by [datetime('now')] and CURRENT_TIMESTAMP. *)
Record conn : Type := Conn {
  tables : db;
  lastrowid : option Z;
  pending : list (list sqlval);
  clock : string
}.

(** The effect of one statement on the tables: the rows it produces, the
    tables afterwards and the rowid of the row it inserted, if any. *)
Definition sqlite_run (q : stmt) (params : list sqlval) (d : db)
    (clk : string) : res (list (list sqlval) * db * option Z) :=
  if negb (Nat.eqb (List.length params) (stmt_arity q)) then
    inl (ProgrammingError "Incorrect number of bindings supplied")
  else
    match q with
    | SELECT p t w ob lim =>
        rs <- run_select d clk p t w ob lim params ;;
        inr (rs, d, None)
    | INSERT orr t cs vs =>
        dr <- run_insert d clk orr t cs vs params ;;
        inr ([], fst dr, Some (snd dr))
    | UPDATE t sets w =>
        d' <- run_update d clk t sets w params ;;
        inr ([], d', None)
    | DELETE t w =>
        d' <- run_delete d clk t w params ;;
        inr ([], d', None)
    | CREATE_TABLE_IF_NOT_EXISTS t s =>
        match d t with
        | Some _ => inr ([], d, None)
        | None => inr ([], db_set d t (Table s [] 0), None)
        end
    end.

(** ** Vocabulary of the specification *)

(** The rows have one cell per column of the schema. *)
Definition well_formed (s : schema) (rows : list row) : Prop :=
  Forall (fun r => length (cells r) = length (cols s)) rows.

(** Every table of the database has well-formed rows. *)
Definition wf_db (d : db) : Prop :=
  forall t tb, d t = Some tb -> well_formed (tschema tb) (trows tb).

(** What a statement that writes does to the database: one table gets
    new rows, under the same schema, and the new rows are well formed if
    the old ones were. *)
Definition rewrites (d : db) (t : string) (d' : db) : Prop :=
  exists tb rows' seq',
    d t = Some tb
    /\ d' = db_set d t (Table (tschema tb) rows' seq')
    /\ (well_formed (tschema tb) (trows tb) -> well_formed (tschema tb) rows').

(** The table a statement writes to, if any. *)
Definition target (q : stmt) : option string :=
  match q with
  | SELECT _ _ _ _ _ => None
  | INSERT _ t _ _ | UPDATE t _ _ | DELETE t _
  | CREATE_TABLE_IF_NOT_EXISTS t _ => Some t
  end.

End Sql.

(* ================================================================== *)
(** * Python-level results and the database driver interface *)
(* ================================================================== *)

Module Py.

Import Sql.

(** Exceptions.  [Sqlite3 e] stands for the instances of [sqlite3.Error],
    the class named by the gateway's [except] clauses; everything else a
    call may raise is outside that class. *)
Inductive exn : Type :=
| Sqlite3 (e : sqlite3_Error)
| IndexError (msg : string)
| TypeError (msg : string)
| OtherError (cls msg : string).

Inductive result (A : Type) : Type :=
| Ret (a : A)
| Raise (e : exn).

Arguments Ret {A} a.
Arguments Raise {A} e.

(** [str(e)] for a driver error. *)
Definition str_of_error (e : sqlite3_Error) : string :=
  match e with
  | OperationalError m | IntegrityError m | ProgrammingError m => m
  end.

(** The operations of the [sqlite3] connection and cursor that
    [DBManager] calls. *)
Record driver (C : Type) : Type := Driver {
  cursor_execute : stmt -> list sqlval -> C -> result unit * C;
  cursor_fetchall : C -> result (list (list sqlval)) * C;
  cursor_lastrowid : C -> option Z;
  conn_commit : C -> result unit * C
}.

(** The in-memory SQLite of module [Sql] as a driver, on parameters that
    are already bound.  A statement that fails leaves the connection as
    it was.  A cursor that has inserted no row reports [None] as its
    [lastrowid]; recent versions of the module report 0 there, a value no
    caller in the program looks at. *)
Definition sqlite : driver conn :=
  {| cursor_execute := fun q params c =>
       match sqlite_run q params (tables c) (clock c) with
       | inl e => (Raise (Sqlite3 e), c)
       | inr (rs, d, Some rid) => (Ret tt, Conn d (Some rid) rs (clock c))
       | inr (rs, d, None) => (Ret tt, Conn d (lastrowid c) rs (clock c))
       end;
     cursor_fetchall := fun c =>
       (Ret (pending c), Conn (tables c) (lastrowid c) [] (clock c));
     cursor_lastrowid := lastrowid;
     conn_commit := fun c => (Ret tt, c) |}.

(** The integers SQLite stores: signed, of 64 bits. *)
Definition int64 (z : Z) : bool := (- 2 ^ 63 <=? z) && (z <? 2 ^ 63).

(** The values the [sqlite3] module binds to a [?]: [None], [float],
    [str], and an [int] that SQLite can store. *)
Definition bindable (v : sqlval) : bool :=
  match v with
  | Int z => int64 z
  | _ => true
  end.

(** The [sqlite3] module in front of that SQLite.  The parameters are
    bound before the statement runs: an [int] outside 64 bits raises
    [OverflowError], which is not a [sqlite3.Error], and the statement is
    not run. *)
Definition sqlite3 : driver conn :=
  {| cursor_execute := fun q params c =>
       if forallb bindable params then cursor_execute sqlite q params c
       else (Raise (OtherError "OverflowError"
                      "Python int too large to convert to SQLite INTEGER"),
             c);
     cursor_fetchall := cursor_fetchall sqlite;
     cursor_lastrowid := cursor_lastrowid sqlite;
     conn_commit := conn_commit sqlite |}.

(** A driver that raises [f q] whenever that is an exception, and behaves
    as [d] otherwise: a locked or damaged database file, a dropped table. *)
Definition with_faults {C} (f : stmt -> option exn) (d : driver C)
  : driver C :=
  {| cursor_execute := fun q params c =>
       match f q with
       | Some e => (Raise e, c)
       | None => cursor_execute d q params c
       end;
     cursor_fetchall := cursor_fetchall d;
     cursor_lastrowid := cursor_lastrowid d;
     conn_commit := conn_commit d |}.

End Py.

(* ================================================================== *)
(** * The persistence gateway: [database.py], class [DBManager] *)
(* ================================================================== *)

Module Gateway.

Import Sql Py.

(** ** The schema declared by [create_tables] *)

Definition col (n : string) (a : affinity) : column :=
  Col n a false false DfltNull.
Definition col_notnull (n : string) (a : affinity) : column :=
  Col n a true false DfltNull.
Definition col_unique (n : string) (a : affinity) : column :=
  Col n a false true DfltNull.
Definition col_unique_notnull (n : string) (a : affinity) : column :=
  Col n a true true DfltNull.
Definition col_default (n : string) (a : affinity) (v : sqlval) : column :=
  Col n a false false (DfltLit v).
Definition col_timestamp (n : string) : column :=
  Col n NUMERIC false false DfltCurrentTimestamp.

Definition id_autoincrement : pkey := RowidPk "id" true.

Definition Configuracion_schema : schema :=
  Schema [ col "clave" TEXT; col "valor" TEXT; col "descripcion" TEXT;
           col "categoria" TEXT; col_timestamp "fecha_actualizacion" ]
         (KeyPk "clave").

Definition Usuarios_schema : schema :=
  Schema [ col "id" INTEGER; col_notnull "nombre" TEXT;
           col_unique_notnull "usuario" TEXT; col_notnull "contrasena" TEXT;
           col_notnull "rol" TEXT; col "email" TEXT; col "telefono" TEXT;
           col_default "activo" INTEGER (Int 1);
           col_timestamp "fecha_creacion"; col "ultimo_login" NUMERIC;
           col_default "intentos_login" INTEGER (Int 0);
           col_default "bloqueado" INTEGER (Int 0) ]
         id_autoincrement.

Definition Clientes_schema : schema :=
  Schema [ col "id" INTEGER; col_notnull "nombre" TEXT;
           col_notnull "apellido" TEXT; col_unique "dni" TEXT;
           col "telefono" TEXT; col "email" TEXT; col "direccion" TEXT;
           col_notnull "fecha_registro" TEXT;
           col_default "activo" INTEGER (Int 1);
           col_default "tipo_cliente" TEXT (Text "Normal");
           col_default "limite_credito" REAL (Int 0); col "notas" TEXT ]
         id_autoincrement.

Definition Proveedores_schema : schema :=
  Schema [ col "id" INTEGER; col_notnull "nombre" TEXT; col "contacto" TEXT;
           col "cargo" TEXT; col "telefono" TEXT; col "email" TEXT;
           col "website" TEXT; col "categoria" TEXT;
           col_default "estado" TEXT (Text "Activo"); col "direccion" TEXT;
           col "ruc" TEXT; col "tipo_negocio" TEXT; col "terminos_pago" TEXT;
           col_default "limite_credito" REAL (Int 0); col "notas" TEXT;
           col_default "calificacion" INTEGER (Int 3);
           col_timestamp "fecha_registro";
           col_timestamp "fecha_actualizacion" ]
         id_autoincrement.

Definition Categorias_schema : schema :=
  Schema [ col "id" INTEGER; col_unique_notnull "nombre" TEXT;
           col "descripcion" TEXT; col_default "activa" INTEGER (Int 1);
           col_timestamp "fecha_creacion" ]
         id_autoincrement.

Definition Productos_schema : schema :=
  Schema [ col "id" INTEGER; col_notnull "nombre" TEXT;
           col "descripcion" TEXT; col_notnull "precio" REAL;
           col "costo" REAL; col_notnull "stock" INTEGER;
           col_default "stock_minimo" INTEGER (Int 10);
           col "categoria_id" INTEGER; col "proveedor_id" INTEGER;
           col_unique "sku" TEXT; col "codigo_barras" TEXT;
           col_default "unidad_medida" TEXT (Text "Unidad");
           col_default "impuesto" REAL (Real 0.15);
           col_default "activo" INTEGER (Int 1);
           col_timestamp "fecha_creacion";
           col_timestamp "fecha_actualizacion" ]
         id_autoincrement.

Definition Descuentos_schema : schema :=
  Schema [ col "id" INTEGER; col_notnull "nombre" TEXT; col "tipo" TEXT;
           col_notnull "porcentaje" REAL;
           col_default "monto_minimo" REAL (Int 0);
           col "fecha_inicio" NUMERIC; col "fecha_fin" NUMERIC;
           col_default "activo" INTEGER (Int 1);
           col "aplica_categoria" TEXT; col "aplica_producto" TEXT;
           col_default "maximo_usos" INTEGER (Int 0);
           col_default "usos_actual" INTEGER (Int 0) ]
         id_autoincrement.

Definition Ventas_schema : schema :=
  Schema [ col "id" TEXT; col_notnull "fecha" TEXT; col_notnull "total" REAL;
           col "subtotal" REAL; col "impuesto" REAL;
           col_default "descuento_total" REAL (Int 0);
           col "monto_pagado" REAL; col "vuelto" REAL;
           col "usuario_id" INTEGER; col "id_cliente" INTEGER;
           col "tipo_recibo" TEXT;
           col_default "estado" TEXT (Text "Completada");
           col_default "metodo_pago" TEXT (Text "Efectivo"); col "notas" TEXT ]
         (KeyPk "id").

Definition DetalleVenta_schema : schema :=
  Schema [ col "id" INTEGER; col "venta_id" TEXT; col "producto_id" INTEGER;
           col "nombre_producto" TEXT; col "cantidad" INTEGER;
           col "precio_unitario" REAL; col_default "descuento" REAL (Int 0);
           col_default "impuesto" REAL (Int 0); col "subtotal" REAL ]
         id_autoincrement.

Definition MovimientosInventario_schema : schema :=
  Schema [ col "id" INTEGER; col "producto_id" INTEGER;
           col "tipo_movimiento" TEXT; col "cantidad" INTEGER;
           col "stock_anterior" INTEGER; col "stock_nuevo" INTEGER;
           col "motivo" TEXT; col "referencia" TEXT; col "usuario_id" INTEGER;
           col_timestamp "fecha_movimiento"; col "notas" TEXT ]
         id_autoincrement.

Definition Compras_schema : schema :=
  Schema [ col "id" INTEGER; col "proveedor_id" INTEGER;
           col_unique "numero_orden" TEXT; col "fecha_orden" NUMERIC;
           col "fecha_esperada" NUMERIC;
           col_default "estado" TEXT (Text "Pendiente"); col "subtotal" REAL;
           col "impuesto" REAL; col "total" REAL; col "notas" TEXT;
           col "usuario_id" INTEGER; col_timestamp "fecha_creacion" ]
         id_autoincrement.

Definition DetalleCompra_schema : schema :=
  Schema [ col "id" INTEGER; col "compra_id" INTEGER;
           col "producto_id" INTEGER; col "nombre_producto" TEXT;
           col "cantidad" INTEGER; col "precio_unitario" REAL;
           col "subtotal" REAL ]
         id_autoincrement.

Definition Notificaciones_schema : schema :=
  Schema [ col "id" INTEGER; col_notnull "titulo" TEXT;
           col_notnull "mensaje" TEXT; col_default "tipo" TEXT (Text "info");
           col_default "leida" INTEGER (Int 0); col "accion_callback" TEXT;
           col "datos_accion" TEXT; col "usuario_id" INTEGER;
           col_timestamp "fecha_creacion"; col "fecha_leida" NUMERIC ]
         id_autoincrement.

Definition Auditoria_schema : schema :=
  Schema [ col "id" INTEGER; col "usuario_id" INTEGER;
           col_notnull "accion" TEXT; col "modulo" TEXT;
           col "descripcion" TEXT; col "ip_address" TEXT;
           col "user_agent" TEXT; col_timestamp "fecha" ]
         id_autoincrement.

Definition Backups_schema : schema :=
  Schema [ col "id" INTEGER; col_notnull "nombre_archivo" TEXT;
           col_notnull "ruta" TEXT; col "tamano" INTEGER;
           col_timestamp "fecha_creacion"; col "usuario_id" INTEGER;
           col "notas" TEXT; col_default "automatico" INTEGER (Int 0) ]
         id_autoincrement.

Definition Empresa_schema : schema :=
  Schema [ col "id" INTEGER; col_notnull "nombre" TEXT; col "ruc" TEXT;
           col "direccion" TEXT; col "telefono" TEXT; col "email" TEXT;
           col "website" TEXT; col "logo" BLOB;
           col_default "moneda" TEXT (Text "HNL");
           col_default "idioma" TEXT (Text "es");
           col_default "zona_horaria" TEXT (Text "America/Tegucigalpa");
           col_default "impuesto_por_defecto" REAL (Real 0.15) ]
         id_autoincrement.

Definition SeriesFacturacion_schema : schema :=
  Schema [ col "id" INTEGER; col_unique_notnull "serie" TEXT;
           col "descripcion" TEXT; col_default "numero_actual" INTEGER (Int 1);
           col "resolucion" TEXT; col "fecha_resolucion" NUMERIC;
           col "numero_desde" INTEGER; col "numero_hasta" INTEGER;
           col_default "activa" INTEGER (Int 1) ]
         id_autoincrement.

(** The tables in the order [create_tables] declares them. *)
Definition declared_tables : list (string * schema) :=
  [ ("Configuracion", Configuracion_schema); ("Usuarios", Usuarios_schema);
    ("Clientes", Clientes_schema); ("Proveedores", Proveedores_schema);
    ("Categorias", Categorias_schema); ("Productos", Productos_schema);
    ("Descuentos", Descuentos_schema); ("Ventas", Ventas_schema);
    ("DetalleVenta", DetalleVenta_schema);
    ("MovimientosInventario", MovimientosInventario_schema);
    ("Compras", Compras_schema); ("DetalleCompra", DetalleCompra_schema);
    ("Notificaciones", Notificaciones_schema);
    ("Auditoria", Auditoria_schema); ("Backups", Backups_schema);
    ("Empresa", Empresa_schema);
    ("SeriesFacturacion", SeriesFacturacion_schema) ].

(** ** The interpreter state and its monad *)

(** What a call of a [DBManager] method can read and change: the
    connection, the diagnostic stream written by [print], and the local
    time that [datetime.now()] formats. *)
Record world (C : Type) : Type := World {
  self_conn : C;
  stdout : list string;
  wallclock : string
}.

Arguments World {C} self_conn stdout wallclock.
Arguments self_conn {C} w.
Arguments stdout {C} w.
Arguments wallclock {C} w.

Definition M (C A : Type) : Type := world C -> result A * world C.

Definition ret {C A} (a : A) : M C A := fun w => (Ret a, w).

Definition bind {C A B} (m : M C A) (k : A -> M C B) : M C B :=
  fun w =>
    match m w with
    | (Ret a, w') => k a w'
    | (Raise e, w') => (Raise e, w')
    end.

Definition raise {C A} (e : exn) : M C A := fun w => (Raise e, w).

Declare Scope py_scope.
Delimit Scope py_scope with py.
Notation "x <- m ;; k" := (bind m (fun x => k))
  (at level 100, m at next level, right associativity) : py_scope.
Notation "m ;; k" := (bind m (fun _ => k))
  (at level 100, right associativity) : py_scope.

Local Open Scope py_scope.

(** [try: body except sqlite3.Error as e: handler(e)] *)
Definition try_except_sqlite3 {C A} (body : M C A)
    (handler : sqlite3_Error -> M C A) : M C A :=
  fun w =>
    match body w with
    | (Raise (Sqlite3 e), w') => handler e w'
    | other => other
    end.

Definition print {C} (line : string) : M C unit :=
  fun w => (Ret tt, World (self_conn w) (stdout w ++ [line]) (wallclock w)).

Definition datetime_now {C} : M C string :=
  fun w => (Ret (wallclock w), w).

(** [l[i]] on a list or tuple. *)
Definition getitem {C A} (what : string) (l : list A) (i : nat) : M C A :=
  match nth_error l i with
  | Some a => ret a
  | None => raise (IndexError (what +++ " index out of range"))
  end.

(** [for x in l: body(x)] *)
Fixpoint for_each {C A} (l : list A) (body : A -> M C unit) : M C unit :=
  match l with
  | [] => ret tt
  | x :: l' => body x ;; for_each l' body
  end.

(** Truth value of a list: [if rows] and [if not rows]. *)
Definition truthy {A} (l : list A) : bool :=
  match l with [] => false | _ :: _ => true end.

(** [a + b] and [a - b] where [a] was read from the database and [b] is
    an [int].  NULL and text operands raise [TypeError]; a real operand
    is added exactly. *)
Definition py_add (a : sqlval) (b : Z) : result sqlval :=
  match a with
  | Int x => Ret (Int (x + b))
  | Real q => Ret (Real (q + inject_Z b)%Q)
  | Null | Text _ => Raise (TypeError "unsupported operand type(s) for +")
  end.

Definition py_sub (a : sqlval) (b : Z) : result sqlval :=
  match a with
  | Int x => Ret (Int (x - b))
  | Real q => Ret (Real (q - inject_Z b)%Q)
  | Null | Text _ => Raise (TypeError "unsupported operand type(s) for -")
  end.

Definition lift_result {C A} (r : result A) : M C A := fun w => (r, w).

Section DBManager.

Context {C : Type}.

(** The driver behind [self.conn] and [self.cursor]. *)
Variable drv : driver C.

(** The text returned by [default_receipt_template], an HTML constant. *)
Variable receipt_template : string.

Definition self_cursor_execute (q : stmt) (params : list sqlval) : M C unit :=
  fun w =>
    let (r, c') := cursor_execute drv q params (self_conn w) in
    (r, World c' (stdout w) (wallclock w)).

Definition self_cursor_fetchall : M C (list (list sqlval)) :=
  fun w =>
    let (r, c') := cursor_fetchall drv (self_conn w) in
    (r, World c' (stdout w) (wallclock w)).

Definition self_conn_commit : M C unit :=
  fun w =>
    let (r, c') := conn_commit drv (self_conn w) in
    (r, World c' (stdout w) (wallclock w)).

Definition self_cursor_lastrowid : M C (option Z) :=
  fun w => (Ret (cursor_lastrowid drv (self_conn w)), w).

(** [DBManager.fetch] *)
Definition fetch (query : stmt) (params : list sqlval)
  : M C (list (list sqlval)) :=
  try_except_sqlite3
    (self_cursor_execute query params ;;
     self_cursor_fetchall)
    (fun e =>
       print ("Error en consulta: " +++ str_of_error e) ;;
       ret []).

(** [DBManager.execute] *)
Definition execute (query : stmt) (params : list sqlval) : M C (option Z) :=
  try_except_sqlite3
    (self_cursor_execute query params ;;
     self_conn_commit ;;
     self_cursor_lastrowid)
    (fun e =>
       print ("Error en operación: " +++ str_of_error e) ;;
       ret None).

(** [DBManager.create_tables]: the statements go to the cursor directly,
    outside any [try]. *)
Definition create_tables : M C unit :=
  for_each declared_tables
    (fun ts => self_cursor_execute
                 (CREATE_TABLE_IF_NOT_EXISTS (fst ts) (snd ts)) []) ;;
  self_conn_commit.

(** [SELECT valor FROM Configuracion WHERE clave = ?] *)
Definition select_valor : stmt :=
  SELECT (PCols ["valor"]) "Configuracion" (CEq "clave" (EParam 0)) [] None.

(** [INSERT OR REPLACE INTO Configuracion (clave, valor,
    fecha_actualizacion) VALUES (?, ?, datetime('now'))] *)
Definition upsert_config : stmt :=
  INSERT true "Configuracion" ["clave"; "valor"; "fecha_actualizacion"]
         [EParam 0; EParam 1; ENow].

(** [DBManager.get_config] *)
Definition get_config (clave : string) (default : sqlval) : M C sqlval :=
  result <- fetch select_valor [Text clave] ;;
  if truthy result then
    r0 <- getitem "list" result 0 ;;
    getitem "tuple" r0 0
  else ret default.

(** [DBManager.set_config] *)
Definition set_config (clave valor : string) : M C unit :=
  execute upsert_config [Text clave; Text valor] ;;
  ret tt.

(** [SELECT stock FROM Productos WHERE id = ?] *)
Definition select_stock : stmt :=
  SELECT (PCols ["stock"]) "Productos" (CEq "id" (EParam 0)) [] None.

(** [UPDATE Productos SET stock = ? WHERE id = ?] *)
Definition update_stock : stmt :=
  UPDATE "Productos" [("stock", EParam 0)] (CEq "id" (EParam 1)).

(** [INSERT INTO MovimientosInventario (producto_id, tipo_movimiento,
    cantidad, stock_anterior, stock_nuevo, motivo, referencia, usuario_id)
    VALUES (?, ?, ?, ?, ?, ?, ?, ?)] *)
Definition insert_movimiento : stmt :=
  INSERT false "MovimientosInventario"
         ["producto_id"; "tipo_movimiento"; "cantidad"; "stock_anterior";
          "stock_nuevo"; "motivo"; "referencia"; "usuario_id"]
         [EParam 0; EParam 1; EParam 2; EParam 3; EParam 4; EParam 5;
          EParam 6; EParam 7].

(** [DBManager.registrar_movimiento_inventario] *)
Definition registrar_movimiento_inventario (producto_id : Z) (tipo : string)
    (cantidad : Z) (motivo : string) (referencia usuario_id : sqlval)
  : M C sqlval :=
  rows <- fetch select_stock [Int producto_id] ;;
  r0 <- getitem "list" rows 0 ;;
  stock_actual <- getitem "tuple" r0 0 ;;
  nuevo_stock <-
    (if String.eqb tipo "entrada" then
       lift_result (py_add stock_actual cantidad)
     else if String.eqb tipo "salida" then
       lift_result (py_sub stock_actual cantidad)
     else ret (Int cantidad)) ;;
  execute update_stock [nuevo_stock; Int producto_id] ;;
  execute insert_movimiento
    [Int producto_id; Text tipo; Int cantidad; stock_actual; nuevo_stock;
     Text motivo; referencia; usuario_id] ;;
  ret nuevo_stock.

(** [SELECT * FROM t] *)
Definition select_all (t : string) : stmt := SELECT PStar t CTrue [] None.

(** [INSERT INTO t (cs) VALUES (?, ..., ?)], one placeholder per column. *)
Definition insert_into (t : string) (cs : list string) : stmt :=
  INSERT false t cs (map EParam (seq 0 (List.length cs))).

(** A double quote, for the two product texts that contain one. *)
Definition dq : string := String (ascii_of_nat 34) EmptyString.

Definition configuraciones : list (list sqlval) :=
  map (map Text)
  [ ["empresa_nombre"; "Mi Empresa ERP"; "Nombre legal de la empresa"; "empresa"];
    ["empresa_ruc"; ""; "RUC o NIT de la empresa"; "empresa"];
    ["empresa_direccion"; ""; "Dirección fiscal"; "empresa"];
    ["empresa_telefono"; ""; "Teléfono de contacto"; "empresa"];
    ["empresa_email"; ""; "Email de contacto"; "empresa"];
    ["iva_por_defecto"; "0.15"; "IVA por defecto para facturas"; "facturacion"];
    ["moneda"; "HNL"; "Moneda principal del sistema"; "regional"];
    ["idioma"; "es"; "Idioma del sistema"; "regional"];
    ["zona_horaria"; "America/Tegucigalpa"; "Zona horaria"; "regional"];
    ["recibo_template"; receipt_template; "Plantilla de recibo HTML"; "sistema"];
    ["notificaciones_stock"; "1"; "Alertas de stock bajo"; "notificaciones"];
    ["notificaciones_ventas"; "1"; "Notificaciones de ventas"; "notificaciones"];
    ["backup_automatico"; "1"; "Backup automático habilitado"; "backup"];
    ["session_timeout"; "30"; "Tiempo de espera de sesión en minutos"; "seguridad"] ].

Definition categorias : list (list sqlval) :=
  map (map Text)
  [ ["Tecnología"; "Productos tecnológicos y electrónicos"];
    ["Oficina"; "Suministros de oficina"];
    ["Hogar"; "Artículos para el hogar"];
    ["Electrodomésticos"; "Electrodomésticos y línea blanca"] ].

(** nombre, tipo, porcentaje, monto_minimo, fecha_inicio, fecha_fin, activo *)
Definition descuentos : list (list sqlval) :=
  [ [Text "Docena 10%"; Text "Docena"; Real 0.10; Int 0; Null; Null; Int 1];
    [Text "Mayorista 15%"; Text "Mayorista"; Real 0.15; Int 1000; Null; Null; Int 1];
    [Text "Cliente Frecuente 5%"; Text "Fidelidad"; Real 0.05; Int 0; Null; Null; Int 1] ].

Definition productos_ejemplo (categoria_tec proveedor_id : sqlval)
  : list (list sqlval) :=
  [ [Text ("Monitor 27" +++ dq +++ " 4K"); Text "Monitor 4K profesional para diseño";
     Real 320.00; Real 200.00; Int 15; Int 5; categoria_tec; proveedor_id;
     Text "MON-27-4K"; Text "1234567890123"];
    [Text "Teclado Mecánico RGB"; Text "Switches Blue, retroiluminación RGB";
     Real 45.00; Real 25.00; Int 105; Int 10; categoria_tec; proveedor_id;
     Text "TEC-MEC-RGB"; Text "1234567890124"];
    [Text "Mouse Gamer Pro"; Text "RGB, 16000 DPI, 6 botones";
     Real 35.00; Real 18.00; Int 50; Int 5; categoria_tec; proveedor_id;
     Text "MOU-GAM-PRO"; Text "1234567890125"];
    [Text "Laptop HP EliteBook"; Text ("i5, 8GB RAM, 256GB SSD, 14" +++ dq);
     Real 650.00; Real 450.00; Int 8; Int 2; categoria_tec; proveedor_id;
     Text "LAP-HP-ELITE"; Text "1234567890126"];
    [Text "Impresora Láser"; Text "Impresora láser blanco y negro";
     Real 150.00; Real 90.00; Int 12; Int 3; categoria_tec; proveedor_id;
     Text "IMP-LAS-BN"; Text "1234567890127"] ].

Definition clientes_ejemplo (fecha_actual : string) : list (list sqlval) :=
  [ [Text "Juan Carlos"; Text "Pérez González"; Text "0801199901234";
     Text "9876-1234"; Text "juan.perez@email.com";
     Text "Colonia Palmira, Tegucigalpa"; Text fecha_actual; Int 1;
     Text "Premium"; Real 5000.00; Text "Cliente frecuente, paga puntual"];
    [Text "María Elena"; Text "Rodríguez López"; Text "0801200005678";
     Text "9965-4789"; Text "maria.rodriguez@email.com";
     Text "Barrio La Granja, San Pedro Sula"; Text fecha_actual; Int 1;
     Text "Normal"; Real 1000.00; Text "Cliente ocasional"];
    [Text "José Antonio"; Text "Martínez Castro"; Text "0501199812345";
     Text "9754-3261"; Text "jose.martinez@email.com";
     Text "Centro, Comayagua"; Text fecha_actual; Int 1;
     Text "Gold"; Real 10000.00; Text "Cliente corporativo"];
    [Text "Ana Sofía"; Text "García Hernández"; Text "1801199909876";
     Text "9843-7521"; Text "ana.garcia@email.com";
     Text "Colonia Kennedy, La Ceiba"; Text fecha_actual; Int 1;
     Text "Normal"; Real 2000.00;
     Text "Preferencia por productos tecnológicos"] ].

(** [if not self.fetch("SELECT * FROM t"): body] *)
Definition if_empty (t : string) (body : M C unit) : M C unit :=
  rows <- fetch (select_all t) [] ;;
  if negb (truthy rows) then body else ret tt.

(** [for params in data: self.execute(q, params)] *)
Definition execute_each (q : stmt) (data : list (list sqlval)) : M C unit :=
  for_each data (fun params => execute q params ;; ret tt).

(** [DBManager.insert_initial_data] *)
Definition insert_initial_data : M C unit :=
  if_empty "Configuracion"
    (execute_each
       (insert_into "Configuracion" ["clave"; "valor"; "descripcion"; "categoria"])
       configuraciones) ;;
  if_empty "Usuarios"
    (execute_each
       (insert_into "Usuarios" ["nombre"; "usuario"; "contrasena"; "rol"; "email"])
       [[Text "Administrador Principal"; Text "admin"; Text "1234";
         Text "Administrador"; Text "admin@empresa.com"]]) ;;
  if_empty "Proveedores"
    (execute_each
       (insert_into "Proveedores"
          ["nombre"; "contacto"; "cargo"; "telefono"; "email"; "categoria";
           "estado"; "direccion"; "ruc"])
       [[Text "Distribuidora Central"; Text "Juan Pérez"; Text "Gerente";
         Text "555-1234"; Text "ventas@distribuidora.com"; Text "Tecnología";
         Text "Activo"; Text "Colonia Palmira, Tegucigalpa";
         Text "0801-9999-12345"]]) ;;
  if_empty "Categorias"
    (execute_each (insert_into "Categorias" ["nombre"; "descripcion"])
       categorias) ;;
  if_empty "Descuentos"
    (execute_each
       (insert_into "Descuentos"
          ["nombre"; "tipo"; "porcentaje"; "monto_minimo"; "fecha_inicio";
           "fecha_fin"; "activo"])
       descuentos) ;;
  if_empty "Productos"
    (cat <- fetch (SELECT (PCols ["id"]) "Categorias"
                     (CEq "nombre" (ELit (Text "Tecnología"))) [] None) [] ;;
     cat0 <- getitem "list" cat 0 ;;
     categoria_tec <- getitem "tuple" cat0 0 ;;
     prov <- fetch (SELECT (PCols ["id"]) "Proveedores" CTrue [] (Some 1%nat)) [] ;;
     prov0 <- getitem "list" prov 0 ;;
     proveedor_id <- getitem "tuple" prov0 0 ;;
     execute_each
       (insert_into "Productos"
          ["nombre"; "descripcion"; "precio"; "costo"; "stock"; "stock_minimo";
           "categoria_id"; "proveedor_id"; "sku"; "codigo_barras"])
       (productos_ejemplo categoria_tec proveedor_id)) ;;
  if_empty "Clientes"
    (fecha_actual <- datetime_now ;;
     execute_each
       (insert_into "Clientes"
          ["nombre"; "apellido"; "dni"; "telefono"; "email"; "direccion";
           "fecha_registro"; "activo"; "tipo_cliente"; "limite_credito"; "notas"])
       (clientes_ejemplo fecha_actual)) ;;
  if_empty "Empresa"
    (execute_each
       (insert_into "Empresa"
          ["nombre"; "ruc"; "direccion"; "telefono"; "email"; "moneda";
           "impuesto_por_defecto"])
       [[Text "Mi Empresa ERP"; Text "0801-9999-12345";
         Text "Colonia Palmira, Tegucigalpa"; Text "2234-5678";
         Text "info@miempresa.com"; Text "HNL"; Real 0.15]]) ;;
  if_empty "SeriesFacturacion"
    (execute_each
       (insert_into "SeriesFacturacion"
          ["serie"; "descripcion"; "numero_actual"; "resolucion";
           "fecha_resolucion"; "numero_desde"; "numero_hasta"])
       [[Text "A"; Text "Serie principal para facturas"; Int 1;
         Text "RES-2024-001"; Text "2024-01-01"; Int 1; Int 100000]]) ;;
  self_conn_commit.

(** [DBManager.__init__], after [sqlite3.connect]. *)
Definition init : M C unit :=
  create_tables ;;
  insert_initial_data.

End DBManager.

(** ** Vocabulary of the specification *)

(** [r] is the row of a table with an [id] column whose [id] is [n]. *)
Definition id_is (n : Z) (r : row) : bool := sql_eqb (cell r 0) (Int n).

(** The stock of product [pid]: the [stock] cell of its row. *)
Definition stock_of (productos : list row) (pid : Z) : option sqlval :=
  match filter (id_is pid) productos with
  | r :: _ => Some (cell r 5)
  | [] => None
  end.

(** The product row [r] with [pid]'s stock set to [v]. *)
Definition set_stock (pid v : Z) (r : row) : row :=
  if sql_eqb (cell r 0) (Int pid)
  then Row (rowid r) (list_set 5 (Int v) (cells r))
  else r.

(** The audit row of one movement. *)
Definition movimiento_row (rid pid : Z) (tipo : string)
    (cantidad stock_anterior stock_nuevo : Z) (motivo : string)
    (referencia usuario_id : sqlval) (fecha : string) : row :=
  Row rid [Int rid; Int pid; Text tipo; Int cantidad; Int stock_anterior;
           Int stock_nuevo; Text motivo; referencia;
           apply_affinity INTEGER usuario_id; Text fecha; Null].

(** The optional arguments of a movement as the program passes them:
    the reference a [str] or [None], the user an [int] that SQLite can
    store or [None]. *)
Definition is_text_or_null (v : sqlval) : bool :=
  match v with
  | Null | Text _ => true
  | _ => false
  end.

Definition is_int_or_null (v : sqlval) : bool :=
  match v with
  | Null => true
  | Int z => int64 z
  | _ => false
  end.

(** The stock the specification asks for after a movement. *)
Definition expected_stock (tipo : string) (s q : Z) : Z :=
  if String.eqb tipo "entrada" then s + q
  else if String.eqb tipo "salida" then s - q
  else q.

(** [r] is the settings row of key [k]. *)
Definition clave_is (k : string) (r : row) : bool :=
  sql_eqb (cell r 0) (Text k).

(** The row written by [set_config]. *)
Definition setting_row (rid : Z) (k v clk : string) : row :=
  Row rid [Text k; Text v; Null; Null; Text clk].

(** The rows of table [t], none when there is no such table. *)
Definition rows_of (d : db) (t : string) : list row :=
  match d t with
  | Some tb => trows tb
  | None => []
  end.

(** The computation keeps the property [P] of the tables, however it
    ends. *)
Definition keeps (P : db -> Prop) {A} (m : M conn A) : Prop :=
  forall w, P (tables (self_conn w)) -> P (tables (self_conn (snd (m w)))).

(** Table [t] holds [tb]. *)
Definition holds (t : string) (tb : table) (d : db) : Prop := d t = Some tb.

(** The tables declared by [create_tables] exist, with the declared
    schemas. *)
Definition declared (d : db) : Prop :=
  forall t s, In (t, s) declared_tables ->
    exists tb, d t = Some tb /\ tschema tb = s.

(** A database as [DBManager] keeps it: the declared tables exist and
    all rows are well formed. *)
Definition initialised (d : db) : Prop := declared d /\ wf_db d.

(** The rows of Descuentos after seeding: the three predefined
    discounts, numbered from 1, with the defaults of the columns the
    INSERT leaves out. *)
Definition predefined_discounts : list row :=
  [ Row 1 [Int 1; Text "Docena 10%"; Text "Docena"; Real 0.10; Real 0;
           Null; Null; Int 1; Null; Null; Int 0; Int 0];
    Row 2 [Int 2; Text "Mayorista 15%"; Text "Mayorista"; Real 0.15;
           Real 1000; Null; Null; Int 1; Null; Null; Int 0; Int 0];
    Row 3 [Int 3; Text "Cliente Frecuente 5%"; Text "Fidelidad"; Real 0.05;
           Real 0; Null; Null; Int 1; Null; Null; Int 0; Int 0] ].

(** ** States used as examples *)

(** The driver of a database held locked by another process: every
    statement raises [sqlite3.OperationalError]. *)
Definition locked (_ : stmt) : option exn :=
  Some (Sqlite3 (OperationalError "database is locked")).

(** A connection to a database file that has just been created. *)
Definition fresh_world (clk wall : string) : world conn :=
  World (Conn empty_db None [] clk) [] wall.

(** The state [DBManager()] leaves behind on a new database file. *)
Definition seeded : world conn :=
  snd (init sqlite "<html></html>"
         (fresh_world "2024-05-01 10:00:00" "2024-05-01 04:00:00")).

End Gateway.

(* ================================================================== *)
(** * Python text: [str.strip] and the two patterns given to [re.match] *)
(* ================================================================== *)

Module PyStr.

Local Open Scope N_scope.

(** A Python [str] is a sequence of Unicode code points. *)
Definition ustring : Type := list N.

(** The code points of an ASCII literal. *)
Fixpoint U (s : string) : ustring :=
  match s with
  | EmptyString => []
  | String a s' => N_of_ascii a :: U s'
  end.

(** [str.isspace] for one code point: the characters [str.strip] removes. *)
Definition isspace (c : N) : bool :=
  ((9 <=? c) && (c <=? 13))            (* \t \n \v \f \r *)
  || ((28 <=? c) && (c <=? 32))        (* FS GS RS US and the space *)
  || (c =? 133) || (c =? 160)          (* NEL, NBSP *)
  || (c =? 5760)                       (* U+1680 *)
  || ((8192 <=? c) && (c <=? 8202))    (* U+2000 .. U+200A *)
  || (c =? 8232) || (c =? 8233)        (* U+2028, U+2029 *)
  || (c =? 8239) || (c =? 8287)        (* U+202F, U+205F *)
  || (c =? 12288).                     (* U+3000 *)

Fixpoint lstrip (s : ustring) : ustring :=
  match s with
  | [] => []
  | c :: s' => if isspace c then lstrip s' else s
  end.

Definition rstrip (s : ustring) : ustring := rev (lstrip (rev s)).

(** [s.strip()] *)
Definition strip (s : ustring) : ustring := rstrip (lstrip s).

(** ** Regular expressions *)

(** [Class neg rs]: a bracket expression listing the ranges [rs], negated
    when [neg]; a literal character is the class of one one-point range. *)
Inductive re : Type :=
| Empty
| Eps
| Class (neg : bool) (rs : list (N * N))
| Cat (r1 r2 : re)
| Alt (r1 r2 : re)
| Star (r : re).

Definition Chr (c : N) : re := Class false [(c, c)].
Definition Plus (r : re) : re := Cat r (Star r).
Fixpoint Rep (n : nat) (r : re) : re :=
  match n with
  | O => Eps
  | S n' => Cat r (Rep n' r)
  end.

Definition in_class (neg : bool) (rs : list (N * N)) (c : N) : bool :=
  xorb neg (existsb (fun lh => (fst lh <=? c) && (c <=? snd lh)) rs).

Fixpoint nullable (r : re) : bool :=
  match r with
  | Empty => false
  | Eps => true
  | Class _ _ => false
  | Cat r1 r2 => nullable r1 && nullable r2
  | Alt r1 r2 => nullable r1 || nullable r2
  | Star _ => true
  end.

(** Brzozowski derivative: what remains to be matched after [c]. *)
Fixpoint deriv (c : N) (r : re) : re :=
  match r with
  | Empty | Eps => Empty
  | Class neg rs => if in_class neg rs c then Eps else Empty
  | Cat r1 r2 =>
      if nullable r1
      then Alt (Cat (deriv c r1) r2) (deriv c r2)
      else Cat (deriv c r1) r2
  | Alt r1 r2 => Alt (deriv c r1) (deriv c r2)
  | Star r1 => Cat (deriv c r1) (Star r1)
  end.

(** The whole of [s] is a word of [r]. *)
Fixpoint matches (r : re) (s : ustring) : bool :=
  match s with
  | [] => nullable r
  | c :: s' => matches (deriv c r) s'
  end.

Definition newline : N := 10.

(** [re.match("^" r "$", s)] is not [None]: [$] holds at the end of the
    text and also just before a newline that ends it. *)
Definition re_match (r : re) (s : ustring) : bool :=
  matches r s
  || match rev s with
     | c :: before => (c =? newline) && matches r (rev before)
     | [] => false
     end.

Definition at_sign : N := 64.
Definition full_stop : N := 46.

(** [^[^@]+@[^@]+\.[^@]+$] *)
Definition email_re : re :=
  let not_at := Class true [(at_sign, at_sign)] in
  Cat (Plus not_at)
      (Cat (Chr at_sign)
           (Cat (Plus not_at) (Cat (Chr full_stop) (Plus not_at)))).

(** [^[0-9]{13}$] *)
Definition dni_re : re := Rep 13 (Class false [(48, 57)]).

(** ** Vocabulary of the specification *)

(** The words of a regular expression. *)
Inductive lang : re -> ustring -> Prop :=
| lang_eps : lang Eps []
| lang_class neg rs c : in_class neg rs c = true -> lang (Class neg rs) [c]
| lang_cat r1 r2 s1 s2 :
    lang r1 s1 -> lang r2 s2 -> lang (Cat r1 r2) (s1 ++ s2)
| lang_alt_l r1 r2 s : lang r1 s -> lang (Alt r1 r2) s
| lang_alt_r r1 r2 s : lang r2 s -> lang (Alt r1 r2) s
| lang_star_nil r : lang (Star r) []
| lang_star_cons r s1 s2 :
    lang r s1 -> lang (Star r) s2 -> lang (Star r) (s1 ++ s2).

Definition no_at (s : ustring) : Prop := Forall (fun c => c <> at_sign) s.

(** A well-formed e-mail address: [local@domain.tld], the three parts
    non-empty and free of [@]. *)
Definition email_shape (s : ustring) : Prop :=
  exists a b c,
    s = a ++ at_sign :: b ++ full_stop :: c
    /\ a <> [] /\ b <> [] /\ c <> []
    /\ no_at a /\ no_at b /\ no_at c.

Definition is_digit (c : N) : Prop := 48 <= c /\ c <= 57.

(** A well-formed national identity number. *)
Definition thirteen_digits (s : ustring) : Prop :=
  length s = 13%nat /\ Forall is_digit s.

End PyStr.

(* ================================================================== *)
(** * The client record manager: [frames/clients.py], class [ClientsFrame] *)
(* ================================================================== *)

Module Clients.

Import Sql Py Gateway PyStr.

Local Open Scope py_scope.

(** ** The frame and its user interface *)

(** The line break of the message texts. *)
Definition nl : string := String (ascii_of_nat 10) EmptyString.

Inductive button : Type := Yes | No.

Inductive field : Type := nombre_field | apellido_field | email_field | dni_field.

(** A modal message box, by the helper that opened it. *)
Inductive dialog : Type :=
| show_error (title message : string)
| show_warning (title message : string)
| show_success (title message : string)
| show_question (title message : string).

(** The attributes of the frame the two methods read or write.  [answers]
    and [asked] stand for the user: the i-th question box is closed with
    button [answers i].  The table widget is represented by the client
    tuples it lists. *)
Record frame (C : Type) : Type := Frame {
  db : world C;
  current_client_id : option Z;
  nombre_input : ustring;
  apellido_input : ustring;
  dni_input : ustring;
  telefono_input : ustring;
  email_input : ustring;
  direccion_input : ustring;
  activo_check : bool;
  filter_combo : string;
  clients_table : list (list sqlval);
  focus : option field;
  dialogs : list dialog;
  answers : nat -> button;
  asked : nat
}.

Arguments Frame {C}.
Arguments db {C}.
Arguments current_client_id {C}.
Arguments nombre_input {C}.
Arguments apellido_input {C}.
Arguments dni_input {C}.
Arguments telefono_input {C}.
Arguments email_input {C}.
Arguments direccion_input {C}.
Arguments activo_check {C}.
Arguments filter_combo {C}.
Arguments clients_table {C}.
Arguments focus {C}.
Arguments dialogs {C}.
Arguments answers {C}.
Arguments asked {C}.

Section ClientsFrame.

Context {C : Type}.
Variable drv : driver C.

Definition open_dialog (d : dialog) (f : frame C) : frame C :=
  Frame (db f) (current_client_id f) (nombre_input f) (apellido_input f)
        (dni_input f) (telefono_input f) (email_input f) (direccion_input f)
        (activo_check f) (filter_combo f) (clients_table f) (focus f)
        (dialogs f ++ [d]) (answers f) (asked f).

Definition setFocus (x : field) (f : frame C) : frame C :=
  Frame (db f) (current_client_id f) (nombre_input f) (apellido_input f)
        (dni_input f) (telefono_input f) (email_input f) (direccion_input f)
        (activo_check f) (filter_combo f) (clients_table f) (Some x)
        (dialogs f) (answers f) (asked f).

(** [ClientsFrame.show_question]: opens the box and returns the button
    the user closes it with. *)
Definition ask (title message : string) (f : frame C) : button * frame C :=
  (answers f (asked f),
   Frame (db f) (current_client_id f) (nombre_input f) (apellido_input f)
         (dni_input f) (telefono_input f) (email_input f) (direccion_input f)
         (activo_check f) (filter_combo f) (clients_table f) (focus f)
         (dialogs f ++ [show_question title message]) (answers f)
         (S (asked f))).

Definition is_empty (s : ustring) : bool :=
  match s with [] => true | _ :: _ => false end.

(** [ClientsFrame.validate_form] *)
Definition validate_form (f : frame C) : bool * frame C :=
  let nombre := strip (nombre_input f) in
  let apellido := strip (apellido_input f) in
  let email := strip (email_input f) in
  let dni := strip (dni_input f) in
  if is_empty nombre then
    (false, setFocus nombre_field
              (open_dialog (show_error "Error de Validación"
                                       "El nombre es obligatorio") f))
  else if is_empty apellido then
    (false, setFocus apellido_field
              (open_dialog (show_error "Error de Validación"
                                       "El apellido es obligatorio") f))
  else if negb (is_empty email) && negb (re_match email_re email) then
    (false, setFocus email_field
              (open_dialog (show_error "Error de Validación"
                                       "Formato de email inválido") f))
  else if negb (is_empty dni) && negb (re_match dni_re dni) then
    (false, setFocus dni_field
              (open_dialog (show_error "Error de Validación"
                                       "El DNI debe tener 13 dígitos") f))
  else (true, f).

(** ** Deleting a client *)

(** Running a gateway call on the frame's [self.db]. *)
Definition on_db {A} (m : M C A) (f : frame C) : result A * frame C :=
  let (r, w) := m (db f) in
  (r, Frame w (current_client_id f) (nombre_input f) (apellido_input f)
            (dni_input f) (telefono_input f) (email_input f)
            (direccion_input f) (activo_check f) (filter_combo f)
            (clients_table f) (focus f) (dialogs f) (answers f) (asked f)).

(** [ClientsFrame.clear_form] *)
Definition clear_form (f : frame C) : frame C :=
  Frame (db f) None [] [] [] [] [] [] true (filter_combo f)
        (clients_table f) (focus f) (dialogs f) (answers f) (asked f).

Definition set_table (rows : list (list sqlval)) (f : frame C) : frame C :=
  Frame (db f) (current_client_id f) (nombre_input f) (apellido_input f)
        (dni_input f) (telefono_input f) (email_input f) (direccion_input f)
        (activo_check f) (filter_combo f) rows (focus f) (dialogs f)
        (answers f) (asked f).

(** [ClientsFrame.populate_table]: the table is emptied, then filled one
    client at a time; a tuple that does not unpack into nine values
    raises [ValueError]. *)
Fixpoint populate_rows (clientes : list (list sqlval)) (f : frame C)
  : result unit * frame C :=
  match clientes with
  | [] => (Ret tt, f)
  | cliente :: rest =>
      if Nat.eqb (List.length cliente) 9 then
        populate_rows rest (set_table (clients_table f ++ [cliente]) f)
      else
        (Raise (OtherError "ValueError"
                  (if Nat.ltb 9 (List.length cliente)
                   then "too many values to unpack (expected 9)"
                   else "not enough values to unpack")), f)
  end.

Definition populate_table (clientes : list (list sqlval)) (f : frame C)
  : result unit * frame C :=
  populate_rows clientes (set_table [] f).

(** [SELECT * FROM Clientes [WHERE activo = n] ORDER BY apellido, nombre] *)
Definition select_clientes (activo : option Z) : stmt :=
  SELECT PStar "Clientes"
         match activo with
         | Some n => CEq "activo" (ELit (Int n))
         | None => CTrue
         end
         ["apellido"; "nombre"] None.

Definition str_of_exn (e : exn) : string :=
  match e with
  | Sqlite3 e' => str_of_error e'
  | IndexError m | TypeError m | OtherError _ m => m
  end.

(** [ClientsFrame.load_clients] *)
Definition load_clients (f : frame C) : frame C :=
  let query :=
    if String.eqb (filter_combo f) "Solo activos" then select_clientes (Some 1%Z)
    else if String.eqb (filter_combo f) "Solo inactivos" then select_clientes (Some 0%Z)
    else select_clientes None in
  let handler (e : exn) (f' : frame C) : frame C :=
    snd (on_db (print ("Error cargando clientes: " +++ str_of_exn e)) f') in
  match on_db (fetch drv query []) f with
  | (Ret clientes, f1) =>
      match populate_table clientes f1 with
      | (Ret _, f2) => f2
      | (Raise e, f2) => handler e f2
      end
  | (Raise e, f1) => handler e f1
  end.

(** [SELECT COUNT( * ) FROM Ventas WHERE id_cliente = ?] *)
Definition count_ventas : stmt :=
  SELECT PCountStar "Ventas" (CEq "id_cliente" (EParam 0)) [] None.

(** [UPDATE Clientes SET activo = 0 WHERE id = ?] *)
Definition deactivate_cliente : stmt :=
  UPDATE "Clientes" [("activo", ELit (Int 0))] (CEq "id" (EParam 0)).

(** [DELETE FROM DetalleVenta WHERE venta_id IN
    (SELECT id FROM Ventas WHERE id_cliente = ?)] *)
Definition delete_detalle : stmt :=
  DELETE "DetalleVenta"
         (CInSelect "venta_id" "id" "Ventas" (CEq "id_cliente" (EParam 0))).

(** [DELETE FROM Ventas WHERE id_cliente = ?] *)
Definition delete_ventas : stmt :=
  DELETE "Ventas" (CEq "id_cliente" (EParam 0)).

(** [DELETE FROM Clientes WHERE id = ?] *)
Definition delete_cliente : stmt :=
  DELETE "Clientes" (CEq "id" (EParam 0)).

(** [v > 0] for a value read from the database. *)
Definition py_gt0 (v : sqlval) : result bool :=
  match v with
  | Int z => Ret (0 <? z)%Z
  | Real q => Ret (negb (Qle_bool q 0))
  | Null | Text _ => Raise (TypeError "'>' not supported between instances")
  end.

(** Sequencing of steps that may raise, over the frame. *)
Definition step (A : Type) : Type := frame C -> result A * frame C.

Definition sbind {A B} (m : step A) (k : A -> step B) : step B :=
  fun f =>
    match m f with
    | (Ret a, f') => k a f'
    | (Raise e, f') => (Raise e, f')
    end.

Definition sret {A} (a : A) : step A := fun f => (Ret a, f).

Definition ui {A} (g : frame C -> A * frame C) : step A :=
  fun f => let (a, f') := g f in (Ret a, f').

Definition ui_ (g : frame C -> frame C) : step unit :=
  fun f => (Ret tt, g f).

Declare Scope step_scope.
Delimit Scope step_scope with step.
Notation "x <- m ;; k" := (sbind m (fun x => k))
  (at level 100, m at next level, right associativity) : step_scope.
Notation "m ;; k" := (sbind m (fun _ => k))
  (at level 100, right associativity) : step_scope.

(** The text of the question asked about a client who has sales. *)
Definition deactivate_question : string :=
  "Este cliente tiene ventas registradas." +++ nl
  +++ "¿Desea desactivarlo en lugar de eliminarlo?"
  +++ nl +++ nl +++ "Sí = Desactivar (recomendado)"
  +++ nl +++ "No = Eliminar permanentemente".

(** The body of the [try] block of [delete_client], for the selected
    client [id]. *)
Definition delete_client_body (id : Z) : step unit :=
  (ventas <- on_db (fetch drv count_ventas [Int id]) ;;
   tiene_ventas <-
     (if truthy ventas then
        v0 <- on_db (getitem "list" ventas 0) ;;
        n <- on_db (getitem "tuple" v0 0) ;;
        on_db (lift_result (py_gt0 n))
      else sret false) ;;
   (if tiene_ventas : bool then
      reply <- ui (ask "Cliente con Ventas" deactivate_question) ;;
      match reply with
      | Yes =>
          on_db (execute drv deactivate_cliente [Int id]) ;;
          ui_ (open_dialog (show_success "Cliente Desactivado"
                                         "Cliente desactivado correctamente"))
      | No =>
          reply2 <- ui (ask "Confirmación"
                            ("⚠️ ADVERTENCIA: Se eliminarán también todas las ventas asociadas."
                             +++ nl +++ "¿Continuar?")) ;;
          match reply2 with
          | Yes =>
              on_db (execute drv delete_detalle [Int id]) ;;
              on_db (execute drv delete_ventas [Int id]) ;;
              on_db (execute drv delete_cliente [Int id]) ;;
              ui_ (open_dialog (show_success "Cliente Eliminado"
                                  "Cliente y ventas asociadas eliminados"))
          | No => sret tt
          end
      end
    else
      reply <- ui (ask "Confirmación" "¿Está seguro de eliminar este cliente?") ;;
      match reply with
      | Yes =>
          on_db (execute drv delete_cliente [Int id]) ;;
          ui_ (open_dialog (show_success "Cliente Eliminado"
                                         "Cliente eliminado correctamente"))
      | No => sret tt
      end) ;;
   ui_ clear_form ;;
   ui_ load_clients)%step.

(** [ClientsFrame.delete_client] *)
Definition delete_client (f : frame C) : frame C :=
  match current_client_id f with
  | None | Some 0%Z =>
      open_dialog (show_warning "Advertencia"
                                "Seleccione un cliente para eliminar") f
  | Some id =>
      match delete_client_body id f with
      | (Ret _, f') => f'
      | (Raise e, f') =>
          open_dialog (show_error "Error"
                         ("Error al eliminar cliente: " +++ str_of_exn e)) f'
      end
  end.

(** ** Vocabulary of the specification *)

(** The sales of client [cid]: the rows of Ventas whose [id_cliente] is
    [cid]. *)
Definition sales_of (cid : Z) (ventas : list row) : list row :=
  filter (fun r => sql_eqb (cell r 9) (Int cid)) ventas.

(** The client row [r] with client [cid] marked inactive. *)
Definition deactivate (cid : Z) (r : row) : row :=
  if sql_eqb (cell r 0) (Int cid)
  then Row (rowid r) (list_set 8 (Int 0) (cells r))
  else r.

(** Two frames show the same tables and the same conversation with the
    user. *)
Definition same_data (f g : frame conn) : Prop :=
  tables (self_conn (db g)) = tables (self_conn (db f))
  /\ dialogs g = dialogs f
  /\ asked g = asked f
  /\ answers g = answers f.

(** The [activo] flag of client [cid]. *)
Definition activo_of (clientes : list row) (cid : Z) : option sqlval :=
  match filter (id_is cid) clientes with
  | r :: _ => Some (cell r 8)
  | [] => None
  end.

(** The frame after one validation message for field [x], attribute by
    attribute: the error box with [message] is the last one opened, field
    [x] has the focus, and nothing else differs from [f]. *)
Definition validation_error (x : field) (message : string) (f : frame C)
  : frame C :=
  Frame (db f) (current_client_id f) (nombre_input f) (apellido_input f)
        (dni_input f) (telefono_input f) (email_input f) (direccion_input f)
        (activo_check f) (filter_combo f) (clients_table f) (Some x)
        (dialogs f ++ [show_error "Error de Validación" message])
        (answers f) (asked f).

End ClientsFrame.

(** ** States used as examples *)

(** The seeded database after one sale to client 1. *)
Definition with_sale : world conn :=
  snd (execute sqlite
         (insert_into "Ventas" ["id"; "fecha"; "total"; "id_cliente"])
         [Text "V-0001"; Text "2024-05-02 09:30:00"; Real 45.00; Int 1]
         seeded).

(** The clients frame over [w] with client [cid] selected, an empty form
    and a user who answers every question with [b]. *)
Definition frame_on (w : world conn) (cid : Z) (b : button) : frame conn :=
  Frame w (Some cid) [] [] [] [] [] [] true "Todos" [] None []
        (fun _ => b) 0.

(** A filled form, for the validation examples. *)
Definition form (nombre apellido email dni : string) : frame unit :=
  Frame (World tt [] "") None (U nombre) (U apellido) (U dni) []
        (U email) [] true "Todos" [] None [] (fun _ => No) 0.

End Clients.

(* ================================================================== *)
(** * The notification engine: [frames/notificaciones.py],
      class [NotificationManager] *)
(* ================================================================== *)

Module Notif.

(** The dictionary built by [show_notification].  [timestamp] is what
    [datetime.now()] read, in milliseconds. *)
Record data : Type := Data {
  title : string;
  message : string;
  type_ : string;
  timestamp : Z;
  action_callback : option nat;
  action_data : option string;
  icon : string;
  read : bool
}.

(** A [NotificationWidget] on screen; [wid] is the identity of the
    object. *)
Record widget : Type := Widget {
  wid : nat;
  wdata : data;
  wduration : Z
}.

(** The callables handed to [QTimer.singleShot]. *)
Inductive callback : Type :=
| cb_show_next                (* self.show_next_notification *)
| cb_animation_done           (* the lambda of show_next_notification *)
| cb_close (w : nat).         (* NotificationWidget.close *)

(** A pending single-shot timer: the delay it was started with, the
    reading of the timers' clock at which it is due, and what it
    calls. *)
Record timer : Type := Timer {
  delay : Z;
  due : Z;
  call : callback
}.

Record manager : Type := Manager {
  notification_widgets : list widget;
  notification_history : list data;
  notification_queue : list (data * Z);
  is_animating : bool;
  max_notifications : nat;
  notification_duration : Z;
  auto_clear_days : Z;        (* config["auto_clear_days"] *)
  timers : list timer;        (* pending single-shot timers *)
  now : Z;                    (* what datetime.now() reads, in milliseconds *)
  ticks : Z;                  (* the clock of the timers, in milliseconds *)
  next_wid : nat;             (* identity of the next widget created *)
  shown : list data           (* emissions of notification_shown *)
}.

(** [NotificationManager.__init__] when the system clock reads [t0]. *)
Definition init (t0 : Z) : manager :=
  Manager [] [] [] false 5 5000 30 [] t0 0 0 [].

Definition singleShot (ms : Z) (cb : callback) (m : manager) : manager :=
  Manager (notification_widgets m) (notification_history m)
          (notification_queue m) (is_animating m) (max_notifications m)
          (notification_duration m) (auto_clear_days m)
          (timers m ++ [Timer ms (ticks m + ms) cb]) (now m) (ticks m)
          (next_wid m) (shown m).

Definition set_is_animating (b : bool) (m : manager) : manager :=
  Manager (notification_widgets m) (notification_history m)
          (notification_queue m) b (max_notifications m)
          (notification_duration m) (auto_clear_days m) (timers m) (now m)
          (ticks m) (next_wid m) (shown m).

Definition set_history (h : list data) (m : manager) : manager :=
  Manager (notification_widgets m) h (notification_queue m) (is_animating m)
          (max_notifications m) (notification_duration m) (auto_clear_days m)
          (timers m) (now m) (ticks m) (next_wid m) (shown m).

Definition set_queue (q : list (data * Z)) (m : manager) : manager :=
  Manager (notification_widgets m) (notification_history m) q
          (is_animating m) (max_notifications m) (notification_duration m)
          (auto_clear_days m) (timers m) (now m) (ticks m) (next_wid m)
          (shown m).

Definition set_widgets (ws : list widget) (m : manager) : manager :=
  Manager ws (notification_history m) (notification_queue m)
          (is_animating m) (max_notifications m) (notification_duration m)
          (auto_clear_days m) (timers m) (now m) (ticks m) (next_wid m)
          (shown m).

(** [NotificationWidget(parent, data, duration, close_callback)]: the new
    widget shows itself and arms its auto-close timer. *)
Definition new_widget (d : data) (duration : Z) (m : manager)
  : widget * manager :=
  let w := Widget (next_wid m) d duration in
  let m1 := singleShot duration (cb_close (next_wid m)) m in
  (w, Manager (notification_widgets m1) (notification_history m1)
              (notification_queue m1) (is_animating m1)
              (max_notifications m1) (notification_duration m1)
              (auto_clear_days m1) (timers m1) (now m1) (ticks m1)
              (S (next_wid m1)) (shown m1)).

Definition emit_notification_shown (d : data) (m : manager) : manager :=
  Manager (notification_widgets m) (notification_history m)
          (notification_queue m) (is_animating m) (max_notifications m)
          (notification_duration m) (auto_clear_days m) (timers m) (now m)
          (ticks m) (next_wid m) (shown m ++ [d]).

(** [NotificationManager.show_next_notification].  Placing the widgets
    on the screen ([reposition_notifications]) changes none of the
    manager's attributes and is left out. *)
Definition show_next_notification (m : manager) : manager :=
  match notification_queue m with
  | [] => set_is_animating false m
  | (d, duration) :: rest =>
      if Nat.leb (max_notifications m) (List.length (notification_widgets m))
      then singleShot 500 cb_show_next m
      else
        let m1 := set_is_animating true m in
        let m2 := set_queue rest m1 in
        let (notif, m3) := new_widget d duration m2 in
        let m4 := set_widgets (notification_widgets m3 ++ [notif]) m3 in
        let m5 := emit_notification_shown d m4 in
        singleShot 150 cb_animation_done m5
  end.

(** [duration or self.notification_duration] *)
Definition duration_or (duration : option Z) (dflt : Z) : Z :=
  match duration with
  | None | Some 0 => dflt
  | Some ms => ms
  end.

(** [NotificationManager.show_notification] *)
Definition show_notification (title message type_ : string)
    (duration : option Z) (action_callback : option nat)
    (action_data : option string) (icon : string) (m : manager) : manager :=
  let duration := duration_or duration (notification_duration m) in
  let d := Data title message type_ (now m) action_callback action_data
                icon false in
  let h := d :: notification_history m in
  let h := if Nat.ltb 200 (List.length h) then removelast h else h in
  let m1 := set_history h m in
  let m2 := set_queue (notification_queue m1 ++ [(d, duration)]) m1 in
  if negb (is_animating m2) then show_next_notification m2 else m2.

Fixpoint remove_widget (w : nat) (ws : list widget) : list widget :=
  match ws with
  | [] => []
  | x :: ws' => if Nat.eqb (wid x) w then ws' else x :: remove_widget w ws'
  end.

(** [NotificationManager._on_widget_closed], called by the widget's
    [closeEvent]. *)
Definition on_widget_closed (w : nat) (m : manager) : manager :=
  set_widgets (remove_widget w (notification_widgets m)) m.

Definition ms_per_day : Z := 86400000.

(** [NotificationManager.auto_clean_history] *)
Definition auto_clean_history (m : manager) : manager :=
  let cutoff_date := now m - auto_clear_days m * ms_per_day in
  set_history
    (filter (fun notif => Z.ltb cutoff_date (timestamp notif))
            (notification_history m))
    m.

(** ** The event loop *)

Inductive event : Type :=
| Submit (title message type_ : string) (duration : option Z)
                   (action_callback : option nat)
                   (action_data : option string) (icon : string)
| Expire (i : nat)            (* the i-th pending timer expires *)
| Elapse (ms : Z)             (* time passes *)
| CloseWidget (w : nat)       (* the user closes a widget *)
| AutoCleanHistory
| ClearHistory                (* NotificationCenter.clear_history, confirmed *)
| SaveDuration (seconds : Z)  (* NotificationCenter.save_config *)
| SetClock (t : Z).           (* the system clock is set to read t *)

Fixpoint drop_nth {A} (i : nat) (l : list A) : list A :=
  match l, i with
  | [], _ => []
  | _ :: l', O => l'
  | a :: l', S i' => a :: drop_nth i' l'
  end.

Definition set_timers (ts : list timer) (m : manager) : manager :=
  Manager (notification_widgets m) (notification_history m)
          (notification_queue m) (is_animating m) (max_notifications m)
          (notification_duration m) (auto_clear_days m) ts (now m) (ticks m)
          (next_wid m) (shown m).

Definition run_callback (cb : callback) (m : manager) : manager :=
  match cb with
  | cb_show_next => show_next_notification m
  | cb_animation_done => show_next_notification (set_is_animating false m)
  | cb_close w => on_widget_closed w m
  end.

(** One turn of the event loop; [None] when the event cannot occur (a
    timer that is not pending or not yet due, a negative lapse of time).
    The timers run on a clock of their own, which only moves forward;
    [datetime.now()] reads the system clock, which moves with it and which
    [SetClock] can also put forward or back (an adjustment of the clock, a
    change of time zone or of daylight saving time). *)
Definition step (m : manager) (e : event) : option manager :=
  match e with
  | Submit t msg ty dur cb dat ic =>
      Some (show_notification t msg ty dur cb dat ic m)
  | Expire i =>
      match nth_error (timers m) i with
      | Some tm =>
          if Z.leb (due tm) (ticks m)
          then Some (run_callback (call tm) (set_timers (drop_nth i (timers m)) m))
          else None
      | None => None
      end
  | Elapse ms =>
      if Z.leb 0 ms then
        Some (Manager (notification_widgets m) (notification_history m)
                      (notification_queue m) (is_animating m)
                      (max_notifications m) (notification_duration m)
                      (auto_clear_days m) (timers m) (now m + ms)
                      (ticks m + ms) (next_wid m) (shown m))
      else None
  | CloseWidget w => Some (on_widget_closed w m)
  | AutoCleanHistory => Some (auto_clean_history m)
  | ClearHistory => Some (set_history [] m)
  | SaveDuration s =>
      Some (Manager (notification_widgets m) (notification_history m)
                    (notification_queue m) (is_animating m)
                    (max_notifications m) (s * 1000) (auto_clear_days m)
                    (timers m) (now m) (ticks m) (next_wid m) (shown m))
  | SetClock t =>
      Some (Manager (notification_widgets m) (notification_history m)
                    (notification_queue m) (is_animating m)
                    (max_notifications m) (notification_duration m)
                    (auto_clear_days m) (timers m) t (ticks m) (next_wid m)
                    (shown m))
  end.

Fixpoint run (m : manager) (es : list event) : option manager :=
  match es with
  | [] => Some m
  | e :: es' =>
      match step m e with
      | Some m' => run m' es'
      | None => None
      end
  end.

(** The states the manager can be in. *)
Definition reachable (m : manager) : Prop :=
  exists t0 es, run (init t0) es = Some m.

(** ** Vocabulary of the specification *)

(** The timestamps of the history run from the most recent to the
    oldest. *)
Fixpoint most_recent_first (h : list data) : Prop :=
  match h with
  | [] => True
  | d :: h' =>
      Forall (fun d' => timestamp d' <= timestamp d) h' /\ most_recent_first h'
  end.

(** The dictionaries built by the submissions of a run, in order. *)
Fixpoint submissions (m : manager) (es : list event) : list data :=
  match es with
  | [] => []
  | e :: es' =>
      match step m e with
      | Some m' =>
          match e with
          | Submit t msg ty dur cb dat ic =>
              [Data t msg ty (now m) cb dat ic false]
          | _ => []
          end ++ submissions m' es'
      | None => []
      end
  end.

(** The notifications shown so far, followed by those waiting. *)
Definition delivered_then_waiting (m : manager) : list data :=
  shown m ++ map fst (notification_queue m).

(** [l] is [l'] with some of its entries left out: those it keeps are in
    the order they have in [l']. *)
Inductive subsequence {A : Type} : list A -> list A -> Prop :=
| subsequence_nil : subsequence [] []
| subsequence_skip x l l' : subsequence l l' -> subsequence l (x :: l')
| subsequence_keep x l l' : subsequence l l' -> subsequence (x :: l) (x :: l').

(** The event leaves the system clock to run on: it does not set it. *)
Definition clock_runs_on (e : event) : Prop :=
  match e with
  | SetClock _ => False
  | _ => True
  end.



(** The history is in the order of its timestamps and holds no
    notification from the future. *)
Definition chronological (m : manager) : Prop :=
  most_recent_first (notification_history m)
  /\ Forall (fun d => (timestamp d <= now m)%Z) (notification_history m).

(** Five submissions 150 ms apart, each followed by the expiry of its
    animation timer, then a sixth. *)
Definition six_submissions : list event :=
  [ Submit "n1" "m" "info" None None None "i"; Elapse 150; Expire 1;
    Submit "n2" "m" "info" None None None "i"; Elapse 150; Expire 2;
    Submit "n3" "m" "info" None None None "i"; Elapse 150; Expire 3;
    Submit "n4" "m" "info" None None None "i"; Elapse 150; Expire 4;
    Submit "n5" "m" "info" None None None "i"; Elapse 150; Expire 5;
    Submit "n6" "m" "info" None None None "i" ].




End Notif.

(* ================================================================== *)
(** * The additional methods of [DBManager]: company data, backups and
      the audit log *)
(* ================================================================== *)

Module Additional.

Import Sql Py Gateway.

Local Open Scope py_scope.

(** The dictionary returned by [get_empresa_info], one field per key. *)
Record empresa_info : Type := EmpresaInfo {
  nombre : sqlval;
  ruc : sqlval;
  direccion : sqlval;
  telefono : sqlval;
  email : sqlval;
  moneda : sqlval;
  impuesto_por_defecto : sqlval
}.

(** An optional [int] argument as a statement parameter. *)
Definition int_or_none (n : option Z) : sqlval :=
  match n with Some z => Int z | None => Null end.

(** An optional [str] argument as a statement parameter. *)
Definition str_or_none (s : option string) : sqlval :=
  match s with Some u => Text u | None => Null end.

Section DBManager.

Context {C : Type}.
Variable drv : driver C.

(** [SELECT * FROM Empresa LIMIT 1] *)
Definition select_empresa : stmt :=
  SELECT PStar "Empresa" CTrue [] (Some 1%nat).

(** [DBManager.get_empresa_info] *)
Definition get_empresa_info : M C (option empresa_info) :=
  result <- fetch drv select_empresa [] ;;
  if truthy result then
    r0 <- getitem "list" result 0 ;;
    nombre <- getitem "tuple" r0 1 ;;
    ruc <- getitem "tuple" r0 2 ;;
    direccion <- getitem "tuple" r0 3 ;;
    telefono <- getitem "tuple" r0 4 ;;
    email <- getitem "tuple" r0 5 ;;
    moneda <- getitem "tuple" r0 7 ;;
    impuesto_por_defecto <- getitem "tuple" r0 10 ;;
    ret (Some (EmpresaInfo nombre ruc direccion telefono email moneda
                           impuesto_por_defecto))
  else ret None.

(** [INSERT INTO Backups (nombre_archivo, ruta, usuario_id, automatico,
    tamano) VALUES (?, ?, ?, ?, ?)] *)
Definition insert_backup : stmt :=
  insert_into "Backups"
    ["nombre_archivo"; "ruta"; "usuario_id"; "automatico"; "tamano"].

(** [DBManager.crear_backup], for a file name and a path that are [str],
    a user that is an [int] or [None]. *)
Definition crear_backup (nombre_archivo ruta : string)
    (usuario_id : option Z) (automatico : bool) : M C (option Z) :=
  execute drv insert_backup
    [Text nombre_archivo; Text ruta; int_or_none usuario_id;
     Int (if automatico then 1 else 0); Int 0].

(** [INSERT INTO Auditoria (usuario_id, accion, modulo, descripcion,
    ip_address, user_agent) VALUES (?, ?, ?, ?, ?, ?)] *)
Definition insert_auditoria : stmt :=
  insert_into "Auditoria"
    ["usuario_id"; "accion"; "modulo"; "descripcion"; "ip_address";
     "user_agent"].

(** [DBManager.registrar_auditoria], each argument a [str] or [None]
    and the user an [int] or [None]. *)
Definition registrar_auditoria (usuario_id : option Z)
    (accion modulo descripcion ip_address user_agent : option string)
  : M C (option Z) :=
  execute drv insert_auditoria
    [int_or_none usuario_id; str_or_none accion; str_or_none modulo;
     str_or_none descripcion; str_or_none ip_address;
     str_or_none user_agent].

End DBManager.

(** ** Vocabulary *)

(** The row [crear_backup] writes. *)
Definition backup_row (rid : Z) (nombre_archivo ruta : string)
    (usuario_id : option Z) (automatico : bool) (clk : string) : row :=
  Row rid [Int rid; Text nombre_archivo; Text ruta; Int 0; Text clk;
           int_or_none usuario_id; Null;
           Int (if automatico then 1 else 0)].

(** The row [registrar_auditoria] writes. *)
Definition auditoria_row (rid : Z) (usuario_id : option Z) (accion : string)
    (modulo descripcion ip_address user_agent : option string)
    (clk : string) : row :=
  Row rid [Int rid; int_or_none usuario_id; Text accion; str_or_none modulo;
           str_or_none descripcion; str_or_none ip_address;
           str_or_none user_agent; Text clk].

(** The cell of row [r] under the column named [c] of schema [s]. *)
Definition column_of (s : schema) (c : string) (r : row) : sqlval :=
  match col_index s c with
  | Some i => cell r i
  | None => Null
  end.

(** Every row of the list has a rowid below [n]. *)
Definition ids_below (n : Z) (rows : list row) : Prop :=
  Forall (fun r => rowid r < n) rows.

End Additional.

(* ================================================================== *)
(** * The client form: [frames/clients.py], saving a client and loading
      one into the form *)
(* ================================================================== *)

Module ClientsEdit.

Import Sql Py Gateway PyStr Clients.

(** [needle in hay], for two [str]. *)
Fixpoint contains (needle hay : string) : bool :=
  String.prefix needle hay
  || match hay with
     | EmptyString => false
     | String _ hay' => contains needle hay'
     end.

(** [str(n)] for a natural number. *)
Definition str_of_nat (n : nat) : string :=
  NilEmpty.string_of_uint (Nat.to_uint n).

(** The [ValueError] of unpacking a tuple of [n] values into nine
    names. *)
Definition unpack_error (n : nat) : exn :=
  OtherError "ValueError"
    (if Nat.ltb 9 n then "too many values to unpack (expected 9)"
     else "not enough values to unpack (expected 9, got "
          +++ str_of_nat n +++ ")").

(** Truth value of a value read from the database: [None], zero and the
    empty text are false. *)
Definition truth (v : sqlval) : bool :=
  match v with
  | Null => false
  | Int z => negb (Z.eqb z 0)
  | Real q => negb (Qeq_bool q 0)
  | Text s => negb (String.eqb s "")
  end.

(** [v or ""] *)
Definition or_empty (v : sqlval) : sqlval :=
  if truth v then v else Text "".

(** [s or None] *)
Definition or_none (s : ustring) : option ustring :=
  if is_empty s then None else Some s.

(** [INSERT INTO Clientes (nombre, apellido, dni, telefono, email,
    direccion, fecha_registro, activo) VALUES (?, ?, ?, ?, ?, ?, ?, ?)] *)
Definition insert_cliente : stmt :=
  insert_into "Clientes"
    ["nombre"; "apellido"; "dni"; "telefono"; "email"; "direccion";
     "fecha_registro"; "activo"].

(** [UPDATE Clientes SET nombre=?, apellido=?, dni=?, telefono=?, email=?,
    direccion=?, activo=? WHERE id=?] *)
Definition update_cliente : stmt :=
  UPDATE "Clientes"
    [("nombre", EParam 0); ("apellido", EParam 1); ("dni", EParam 2);
     ("telefono", EParam 3); ("email", EParam 4); ("direccion", EParam 5);
     ("activo", EParam 6)]
    (CEq "id" (EParam 7)).

(** [SELECT * FROM Clientes WHERE id = ?] *)
Definition select_cliente : stmt :=
  SELECT PStar "Clientes" (CEq "id" (EParam 0)) [] None.

Section ClientsFrame.

Context {C : Type}.
Variable drv : driver C.

(** The driver binds a [str] parameter as its UTF-8 bytes, [encode s];
    a [str] that has no encoding makes the binding raise
    [UnicodeEncodeError], whose text is [encode_error s]. *)
Variable encode : ustring -> option string.
Variable encode_error : ustring -> string.

(** The text a Qt widget takes from the Python value handed to [setText]
    or [setPlainText]; the binding raises for a value it does not
    convert. *)
Variable qt_text : sqlval -> result ustring.

Declare Scope form_scope.
Delimit Scope form_scope with form.
Notation "x <- m ;; k" := (sbind m (fun x => k))
  (at level 100, m at next level, right associativity) : form_scope.
Notation "m ;; k" := (sbind m (fun _ => k))
  (at level 100, right associativity) : form_scope.

Definition sraise {A} (e : exn) : @step C A := fun f => (Raise e, f).

(** ** Saving *)

Definition bind_param (p : option ustring) : @step C sqlval :=
  match p with
  | None => sret Null
  | Some s =>
      match encode s with
      | Some b => sret (Text b)
      | None => sraise (OtherError "UnicodeEncodeError" (encode_error s))
      end
  end.

(** The parameters are bound from left to right. *)
Fixpoint bind_params (ps : list (option ustring)) : @step C (list sqlval) :=
  match ps with
  | [] => sret []
  | p :: ps' =>
      (v <- bind_param p ;;
       vs <- bind_params ps' ;;
       sret (v :: vs))%form
  end.

(** The body of the [try] block of [save_client]. *)
Definition save_client_body : @step C unit :=
  fun f =>
    let nombre := strip (nombre_input f) in
    let apellido := strip (apellido_input f) in
    let dni := or_none (strip (dni_input f)) in
    let telefono := or_none (strip (telefono_input f)) in
    let email := or_none (strip (email_input f)) in
    let direccion := or_none (strip (direccion_input f)) in
    let activo := if activo_check f then 1 else 0 in
    let texts := [Some nombre; Some apellido; dni; telefono; email;
                  direccion] in
    (match current_client_id f with
     | None | Some 0 =>
         fecha_registro <- on_db datetime_now ;;
         ps <- bind_params texts ;;
         on_db (execute drv insert_cliente
                  (ps ++ [Text fecha_registro; Int activo])) ;;
         ui_ (open_dialog (show_success "Cliente Registrado"
                                        "Cliente registrado correctamente"))
     | Some id =>
         ps <- bind_params texts ;;
         on_db (execute drv update_cliente (ps ++ [Int activo; Int id])) ;;
         ui_ (open_dialog (show_success "Cliente Actualizado"
                                        "Cliente actualizado correctamente"))
     end ;;
     ui_ clear_form ;;
     ui_ (load_clients drv))%form f.

(** [ClientsFrame.save_client] *)
Definition save_client (f : frame C) : frame C :=
  let (valid, f0) := validate_form f in
  if negb valid then f0
  else
    match save_client_body f0 with
    | (Ret _, f') => f'
    | (Raise e, f') =>
        if contains "UNIQUE constraint failed" (str_of_exn e) then
          open_dialog (show_error "Error"
                         "El DNI ya está registrado para otro cliente") f'
        else
          open_dialog (show_error "Error"
                         ("Error al guardar cliente: " +++ str_of_exn e)) f'
    end.

(** ** Loading a client into the form *)

Definition set_nombre_input (u : ustring) (f : frame C) : frame C :=
  Frame (db f) (current_client_id f) u (apellido_input f) (dni_input f)
        (telefono_input f) (email_input f) (direccion_input f)
        (activo_check f) (filter_combo f) (clients_table f) (focus f)
        (dialogs f) (answers f) (asked f).

Definition set_apellido_input (u : ustring) (f : frame C) : frame C :=
  Frame (db f) (current_client_id f) (nombre_input f) u (dni_input f)
        (telefono_input f) (email_input f) (direccion_input f)
        (activo_check f) (filter_combo f) (clients_table f) (focus f)
        (dialogs f) (answers f) (asked f).

Definition set_dni_input (u : ustring) (f : frame C) : frame C :=
  Frame (db f) (current_client_id f) (nombre_input f) (apellido_input f) u
        (telefono_input f) (email_input f) (direccion_input f)
        (activo_check f) (filter_combo f) (clients_table f) (focus f)
        (dialogs f) (answers f) (asked f).

Definition set_telefono_input (u : ustring) (f : frame C) : frame C :=
  Frame (db f) (current_client_id f) (nombre_input f) (apellido_input f)
        (dni_input f) u (email_input f) (direccion_input f)
        (activo_check f) (filter_combo f) (clients_table f) (focus f)
        (dialogs f) (answers f) (asked f).

Definition set_email_input (u : ustring) (f : frame C) : frame C :=
  Frame (db f) (current_client_id f) (nombre_input f) (apellido_input f)
        (dni_input f) (telefono_input f) u (direccion_input f)
        (activo_check f) (filter_combo f) (clients_table f) (focus f)
        (dialogs f) (answers f) (asked f).

Definition set_direccion_input (u : ustring) (f : frame C) : frame C :=
  Frame (db f) (current_client_id f) (nombre_input f) (apellido_input f)
        (dni_input f) (telefono_input f) (email_input f) u
        (activo_check f) (filter_combo f) (clients_table f) (focus f)
        (dialogs f) (answers f) (asked f).

Definition set_activo_check (b : bool) (f : frame C) : frame C :=
  Frame (db f) (current_client_id f) (nombre_input f) (apellido_input f)
        (dni_input f) (telefono_input f) (email_input f) (direccion_input f)
        b (filter_combo f) (clients_table f) (focus f)
        (dialogs f) (answers f) (asked f).

Definition set_current_client_id (id : option Z) (f : frame C) : frame C :=
  Frame (db f) id (nombre_input f) (apellido_input f)
        (dni_input f) (telefono_input f) (email_input f) (direccion_input f)
        (activo_check f) (filter_combo f) (clients_table f) (focus f)
        (dialogs f) (answers f) (asked f).

(** [widget.setText(v)] and [widget.setPlainText(v)] *)
Definition setText (set : ustring -> frame C -> frame C) (v : sqlval)
  : @step C unit :=
  match qt_text v with
  | Ret u => ui_ (set u)
  | Raise e => sraise e
  end.

(** The body of the [try] block of [load_client_details]. *)
Definition load_client_details_body (client_id : Z) : @step C unit :=
  (cliente <- on_db (fetch drv select_cliente [Int client_id]) ;;
   if truthy cliente then
     cliente_data <- on_db (getitem "list" cliente 0) ;;
     match cliente_data with
     | [id_cliente; nombre; apellido; dni; telefono; email; direccion;
        fecha_registro; activo] =>
         setText set_nombre_input nombre ;;
         setText set_apellido_input apellido ;;
         setText set_dni_input (or_empty dni) ;;
         setText set_telefono_input (or_empty telefono) ;;
         setText set_email_input (or_empty email) ;;
         setText set_direccion_input (or_empty direccion) ;;
         ui_ (set_activo_check (truth activo)) ;;
         ui_ (set_current_client_id (Some client_id))
     | _ => sraise (unpack_error (List.length cliente_data))
     end
   else sret tt)%form.

(** [ClientsFrame.load_client_details] *)
Definition load_client_details (client_id : Z) (f : frame C) : frame C :=
  match load_client_details_body client_id f with
  | (Ret _, f') => f'
  | (Raise e, f') =>
      snd (on_db (print ("Error cargando detalles del cliente: "
                         +++ str_of_exn e)) f')
  end.

(** The parameter bound for an optional text, when it has one. *)
Definition bound (p : option ustring) : option sqlval :=
  match p with
  | None => Some Null
  | Some s => option_map Text (encode s)
  end.

End ClientsFrame.

(** ** Vocabulary *)

(** The rows [load_clients] asks for under the filter [combo]. *)
Definition listed (combo : string) (clientes : list row) : list row :=
  if String.eqb combo "Solo activos"
  then filter (fun r => sql_eqb (cell r 8) (Int 1)) clientes
  else if String.eqb combo "Solo inactivos"
  then filter (fun r => sql_eqb (cell r 8) (Int 0)) clientes
  else clientes.

(** The row written for a new client, with the defaults of the columns
    the INSERT leaves out. *)
Definition cliente_row (rid : Z) (nombre apellido : string)
    (dni telefono email direccion : sqlval) (fecha_registro : string)
    (activo : bool) : row :=
  Row rid [Int rid; Text nombre; Text apellido; dni; telefono; email;
           direccion; Text fecha_registro; Int (if activo then 1 else 0);
           Text "Normal"; Real 0; Null].

(** Some client already carries the identity number [dni]. *)
Definition dni_taken (dni : sqlval) (clientes : list row) : bool :=
  existsb (fun r => sql_eqb (cell r 3) dni) clientes.

(** The detail row [r] belongs to a sale of client [cid]: its [venta_id]
    is the [id] of one of the client's sales. *)
Definition detail_of (cid : Z) (ventas : list row) (r : row) : bool :=
  existsb (sql_eqb (cell r 1))
          (map (fun v => cell v 0) (sales_of cid ventas)).

(** The form is blank and no client is selected. *)
Definition blank {C} (f : frame C) : Prop :=
  current_client_id f = None
  /\ nombre_input f = [] /\ apellido_input f = [] /\ dni_input f = []
  /\ telefono_input f = [] /\ email_input f = [] /\ direccion_input f = []
  /\ activo_check f = true.

(** The widget takes the text of a [str] and nothing else: an instance
    of the binding's conversion, for the examples. *)
Definition ascii_text (v : sqlval) : result ustring :=
  match v with
  | Text s => Ret (U s)
  | _ => Raise (TypeError "setText")
  end.

(** The bytes of a text of ASCII characters, no encoding for any other:
    an instance of the driver's encoding, for the examples. *)
Fixpoint ascii_bytes (s : ustring) : option string :=
  match s with
  | [] => Some EmptyString
  | c :: s' =>
      if N.ltb c 128
      then option_map (String (ascii_of_N c)) (ascii_bytes s')
      else None
  end.

(** The clients frame over [w] with nothing selected and the form
    holding the given texts. *)
Definition filled (w : world conn) (nombre apellido dni email : string)
  : frame conn :=
  Frame w None (U nombre) (U apellido) (U dni) [] (U email) [] true
        "Todos los clientes" [] None [] (fun _ => No) 0.

(** The database of [with_sale] with one detail row for the sale. *)
Definition with_detail : world conn :=
  snd (execute sqlite
         (insert_into "DetalleVenta"
            ["venta_id"; "producto_id"; "nombre_producto"; "cantidad";
             "precio_unitario"; "subtotal"])
         [Text "V-0001"; Int 2; Text "Teclado"; Int 1; Real 45.00;
          Real 45.00]
         with_sale).

(** A user who answers No to the first question and Yes to the rest. *)
Definition no_then_yes (i : nat) : button :=
  match i with O => No | S _ => Yes end.

(** The clients frame over [w] with client [cid] selected and a user who
    answers the i-th question with [ans i]. *)
Definition selecting (w : world conn) (cid : Z) (ans : nat -> button)
  : frame conn :=
  Frame w (Some cid) [] [] [] [] [] [] true "Todos los clientes" [] None []
        ans 0.

(** The text of the second question asked about a client who has
    sales. *)
Definition cascade_question : string :=
  "⚠️ ADVERTENCIA: Se eliminarán también todas las ventas asociadas."
  +++ nl +++ "¿Continuar?".

(** The form and the selection of [g] are those of [f]. *)
Definition same_form {C} (f g : frame C) : Prop :=
  current_client_id g = current_client_id f
  /\ nombre_input g = nombre_input f
  /\ apellido_input g = apellido_input f
  /\ dni_input g = dni_input f
  /\ telefono_input g = telefono_input f
  /\ email_input g = email_input f
  /\ direccion_input g = direccion_input f
  /\ activo_check g = activo_check f.

End ClientsEdit.

(* ================================================================== *)
(** * The notification engine: placement on the screen and the
      notification centre *)
(* ================================================================== *)

Module NotifCenter.

Import Notif.

(** ** Placement: [NotificationManager.reposition_notifications] *)

(** [NotificationWidget.height], set by its constructor. *)
Definition height : Z := 120.

(** One call [w.animate_to(x, y)]. *)
Record placement : Type := Placement {
  placed : nat;             (* the widget *)
  target_x : Z;
  target_y : Z
}.

(** The loop over the visible widgets. *)
Fixpoint place (start_x y spacing : Z) (ws : list widget) : list placement :=
  match ws with
  | [] => []
  | w :: ws' =>
      Placement (wid w) start_x y
      :: place start_x
               (y + (height + spacing) * (if 0 <? spacing then 1 else -1))
               spacing ws'
  end.

(** [NotificationManager.reposition_notifications], for the configured
    position and the size of the screen: the calls of [animate_to] it
    makes, in order. *)
Definition reposition_notifications (position : string)
    (screen_width screen_height : Z) (m : manager) : list placement :=
  if String.eqb position "top-right" then
    place (screen_width - 380) 80 10 (notification_widgets m)
  else if String.eqb position "bottom-right" then
    place (screen_width - 380) (screen_height - 150) (-10)
          (notification_widgets m)
  else
    place 20 80 10 (notification_widgets m).

(** ** The history seen from the notification centre *)

(** [notif['read'] = True] *)
Definition set_read (notif : data) : data :=
  Data (title notif) (message notif) (type_ notif) (timestamp notif)
       (action_callback notif) (action_data notif) (icon notif) true.

(** [NotificationManager.get_unread_count] *)
Definition get_unread_count (m : manager) : nat :=
  List.length (filter (fun notif => negb (read notif))
                      (notification_history m)).

(** [NotificationManager.mark_all_as_read].  The dictionaries of the
    history are also held by the queue and by the widgets, where no code
    reads the key [read]; the history is where the flag is kept. *)
Definition mark_all_as_read (m : manager) : manager :=
  set_history (map set_read (notification_history m)) m.

Fixpoint replace_nth {A} (i : nat) (a : A) (l : list A) : list A :=
  match l, i with
  | [], _ => []
  | _ :: l', O => a :: l'
  | x :: l', S i' => x :: replace_nth i' a l'
  end.

(** [NotificationCenter.on_notification_click] for the item at [row],
    with [NotificationManager.handle_notification_click]: the entry is
    marked read and its action, when it has one, is called, with the
    action data when there is some.  The second component is that
    call. *)
Definition on_notification_click (row : Z) (m : manager)
  : manager * option (nat * option string) :=
  if (0 <=? row) && (row <? Z.of_nat (List.length (notification_history m)))
  then
    match nth_error (notification_history m) (Z.to_nat row) with
    | Some notif =>
        (set_history (replace_nth (Z.to_nat row) (set_read notif)
                                  (notification_history m)) m,
         match action_callback notif with
         | Some callback => Some (callback, action_data notif)
         | None => None
         end)
    | None => (m, None)
    end
  else (m, None).

(** ** Vocabulary *)

(** Every visible widget has its auto-close timer pending, armed with
    the widget's duration. *)
Definition close_timers_pending (m : manager) : Prop :=
  forall w, In w (notification_widgets m) ->
    exists tm, In tm (timers m)
               /\ call tm = cb_close (wid w) /\ delay tm = wduration w.

(** The widgets are distinct objects, created before the next one. *)
Definition widgets_distinct (m : manager) : Prop :=
  NoDup (map wid (notification_widgets m))
  /\ Forall (fun w => (wid w < next_wid m)%nat) (notification_widgets m).

Definition closable (m : manager) : Prop :=
  close_timers_pending m /\ widgets_distinct m.

(** The vertical extents [y, y + height) of two placements overlap. *)
Definition overlap (p q : placement) : Prop :=
  target_y p < target_y q + height /\ target_y q < target_y p + height.

End NotifCenter.

(* ================================================================== *)
(** * SELECT statements with a compound WHERE clause *)
(* ================================================================== *)

Module Query.

Import Sql Py Gateway.

Local Open Scope res_scope.

(** ** Syntax *)

Inductive operand : Type :=
| Column (c : string)
| Param (n : nat)             (* the n-th [?] of the statement, from 0 *)
| Lit (v : sqlval).

Inductive comparison : Type := EQ | LE | GT.   (* [=], [<=], [>] *)

Inductive where_clause : Type :=
| Compare (op : comparison) (a b : operand)
| And (p q : where_clause)
| Or (p q : where_clause).

(** [SELECT cs FROM t WHERE w] *)
Record select : Type := Select {
  sel_columns : list string;
  sel_table : string;
  sel_where : where_clause
}.

(** ** Three-valued logic: [None] is SQL's NULL. *)

Definition and3 (a b : option bool) : option bool :=
  match a, b with
  | Some false, _ | _, Some false => Some false
  | Some true, Some true => Some true
  | _, _ => None
  end.

Definition or3 (a b : option bool) : option bool :=
  match a, b with
  | Some true, _ | _, Some true => Some true
  | Some false, Some false => Some false
  | _, _ => None
  end.

(** A comparison with NULL is NULL; numbers come before text. *)
Definition compare_values (op : comparison) (a b : sqlval) : option bool :=
  match a, b with
  | Null, _ | _, Null => None
  | _, _ =>
      Some match op with
           | EQ => sql_eqb a b
           | LE => sql_leb a b
           | GT => negb (sql_leb a b)
           end
  end.

(** ** Semantics *)

(** An operand compiled against the schema: how to read it off a row,
    and the affinity of the column when it is one. *)
Definition compile_operand (s : schema) (params : list sqlval) (a : operand)
  : res ((row -> sqlval) * option affinity) :=
  match a with
  | Column c =>
      ik <- resolve s c ;;
      inr (fun r => cell r (fst ik), Some (caff (snd ik)))
  | Param n =>
      match nth_error params n with
      | Some v => inr (fun _ => v, None)
      | None => inl (ProgrammingError "Incorrect number of bindings supplied")
      end
  | Lit v => inr (fun _ => v, None)
  end.

(** The affinity of a column is applied to the value it is compared
    with, when that value is not itself a column. *)
Definition convert (mine other : option affinity) (v : sqlval) : sqlval :=
  match mine, other with
  | None, Some a => apply_affinity a v
  | _, _ => v
  end.

Fixpoint compile_where (s : schema) (params : list sqlval) (w : where_clause)
  : res (row -> option bool) :=
  match w with
  | Compare op a b =>
      x <- compile_operand s params a ;;
      y <- compile_operand s params b ;;
      inr (fun r =>
             compare_values op (convert (snd x) (snd y) (fst x r))
                               (convert (snd y) (snd x) (fst y r)))
  | And p q =>
      f <- compile_where s params p ;;
      g <- compile_where s params q ;;
      inr (fun r => and3 (f r) (g r))
  | Or p q =>
      f <- compile_where s params p ;;
      g <- compile_where s params q ;;
      inr (fun r => or3 (f r) (g r))
  end.

Definition operand_arity (a : operand) : nat :=
  match a with Param _ => 1%nat | _ => 0%nat end.

Fixpoint where_arity (w : where_clause) : nat :=
  match w with
  | Compare _ a b => (operand_arity a + operand_arity b)%nat
  | And p q | Or p q => (where_arity p + where_arity q)%nat
  end.

(** The rows a statement produces: those for which the WHERE clause is
    true, in the order of the table. *)
Definition run_select_where (q : select) (params : list sqlval) (d : db)
  : res (list (list sqlval)) :=
  tb <- get_table d (sel_table q) ;;
  let s := tschema tb in
  idx <- rmap (resolve s) (sel_columns q) ;;
  _ <- (if Nat.eqb (List.length params) (where_arity (sel_where q)) then inr tt
        else inl (ProgrammingError "Incorrect number of bindings supplied")) ;;
  f <- compile_where s params (sel_where q) ;;
  inr (map (fun r => map (fun ik => cell r (fst ik)) idx)
           (filter (fun r => match f r with Some true => true | _ => false end)
                   (trows tb))).

(** ** [DBManager.fetch] on such a statement *)

Section DBManager.

Context {C : Type}.
Variable drv : driver C.

(** [cursor.execute] of the driver, for these statements. *)
Variable cursor_execute_select :
  select -> list sqlval -> C -> result unit * C.

Local Open Scope py_scope.

Definition self_cursor_execute_select (q : select) (params : list sqlval)
  : M C unit :=
  fun w =>
    let (r, c') := cursor_execute_select q params (self_conn w) in
    (r, World c' (stdout w) (wallclock w)).

(** [DBManager.fetch] *)
Definition fetch (query : select) (params : list sqlval)
  : M C (list (list sqlval)) :=
  try_except_sqlite3
    (self_cursor_execute_select query params ;;
     self_cursor_fetchall drv)
    (fun e =>
       print ("Error en consulta: " +++ str_of_error e) ;;
       ret []).

End DBManager.

(** The in-memory SQLite on these statements. *)
Definition sqlite_select (q : select) (params : list sqlval) (c : conn)
  : result unit * conn :=
  match run_select_where q params (tables c) with
  | inl e => (Raise (Sqlite3 e), c)
  | inr rs => (Ret tt, Conn (tables c) (lastrowid c) rs (clock c))
  end.

End Query.

(** The message boxes of [QMessageBox] that the frames open. *)
Module Qt.

Inductive message_box : Type :=
| information (title text : string)
| warning (title text : string)
| critical (title text : string).

End Qt.

(* ================================================================== *)
(** * The login dialog: [ERP-Facturacion-1/main.py], class
      [ModernLoginDialog] *)
(* ================================================================== *)

Module Login.

Import Sql Py Gateway PyStr Clients Query Qt.

(** The attributes of the dialog that [attempt_login] reads or writes:
    [db] is the [DBManager] the main window creates and hands to the
    dialog, [accepted] tells whether [accept()] was called, [boxes] lists
    the message boxes opened. *)
Record dialog (C : Type) : Type := Dialog {
  db : world C;
  username : ustring;
  password : ustring;
  accepted_user : option (list sqlval);
  accepted : bool;
  boxes : list message_box
}.

Arguments Dialog {C}.
Arguments db {C}.
Arguments username {C}.
Arguments password {C}.
Arguments accepted_user {C}.
Arguments accepted {C}.
Arguments boxes {C}.

(** [SELECT id, nombre, rol FROM Usuarios WHERE usuario = ? AND
    contrasena = ?] *)
Definition select_usuario : select :=
  Select ["id"; "nombre"; "rol"] "Usuarios"
         (And (Compare EQ (Column "usuario") (Param 0))
              (Compare EQ (Column "contrasena") (Param 1))).

Definition denied_text : string :=
  "Usuario o contraseña incorrectos." +++ nl +++ nl +++ "Intente con:"
  +++ nl +++ "Usuario: admin" +++ nl +++ "Contraseña: 1234".

Section ModernLoginDialog.

Context {C : Type}.
Variable drv : driver C.
Variable cursor_execute_select :
  select -> list sqlval -> C -> result unit * C.

(** The driver binds a [str] parameter as its UTF-8 bytes, [encode s];
    a [str] that has no encoding makes the binding raise
    [UnicodeEncodeError], whose text is [encode_error s]. *)
Variable encode : ustring -> option string.
Variable encode_error : ustring -> string.

Definition message (b : message_box) (g : dialog C) : dialog C :=
  Dialog (db g) (username g) (password g) (accepted_user g) (accepted g)
         (boxes g ++ [b]).

Definition database_error (e : string) (g : dialog C) : dialog C :=
  message (critical "Error de Base de Datos"
                    ("Error al conectar con la base de datos:" +++ nl +++ e))
          g.

(** [ModernLoginDialog.attempt_login] *)
Definition attempt_login (g : dialog C) : dialog C :=
  let user := strip (username g) in
  let pwd := strip (password g) in
  if is_empty user || is_empty pwd then
    message (warning "Campos requeridos"
                     "Por favor complete todos los campos.") g
  else
    match encode user, encode pwd with
    | Some u, Some p =>
        match Query.fetch drv cursor_execute_select select_usuario
                [Text u; Text p] (db g) with
        | (Ret row, w) =>
            match row with
            | r0 :: _ =>
                Dialog w (username g) (password g) (Some r0) true (boxes g)
            | [] =>
                message (warning "Acceso denegado" denied_text)
                  (Dialog w (username g) (password g) (accepted_user g)
                          (accepted g) (boxes g))
            end
        | (Raise e, w) =>
            database_error (str_of_exn e)
              (Dialog w (username g) (password g) (accepted_user g)
                      (accepted g) (boxes g))
        end
    | None, _ => database_error (encode_error user) g
    | Some _, None => database_error (encode_error pwd) g
    end.

End ModernLoginDialog.

(** ** Vocabulary *)

(** The row of Usuarios carries the user name [u] and the password
    [p]. *)
Definition credentials (u p : string) (r : row) : bool :=
  sql_eqb (cell r 2) (Text u) && sql_eqb (cell r 3) (Text p).

(** What the dialog keeps of a user: [id], [nombre] and [rol]. *)
Definition identity (r : row) : list sqlval :=
  [cell r 0; cell r 1; cell r 4].

(** The dialog as it opens over [w], with the two fields filled. *)
Definition opened (w : world conn) (user pwd : string) : dialog conn :=
  Dialog w (U user) (U pwd) None false [].

End Login.

(* ================================================================== *)
(** * Low stock: [DBManager.get_productos_bajo_stock] and
      [NotificationManager.check_stock_alerts] *)
(* ================================================================== *)

Module StockAlerts.

Import Sql Py Gateway Query Notif.

Local Open Scope py_scope.

(** [SELECT id, nombre, stock, stock_minimo FROM Productos WHERE
    stock <= stock_minimo AND activo = 1] *)
Definition select_bajo_stock : select :=
  Select ["id"; "nombre"; "stock"; "stock_minimo"] "Productos"
         (And (Compare LE (Column "stock") (Column "stock_minimo"))
              (Compare EQ (Column "activo") (Lit (Int 1)))).

(** [SELECT nombre, stock, stock_minimo FROM Productos WHERE
    stock <= stock_minimo AND stock_minimo > 0 OR stock <= 10] *)
Definition select_stock_alerts : select :=
  Select ["nombre"; "stock"; "stock_minimo"] "Productos"
         (Or (And (Compare LE (Column "stock") (Column "stock_minimo"))
                  (Compare GT (Column "stock_minimo") (Lit (Int 0))))
             (Compare LE (Column "stock") (Lit (Int 10)))).

(** The callable [self.open_low_stock_product]. *)
Definition open_low_stock_product : nat := 0.

(** [str(z)] for an [int]. *)
Definition str_of_int (z : Z) : string :=
  NilZero.string_of_int (Z.to_int z).

Section Alerts.

Context {C : Type}.
Variable drv : driver C.
Variable cursor_execute_select :
  select -> list sqlval -> C -> result unit * C.

(** [repr] of a [float]. *)
Variable repr_float : Q -> string.

(** [DBManager.get_productos_bajo_stock] *)
Definition get_productos_bajo_stock : M C (list (list sqlval)) :=
  Query.fetch drv cursor_execute_select select_bajo_stock [].

(** The text an f-string puts for a value read from the database. *)
Definition format (v : sqlval) : string :=
  match v with
  | Null => "None"
  | Int z => str_of_int z
  | Real q => repr_float q
  | Text s => s
  end.

(** [action_data=nombre] *)
Definition action_data_of (nombre : sqlval) : option string :=
  match nombre with
  | Null => None
  | _ => Some (format nombre)
  end.

Definition alert_message (nombre stock stock_minimo : sqlval) : string :=
  "Producto: " +++ format nombre +++ Clients.nl
  +++ "Stock actual: " +++ format stock +++ Clients.nl
  +++ "Stock mínimo: " +++ format stock_minimo.

(** The loop of [check_stock_alerts]: each row is unpacked into three
    names and notified. *)
Fixpoint notify_rows (rows : list (list sqlval)) (m : manager)
  : result unit * manager :=
  match rows with
  | [] => (Ret tt, m)
  | [nombre; stock; stock_minimo] :: rows' =>
      notify_rows rows'
        (show_notification "⚠️ Stock Crítico"
           (alert_message nombre stock stock_minimo)
           "warning" (Some 6000) (Some open_low_stock_product)
           (action_data_of nombre) "📦" m)
  | row :: _ =>
      (Raise (OtherError "ValueError"
                (if Nat.ltb 3 (List.length row)
                 then "too many values to unpack (expected 3)"
                 else "not enough values to unpack (expected 3, got "
                      +++ ClientsEdit.str_of_nat (List.length row) +++ ")")),
       m)
  end.

(** [NotificationManager.check_stock_alerts]; [stock_alerts] is the
    truth value of [self.config.get("stock_alerts", True)], the state is
    the gateway's and the manager's. *)
Definition check_stock_alerts (stock_alerts : bool) (w : world C)
    (m : manager) : result unit * (world C * manager) :=
  if negb stock_alerts then (Ret tt, (w, m))
  else
    let (r, w') := Query.fetch drv cursor_execute_select select_stock_alerts
                     [] w in
    let rows := match r with Ret rows => rows | Raise _ => [] end in
    let (r', m') := notify_rows rows m in
    (r', (w', m')).

End Alerts.

(** ** Vocabulary *)

(** The submission of the notification of the product in row [r] of
    Productos. *)
Definition stock_alert (repr_float : Q -> string) (r : row) : event :=
  Submit "⚠️ Stock Crítico"
         (alert_message repr_float (cell r 1) (cell r 5) (cell r 6))
         "warning" (Some 6000) (Some open_low_stock_product)
         (action_data_of repr_float (cell r 1)) "📦".

(** A product with these [stock] and [stock_minimo] is notified. *)
Definition alert_due (stock stock_minimo : sqlval) : bool :=
  match or3 (and3 (compare_values LE stock stock_minimo)
                  (compare_values GT stock_minimo (Int 0)))
            (compare_values LE stock (Int 10)) with
  | Some true => true
  | _ => false
  end.

(** A product with these [stock], [stock_minimo] and [activo] is listed
    as low on stock. *)
Definition listed_low (stock stock_minimo activo : sqlval) : bool :=
  match and3 (compare_values LE stock stock_minimo)
             (compare_values EQ activo (Int 1)) with
  | Some true => true
  | _ => false
  end.

End StockAlerts.

(* ================================================================== *)
(** * The settings frame: [ERP-Facturacion-1/frames/config.py], class
      [ConfigFrame] *)
(* ================================================================== *)

Module Settings.

Import Sql Py Gateway PyStr Clients Qt.

(** [SELECT clave, valor FROM Configuracion] *)
Definition select_configuracion : stmt :=
  SELECT (PCols ["clave"; "valor"]) "Configuracion" CTrue [] None.

(** [SELECT id, nombre, tipo, porcentaje FROM Descuentos] *)
Definition select_descuentos : stmt :=
  SELECT (PCols ["id"; "nombre"; "tipo"; "porcentaje"]) "Descuentos" CTrue
         [] None.

(** ** The dictionary [current_settings] *)

(** Python's [==] on values read from the database. *)
Definition py_eqb (a b : sqlval) : bool :=
  match a, b with
  | Null, Null => true
  | Int x, Int y => Z.eqb x y
  | Int x, Real q | Real q, Int x => Qeq_bool (inject_Z x) q
  | Real p, Real q => Qeq_bool p q
  | Text s, Text u => String.eqb s u
  | _, _ => false
  end.

(** A [dict], in insertion order. *)
Definition dict : Type := list (sqlval * sqlval).

(** [d[k] = v] *)
Fixpoint dict_set (k v : sqlval) (d : dict) : dict :=
  match d with
  | [] => [(k, v)]
  | (k', v') :: d' =>
      if py_eqb k' k then (k', v) :: d' else (k', v') :: dict_set k v d'
  end.

(** [d.get(k)] *)
Fixpoint dict_get (k : sqlval) (d : dict) : option sqlval :=
  match d with
  | [] => None
  | (k', v') :: d' => if py_eqb k' k then Some v' else dict_get k d'
  end.

(** ** The table of discounts, a [QTableWidget] of four columns *)

Definition table_widget : Type := list (list (option string)).

Definition columnCount : nat := 4.

Definition setRowCount (n : nat) (t : table_widget) : table_widget :=
  firstn n t ++ repeat (repeat None columnCount) (n - List.length t).

(** [setItem] outside the table sets nothing. *)
Definition setItem (row col : nat) (text : string) (t : table_widget)
  : table_widget :=
  match nth_error t row with
  | Some cells =>
      if Nat.ltb col columnCount
      then NotifCenter.replace_nth row
             (NotifCenter.replace_nth col (Some text) cells) t
      else t
  | None => t
  end.

(** The attributes of the frame that the methods below read or write:
    [db] is the [DBManager] of the main window ([parent.db]), [boxes]
    lists the message boxes opened. *)
Record frame (C : Type) : Type := Frame {
  db : world C;
  current_settings : dict;
  company_name : ustring;
  company_ruc : ustring;
  receipt_template : ustring;
  discounts_table : table_widget;
  boxes : list message_box
}.

Arguments Frame {C}.
Arguments db {C}.
Arguments current_settings {C}.
Arguments company_name {C}.
Arguments company_ruc {C}.
Arguments receipt_template {C}.
Arguments discounts_table {C}.
Arguments boxes {C}.

(** The [ValueError] of unpacking a tuple of [n] values into two
    names. *)
Definition unpack_error (n : nat) : exn :=
  OtherError "ValueError"
    (if Nat.ltb 2 n then "too many values to unpack (expected 2)"
     else "not enough values to unpack (expected 2, got "
          +++ ClientsEdit.str_of_nat n +++ ")").

Section ConfigFrame.

Context {C : Type}.
Variable drv : driver C.

(** The driver binds a [str] parameter as its UTF-8 bytes, [encode s];
    a [str] that has no encoding makes the binding raise
    [UnicodeEncodeError], whose text is [encode_error s]. *)
Variable encode : ustring -> option string.
Variable encode_error : ustring -> string.

(** The text a Qt widget takes from the Python value handed to
    [setText]; the binding raises for a value it does not convert. *)
Variable qt_text : sqlval -> result ustring.

(** [repr] of a [float]. *)
Variable repr_float : Q -> string.

Definition set_db (w : world C) (f : frame C) : frame C :=
  Frame w (current_settings f) (company_name f) (company_ruc f)
        (receipt_template f) (discounts_table f) (boxes f).

Definition set_current_settings (d : dict) (f : frame C) : frame C :=
  Frame (db f) d (company_name f) (company_ruc f) (receipt_template f)
        (discounts_table f) (boxes f).

Definition set_company_name (s : ustring) (f : frame C) : frame C :=
  Frame (db f) (current_settings f) s (company_ruc f) (receipt_template f)
        (discounts_table f) (boxes f).

Definition set_company_ruc (s : ustring) (f : frame C) : frame C :=
  Frame (db f) (current_settings f) (company_name f) s (receipt_template f)
        (discounts_table f) (boxes f).

Definition set_discounts_table (t : table_widget) (f : frame C) : frame C :=
  Frame (db f) (current_settings f) (company_name f) (company_ruc f)
        (receipt_template f) t (boxes f).

Definition message (b : message_box) (f : frame C) : frame C :=
  Frame (db f) (current_settings f) (company_name f) (company_ruc f)
        (receipt_template f) (discounts_table f) (boxes f ++ [b]).

(** [print(line)] *)
Definition print_line (line : string) (f : frame C) : frame C :=
  set_db (snd (print line (db f))) f.

(** ** Loading *)

(** [for clave, valor in settings: self.current_settings[clave] = valor] *)
Fixpoint store_settings (settings : list (list sqlval)) (f : frame C)
  : result unit * frame C :=
  match settings with
  | [] => (Ret tt, f)
  | [clave; valor] :: rest =>
      store_settings rest
        (set_current_settings (dict_set clave valor (current_settings f)) f)
  | row :: _ => (Raise (unpack_error (List.length row)), f)
  end.

(** [self.current_settings.get(key, '')] handed to [setText] *)
Definition setting_text (key : string) (f : frame C) : result ustring :=
  match dict_get (Text key) (current_settings f) with
  | Some v => qt_text v
  | None => Ret []
  end.

(** [ConfigFrame.apply_settings_to_ui] *)
Definition apply_settings_to_ui (f : frame C) : result unit * frame C :=
  match setting_text "empresa_nombre" f with
  | Raise e => (Raise e, f)
  | Ret nombre =>
      let f1 := set_company_name nombre f in
      match setting_text "empresa_ruc" f1 with
      | Raise e => (Raise e, f1)
      | Ret ruc => (Ret tt, set_company_ruc ruc f1)
      end
  end.

(** [for col, value in enumerate(discount)], from column [col] on *)
Fixpoint fill_row (row col : nat) (discount : list sqlval) (t : table_widget)
  : table_widget :=
  match discount with
  | [] => t
  | value :: rest =>
      fill_row row (S col) rest
        (setItem row col (StockAlerts.format repr_float value) t)
  end.

(** [for row, discount in enumerate(discounts)], from row [row] on *)
Fixpoint fill_rows (row : nat) (discounts : list (list sqlval))
    (t : table_widget) : table_widget :=
  match discounts with
  | [] => t
  | discount :: rest => fill_rows (S row) rest (fill_row row 0 discount t)
  end.

(** [ConfigFrame.load_discounts_list] *)
Definition load_discounts_list (f : frame C) : frame C :=
  match fetch drv select_descuentos [] (db f) with
  | (Ret discounts, w) =>
      set_discounts_table
        (fill_rows 0 discounts
           (setRowCount (List.length discounts) (discounts_table f)))
        (set_db w f)
  | (Raise e, w) =>
      print_line ("Error cargando descuentos: " +++ str_of_exn e)
                 (set_db w f)
  end.

(** The body of the [try] block of [load_all_settings]. *)
Definition load_all_settings_body (f : frame C) : result unit * frame C :=
  match fetch drv select_configuracion [] (db f) with
  | (Raise e, w) => (Raise e, set_db w f)
  | (Ret settings, w) =>
      match store_settings settings (set_db w f) with
      | (Raise e, f1) => (Raise e, f1)
      | (Ret _, f1) =>
          match apply_settings_to_ui f1 with
          | (Raise e, f2) => (Raise e, f2)
          | (Ret _, f2) => (Ret tt, load_discounts_list f2)
          end
      end
  end.

(** [ConfigFrame.load_all_settings] *)
Definition load_all_settings (f : frame C) : frame C :=
  match load_all_settings_body f with
  | (Ret _, f') => f'
  | (Raise e, f') =>
      print_line ("Error cargando configuraciones: " +++ str_of_exn e) f'
  end.

(** ** Saving *)

(** [for clave, valor in settings_to_save.items():
    self.db.set_config(clave, valor)] *)
Fixpoint save_each (settings_to_save : list (string * ustring))
    (f : frame C) : result unit * frame C :=
  match settings_to_save with
  | [] => (Ret tt, f)
  | (clave, valor) :: rest =>
      match encode valor with
      | None =>
          (Raise (OtherError "UnicodeEncodeError" (encode_error valor)), f)
      | Some v =>
          match set_config drv clave v (db f) with
          | (Raise e, w) => (Raise e, set_db w f)
          | (Ret _, w) => save_each rest (set_db w f)
          end
      end
  end.

(** [ConfigFrame.save_all_settings] *)
Definition save_all_settings (f : frame C) : frame C :=
  let settings_to_save :=
    [("empresa_nombre", company_name f); ("empresa_ruc", company_ruc f)] in
  match save_each settings_to_save f with
  | (Ret _, f') =>
      message (information "Configuración Guardada"
                 "Todas las configuraciones han sido guardadas correctamente.")
              f'
  | (Raise e, f') =>
      message (critical "Error"
                 ("Error guardando configuraciones: " +++ str_of_exn e)) f'
  end.

(** [ConfigFrame.save_receipt_template] *)
Definition save_receipt_template (f : frame C) : frame C :=
  let template := receipt_template f in
  if is_empty (strip template) then
    message (warning "Validación" "La plantilla no puede estar vacía.") f
  else
    match save_each [("recibo_template", template)] f with
    | (Ret _, f') =>
        message (information "Éxito" "Plantilla guardada correctamente.") f'
    | (Raise e, f') =>
        message (critical "Error"
                   ("Error guardando plantilla: " +++ str_of_exn e)) f'
    end.

End ConfigFrame.

(** ** Vocabulary *)

(** The frame over [w] with the company fields and the template filled,
    nothing loaded yet. *)
Definition filled (w : world conn) (nombre ruc template : string)
  : frame conn :=
  Frame w [] (U nombre) (U ruc) (U template) [] [].

(** The frame as [__init__] has it before [load_all_settings]. *)
Definition opened (w : world conn) : frame conn :=
  Frame w [] [] [] [] [] [].

(** The cells the table shows for one discount. *)
Definition shown (repr_float : Q -> string) (r : row) : list (option string) :=
  map (fun v => Some (StockAlerts.format repr_float v))
      [cell r 0; cell r 1; cell r 2; cell r 3].

(** Every row of the widget has its four cells. *)
Definition four_columns (t : table_widget) : Prop :=
  Forall (fun cells => List.length cells = columnCount) t.

(** The value of setting [k] in the table [rows]. *)
Definition setting (k : string) (rows : list row) : option sqlval :=
  match filter (clave_is k) rows with
  | r :: _ => Some (cell r 1)
  | [] => None
  end.

End Settings.

(* ================================================================== *)
(** * Properties of the notification engine *)
(* ================================================================== *)

Module NotifFacts.

Import Notif.

Local Open Scope nat_scope.

(** ** Invariants of the event loop *)

Section Invariant.

Variable P : manager -> Prop.
Hypothesis establish : forall t0, P (init t0).
Hypothesis preserve : forall m e m', P m -> step m e = Some m' -> P m'.

Lemma run_preserves :
  forall es m m', P m -> run m es = Some m' -> P m'.
Proof.
  induction es as [|e es IH]; simpl; intros m m' Hm Hrun.
  - now inversion Hrun; subst.
  - destruct (step m e) as [m1|] eqn:He; [|discriminate].
    eapply IH; [|exact Hrun]. eapply preserve; eauto.
Qed.

Lemma invariant_reachable : forall m, reachable m -> P m.
Proof.
  intros m (t0 & es & Hrun). eapply run_preserves; eauto.
Qed.

End Invariant.

(** ** What [show_next_notification] leaves alone *)

Lemma show_next_history m :
  notification_history (show_next_notification m) = notification_history m.
Proof.
  unfold show_next_notification.
  destruct (notification_queue m) as [|[d dur] rest]; [reflexivity|].
  destruct (Nat.leb _ _); reflexivity.
Qed.

Lemma show_next_now m : now (show_next_notification m) = now m.
Proof.
  unfold show_next_notification.
  destruct (notification_queue m) as [|[d dur] rest]; [reflexivity|].
  destruct (Nat.leb _ _); reflexivity.
Qed.






(** ** The cap on visible notifications *)




(** ** The history *)

Lemma removelast_length {A} (l : list A) :
  length (removelast l) = pred (length l).
Proof.
  induction l as [|a [|b l] IH]; cbn in *; try reflexivity.
  now rewrite IH.
Qed.

Lemma Forall_removelast {A} (Q : A -> Prop) (l : list A) :
  Forall Q l -> Forall Q (removelast l).
Proof.
  induction 1 as [|a l Ha Hl IH]; cbn; [constructor|].
  destruct l; constructor; auto.
Qed.

Lemma most_recent_first_removelast h :
  most_recent_first h -> most_recent_first (removelast h).
Proof.
  induction h as [|d h IH]; cbn; [tauto|].
  intros [Hd Hh]. destruct h as [|d' h]; [exact I|].
  split; [exact (Forall_removelast Hd)|now apply IH].
Qed.

Lemma most_recent_first_filter f h :
  most_recent_first h -> most_recent_first (filter f h).
Proof.
  induction h as [|d h IH]; cbn; [tauto|].
  intros [Hd Hh]. destruct (f d); cbn; [|now apply IH].
  split; [|now apply IH].
  apply Forall_forall. intros x Hx. apply filter_In in Hx.
  rewrite Forall_forall in Hd. now apply Hd.
Qed.

(** The history after a submission: the new entry in front and, past
    200 entries, the last one dropped. *)
Lemma show_notification_history t msg ty dur cb dat ic m :
  notification_history (show_notification t msg ty dur cb dat ic m) =
  let h := Data t msg ty (now m) cb dat ic false :: notification_history m in
  if Nat.ltb 200 (length h) then removelast h else h.
Proof.
  unfold show_notification.
  match goal with
  | |- context [negb (is_animating ?x)] => destruct (negb (is_animating x))
  end; [rewrite show_next_history|]; reflexivity.
Qed.

Lemma show_notification_now t msg ty dur cb dat ic m :
  now (show_notification t msg ty dur cb dat ic m) = now m.
Proof.
  unfold show_notification.
  match goal with
  | |- context [negb (is_animating ?x)] => destruct (negb (is_animating x))
  end; [rewrite show_next_now|]; reflexivity.
Qed.


Lemma history_length_step m e m' :
  length (notification_history m) <= 200 -> step m e = Some m' ->
  length (notification_history m') <= 200.
Proof.
  intros Hlen Hstep.
  destruct e as [t msg ty dur cb dat ic|i|ms|w| | |sec|clk]; cbn in Hstep.
  - inversion Hstep; subst; clear Hstep.
    rewrite show_notification_history. cbv zeta.
    destruct (Nat.ltb 200 _) eqn:Hcap.
    + rewrite removelast_length. cbn. lia.
    + now apply Nat.ltb_ge in Hcap.
  - destruct (nth_error (timers m) i) as [tm|]; [|discriminate].
    destruct (Z.leb (due tm) (ticks m)); [|discriminate].
    inversion Hstep; subst; clear Hstep.
    destruct (call tm) as [| |w]; cbn; rewrite ?show_next_history; exact Hlen.
  - destruct (Z.leb 0 ms); [|discriminate]. now inversion Hstep; subst.
  - now inversion Hstep; subst.
  - inversion Hstep; subst; cbn.
    match goal with
    | |- length (filter ?f ?l) <= _ => pose proof (filter_length_le f l)
    end. lia.
  - inversion Hstep; subst; cbn. lia.
  - now inversion Hstep; subst.
  - now inversion Hstep; subst.
Qed.

Lemma history_length_reachable m :
  reachable m -> length (notification_history m) <= 200.
Proof.
  revert m.
  apply (@invariant_reachable
           (fun m => length (notification_history m) <= 200)).
  - intros t0. cbn. lia.
  - intros; eapply history_length_step; eauto.
Qed.

(** *** The order of submission *)

Lemma subsequence_refl {A} (l : list A) : subsequence l l.
Proof. induction l; [constructor|now apply subsequence_keep]. Qed.

Lemma subsequence_nil_l {A} (l : list A) : subsequence [] l.
Proof. induction l; constructor; assumption. Qed.

Lemma subsequence_trans {A} (l1 l2 l3 : list A) :
  subsequence l1 l2 -> subsequence l2 l3 -> subsequence l1 l3.
Proof.
  intros H12 H23. revert l1 H12.
  induction H23 as [|x l2 l3 H23 IH|x l2 l3 H23 IH]; intros l1 H12.
  - exact H12.
  - apply subsequence_skip. now apply IH.
  - inversion H12; subst.
    + apply subsequence_skip. now apply IH.
    + apply subsequence_keep. now apply IH.
Qed.

Lemma subsequence_removelast {A} (l : list A) : subsequence (removelast l) l.
Proof.
  induction l as [|a [|b l] IH]; cbn in *.
  - constructor.
  - apply subsequence_skip. constructor.
  - apply subsequence_keep. exact IH.
Qed.

Lemma subsequence_filter {A} (f : A -> bool) (l : list A) :
  subsequence (filter f l) l.
Proof.
  induction l as [|a l IH]; cbn; [constructor|].
  destruct (f a); [apply subsequence_keep|apply subsequence_skip]; exact IH.
Qed.

Lemma subsequence_app_l {A} (a l l' : list A) :
  subsequence l l' -> subsequence (a ++ l) (a ++ l').
Proof.
  intros H. induction a; cbn; [exact H|now apply subsequence_keep].
Qed.

(** One turn of the event loop puts a submission in front of the history
    and takes no other entry in. *)
Lemma history_step_order m e m' :
  step m e = Some m' ->
  subsequence (notification_history m')
    (match e with
     | Submit t msg ty dur cb dat ic =>
         [Data t msg ty (now m) cb dat ic false]
     | _ => []
     end ++ notification_history m).
Proof.
  intros Hstep.
  destruct e as [t msg ty dur cb dat ic|i|ms|w| | |sec|clk]; cbn in Hstep.
  - inversion Hstep; subst; clear Hstep.
    rewrite show_notification_history. cbv zeta.
    destruct (Nat.ltb 200 _).
    + apply subsequence_removelast.
    + apply subsequence_refl.
  - destruct (nth_error (timers m) i) as [tm|]; [|discriminate].
    destruct (Z.leb (due tm) (ticks m)); [|discriminate].
    inversion Hstep; subst; clear Hstep.
    destruct (call tm) as [| |w]; cbn; rewrite ?show_next_history;
      apply subsequence_refl.
  - destruct (Z.leb 0 ms); [|discriminate]. inversion Hstep; subst.
    apply subsequence_refl.
  - inversion Hstep; subst. apply subsequence_refl.
  - inversion Hstep; subst. apply subsequence_filter.
  - inversion Hstep; subst. apply subsequence_nil_l.
  - inversion Hstep; subst. apply subsequence_refl.
  - inversion Hstep; subst. apply subsequence_refl.
Qed.

Lemma history_run_order es : forall m m',
  run m es = Some m' ->
  subsequence (notification_history m')
              (rev (submissions m es) ++ notification_history m).
Proof.
  induction es as [|e es IH]; intros m m' Hrun; cbn in Hrun |- *.
  - inversion Hrun; subst. apply subsequence_refl.
  - destruct (step m e) as [m1|] eqn:He; [|discriminate].
    eapply subsequence_trans; [exact (IH _ _ Hrun)|].
    rewrite rev_app_distr, <- app_assoc.
    apply subsequence_app_l.
    pose proof (history_step_order _ _ He) as H.
    destruct e; cbn in H |- *; exact H.
Qed.

(** *** The order of the timestamps *)

Lemma chronological_step m e m' :
  chronological m -> clock_runs_on e -> step m e = Some m' -> chronological m'.
Proof.
  unfold chronological. intros (Hsorted & Hpast) Hclock Hstep.
  destruct e as [t msg ty dur cb dat ic|i|ms|w| | |sec|clk]; cbn in Hstep.
  - inversion Hstep; subst; clear Hstep.
    rewrite show_notification_history, show_notification_now. cbv zeta.
    set (d := Data t msg ty (now m) cb dat ic false).
    assert (Hs : most_recent_first (d :: notification_history m))
      by (split; [exact Hpast|exact Hsorted]).
    assert (Hp : Forall (fun d0 => (timestamp d0 <= now m)%Z)
                        (d :: notification_history m))
      by (constructor; [cbn; lia|exact Hpast]).
    destruct (Nat.ltb 200 (length (d :: notification_history m))).
    + split; [now apply most_recent_first_removelast|now apply Forall_removelast].
    + auto.
  - destruct (nth_error (timers m) i) as [tm|]; [|discriminate].
    destruct (Z.leb (due tm) (ticks m)); [|discriminate].
    inversion Hstep; subst; clear Hstep.
    destruct (call tm) as [| |w]; cbn;
      rewrite ?show_next_history, ?show_next_now; cbn; auto.
  - destruct (Z.leb 0 ms) eqn:Hms; [|discriminate].
    inversion Hstep; subst; cbn. apply Z.leb_le in Hms.
    split; [exact Hsorted|].
    eapply Forall_impl; [|exact Hpast]. cbn. intros; lia.
  - inversion Hstep; subst; cbn. auto.
  - inversion Hstep; subst; cbn. split.
    + now apply most_recent_first_filter.
    + apply Forall_forall. intros x Hx. apply filter_In in Hx.
      rewrite Forall_forall in Hpast. now apply Hpast.
  - inversion Hstep; subst; cbn. split; [exact I|constructor].
  - inversion Hstep; subst; cbn. auto.
  - destruct Hclock.
Qed.

Lemma chronological_run es : forall m m',
  chronological m -> Forall clock_runs_on es -> run m es = Some m' ->
  chronological m'.
Proof.
  induction es as [|e es IH]; intros m m' Hm Hes Hrun; cbn in Hrun.
  - now inversion Hrun; subst.
  - destruct (step m e) as [m1|] eqn:He; [|discriminate].
    inversion Hes; subst.
    eapply IH; [|eassumption|exact Hrun].
    eapply chronological_step; eauto.
Qed.

Lemma map_removelast {A B} (f : A -> B) (l : list A) :
  map f (removelast l) = removelast (map f l).
Proof.
  induction l as [|a [|b l] IH]; cbn in *; try reflexivity.
  now rewrite IH.
Qed.

(** C2.  Whatever the events since the manager was created, the history
    holds at most 200 notifications; it lists notifications that were
    submitted, the most recently submitted first; a submission puts the
    new notification in front, and when the history already holds 200 it
    is the last entry, the one submitted longest ago, that is dropped.
    As long as the system clock is not set, the timestamps too run from
    the most recent to the oldest. *)
Theorem history_capped_most_recent_first :
  forall t0 es m,
    run (init t0) es = Some m ->
    length (notification_history m) <= 200
    /\ subsequence (notification_history m) (rev (submissions (init t0) es))
    /\ (Forall clock_runs_on es -> most_recent_first (notification_history m))
    /\ forall t msg ty dur cb dat ic,
         let d := Data t msg ty (now m) cb dat ic false in
         let h' := notification_history
                     (show_notification t msg ty dur cb dat ic m) in
         (length (notification_history m) < 200 ->
            h' = d :: notification_history m)
         /\ (length (notification_history m) = 200 ->
            h' = d :: removelast (notification_history m)).
Proof.
  intros t0 es m Hrun.
  split; [apply history_length_reachable; now exists t0, es|].
  split.
  { pose proof (history_run_order _ _ Hrun) as H. cbn in H.
    now rewrite app_nil_r in H. }
  split.
  { intros Hes.
    refine (proj1 (chronological_run (m := init t0) _ Hes Hrun)).
    split; [exact I|constructor]. }
  intros t msg ty dur cb dat ic d h'. subst h'.
  rewrite show_notification_history. cbv zeta. fold d.
  split; intros Hn.
  - assert (Hc : Nat.ltb 200 (length (d :: notification_history m)) = false)
      by (apply Nat.ltb_ge; cbn; lia).
    now rewrite Hc.
  - assert (Hc : Nat.ltb 200 (length (d :: notification_history m)) = true)
      by (apply Nat.ltb_lt; cbn; lia).
    rewrite Hc. cbn. destruct (notification_history m); [discriminate|reflexivity].
Qed.

(** C2 at the cap: after a first submission and 199 more the history is
    full, with the first submission last; one more submission goes in
    front and drops it. *)
Lemma history_capped_most_recent_first_witness :
  let es := Submit "first" "m" "info" None None None "i"
            :: repeat (Submit "t" "m" "info" None None None "i") 199 in
  exists m,
    run (init 0) es = Some m
    /\ map title (notification_history m) = repeat "t" 199 ++ ["first"]
    /\ map title (notification_history
                    (show_notification "new" "m" "info" None None None "i" m))
       = "new" :: repeat "t" 199
    /\ most_recent_first (notification_history m).
Proof.
  intros es.
  assert (Ht : option_map (fun m => map title (notification_history m))
                          (run (init 0) es)
               = Some (repeat "t" 199 ++ ["first"]))
    by (vm_compute; reflexivity).
  destruct (run (init 0) es) as [m|] eqn:Hrun; [|discriminate Ht].
  cbn [option_map] in Ht. injection Ht as Ht.
  exists m. split; [reflexivity|]. split; [exact Ht|].
  destruct (@history_capped_most_recent_first 0 es m Hrun)
    as (_ & _ & Hsorted & Hsub).
  destruct (Hsub "new" "m" "info" None None None "i") as [_ Hfull].
  split.
  - rewrite Hfull.
    + cbn [map title]. rewrite map_removelast, Ht.
      vm_compute. reflexivity.
    + rewrite <- (length_map title), Ht. vm_compute. reflexivity.
  - apply Hsorted. subst es. constructor; [exact I|].
    apply Forall_forall. intros e He. apply repeat_spec in He. subst e.
    exact I.
Defined.

(** Past 200 submissions the history stays at 200 entries. *)
Example history_after_250_submissions :
  option_map (fun m => length (notification_history m))
    (run (init 0) (repeat (Submit "t" "m" "info" None None None "i") 250))
  = Some 200.
Proof. vm_compute. reflexivity. Qed.

(** ** Admission control *)





(** ** Queued notifications are not stranded *)

Lemma In_drop_nth {A} (l : list A) i x y :
  nth_error l i = Some y -> In x l -> x <> y -> In x (drop_nth i l).
Proof.
  revert i. induction l as [|a l IH]; intros [|i] Hy Hx Hne; cbn in *;
    try discriminate.
  - inversion Hy; subst. destruct Hx as [->|Hx]; [congruence|exact Hx].
  - destruct Hx as [->|Hx]; [now left|right; eauto].
Qed.






(** ** From submission to display *)

Lemma show_next_delivery m :
  delivered_then_waiting (show_next_notification m)
  = delivered_then_waiting m.
Proof.
  unfold delivered_then_waiting, show_next_notification.
  destruct (notification_queue m) as [|[d dur] rest] eqn:Hq.
  - cbn. now rewrite Hq.
  - destruct (Nat.leb _ _); cbn.
    + now rewrite Hq.
    + now rewrite <- app_assoc.
Qed.

Lemma step_delivery m e m' :
  step m e = Some m' ->
  delivered_then_waiting m'
  = delivered_then_waiting m
    ++ match e with
       | Submit t msg ty dur cb dat ic =>
           [Data t msg ty (now m) cb dat ic false]
       | _ => []
       end.
Proof.
  intros Hstep.
  destruct e as [t msg ty dur cb dat ic|i|ms|w| | |sec|clk]; cbn in Hstep.
  - inversion Hstep; subst; clear Hstep. unfold show_notification.
    cbv zeta. cbn [is_animating set_queue set_history].
    destruct (negb (is_animating m)).
    + rewrite show_next_delivery. unfold delivered_then_waiting. cbn.
      now rewrite map_app, app_assoc.
    + unfold delivered_then_waiting. cbn. now rewrite map_app, app_assoc.
  - destruct (nth_error (timers m) i) as [tm|]; [|discriminate].
    destruct (Z.leb (due tm) (ticks m)); [|discriminate].
    inversion Hstep; subst; clear Hstep. rewrite app_nil_r.
    destruct (call tm) as [| |w]; cbn [run_callback].
    + now rewrite show_next_delivery.
    + now rewrite show_next_delivery.
    + reflexivity.
  - destruct (Z.leb 0 ms); [|discriminate]. inversion Hstep; subst.
    now rewrite app_nil_r.
  - inversion Hstep; subst. now rewrite app_nil_r.
  - inversion Hstep; subst. now rewrite app_nil_r.
  - inversion Hstep; subst. now rewrite app_nil_r.
  - inversion Hstep; subst. now rewrite app_nil_r.
  - inversion Hstep; subst. now rewrite app_nil_r.
Qed.

Lemma run_delivery es m m' :
  run m es = Some m' ->
  delivered_then_waiting m' = delivered_then_waiting m ++ submissions m es.
Proof.
  revert m. induction es as [|e es IH]; intros m Hrun; cbn in *.
  - inversion Hrun; subst. now rewrite app_nil_r.
  - destruct (step m e) as [m1|] eqn:He; [|discriminate].
    rewrite (IH _ Hrun), (step_delivery _ _ He). now rewrite app_assoc.
Qed.




End NotifFacts.

(* ================================================================== *)
(** * Properties of the statement semantics *)
(* ================================================================== *)

Module SqlFacts.

Import Sql.

Local Open Scope res_scope.

Lemma list_set_length {A} i (v : A) l : length (list_set i v l) = length l.
Proof.
  revert i. induction l as [|a l IH]; intros [|i]; cbn; auto.
Qed.

Lemma nth_list_set_same {A} i (v dflt : A) l :
  (i < length l)%nat -> nth i (list_set i v l) dflt = v.
Proof.
  revert i. induction l as [|a l IH]; intros [|i] Hi; cbn in *; try lia.
  - reflexivity.
  - apply IH. lia.
Qed.

Lemma nth_list_set_other {A} i j (v dflt : A) l :
  i <> j -> nth j (list_set i v l) dflt = nth j l dflt.
Proof.
  revert i j. induction l as [|a l IH]; intros [|i] [|j] Hij; cbn;
    try reflexivity; try congruence.
  apply IH. congruence.
Qed.

Lemma rmap_if {A B} (c : A -> bool) (g h : A -> B) l :
  rmap (fun a => if c a then inr (g a) else inr (h a)) l
  = inr (map (fun a => if c a then g a else h a) l).
Proof.
  induction l as [|a l IH]; cbn; [reflexivity|].
  rewrite IH. now destruct (c a).
Qed.

(** [rmap] succeeds when every element does, element by element. *)
Lemma rmap_Forall2 {A B} (f : A -> res B) l l' :
  rmap f l = inr l' -> Forall2 (fun a b => f a = inr b) l l'.
Proof.
  revert l'. induction l as [|a l IH]; cbn; intros l' H.
  - inversion H. constructor.
  - destruct (f a) as [e|b] eqn:Hb; cbn in H; [discriminate|].
    destruct (rmap f l) as [e|bs]; cbn in H; [discriminate|].
    inversion H; subst. constructor; auto.
Qed.

Lemma filter_none {A} (l : list A) : filter (fun _ => false) l = [].
Proof. induction l; cbn; auto. Qed.

Lemma filter_all {A} (l : list A) : filter (fun _ => true) l = l.
Proof. induction l; cbn; congruence. Qed.

Lemma db_set_other d t v t' : t' <> t -> db_set d t v t' = d t'.
Proof.
  intros Ht. unfold db_set.
  destruct (String.eqb_spec t t'); [congruence|reflexivity].
Qed.

Lemma db_set_same d t v : db_set d t v t = Some v.
Proof. unfold db_set. now rewrite String.eqb_refl. Qed.

(** ** Rows stay well formed *)

Lemma build_cells_length clk s given :
  length (build_cells clk s given) = length (cols s).
Proof. unfold build_cells. apply length_map. Qed.

Lemma assign_rowid_length tb cs rid cs' g :
  assign_rowid tb cs = inr (rid, cs', g) -> length cs' = length cs.
Proof.
  unfold assign_rowid. destruct (pk (tschema tb)) as [|c ai|c].
  - inversion 1; subst. reflexivity.
  - destruct (col_index (tschema tb) c) as [i|]; [|discriminate].
    destruct (nth i cs Null); try discriminate; inversion 1; subst.
    + apply list_set_length.
    + reflexivity.
  - inversion 1; subst. reflexivity.
Qed.

Lemma check_notnull_length orr t clk ks :
  forall cs cs', check_notnull orr t clk ks cs = inr cs' ->
                 length cs' = length cs.
Proof.
  induction ks as [|k ks IH]; intros cs cs'; cbn.
  - inversion 1; subst. reflexivity.
  - destruct cs as [|v cs]; [inversion 1; subst; reflexivity|].
    unfold rbind.
    match goal with
    | |- match ?x with inl _ => _ | inr _ => _ end = _ -> _ =>
        destruct x as [e|v']; [discriminate|]
    end.
    destruct (check_notnull orr t clk ks cs) as [e|rest] eqn:Hr;
      [discriminate|].
    inversion 1; subst. cbn. f_equal. now apply IH.
Qed.

Lemma apply_sets_length asg cs : length (apply_sets asg cs) = length cs.
Proof.
  unfold apply_sets. revert cs.
  induction asg as [|a asg IH]; intros cs; cbn; [reflexivity|].
  rewrite IH. apply list_set_length.
Qed.

Lemma rekey_cells s asg r r' : rekey s asg r = inr r' -> cells r' = cells r.
Proof.
  unfold rekey. destruct (pk s) as [|c ai|c]; try (inversion 1; now subst).
  destruct (col_index s c) as [i|]; [|inversion 1; now subst].
  destruct (existsb _ asg); [|inversion 1; now subst].
  destruct (cell r i); try discriminate. inversion 1; now subst.
Qed.

Lemma get_table_some d t tb : get_table d t = inr tb -> d t = Some tb.
Proof. unfold get_table. destruct (d t); now inversion 1. Qed.


Lemma run_insert_rewrites d clk orr t cs vs ps d' rid :
  run_insert d clk orr t cs vs ps = inr (d', rid) -> rewrites d t d'.
Proof.
  unfold run_insert, rbind.
  destruct (get_table d t) as [e|tb] eqn:Ht; [discriminate|].
  apply get_table_some in Ht.
  destruct (rmap (resolve (tschema tb)) cs); [discriminate|].
  destruct (Nat.eqb _ _); [|discriminate].
  destruct (rmap (eval_expr ps clk) vs) as [e|vals]; [discriminate|].
  destruct (assign_rowid tb _) as [e|[[rid0 cells1] given]] eqn:Ha;
    [discriminate|].
  destruct (check_notnull _ _ _ _ _) as [e|cells2] eqn:Hn; [discriminate|].
  match goal with
  | |- match ?x with inl _ => _ | inr _ => _ end = _ -> _ =>
      destruct x; [discriminate|]
  end.
  inversion 1; subst. exists tb. eexists _, _.
  split; [exact Ht|]. split; [reflexivity|]. intros Hwf.
  apply Forall_app. split.
  - unfold well_formed in *.
    rewrite Forall_forall in *. intros r Hr. apply filter_In in Hr.
    now apply Hwf.
  - constructor; [|constructor]. cbn.
    apply check_notnull_length in Hn. apply assign_rowid_length in Ha.
    rewrite Hn, Ha. apply build_cells_length.
Qed.

Lemma run_update_rewrites d clk t sets w ps d' :
  run_update d clk t sets w ps = inr d' -> rewrites d t d'.
Proof.
  unfold run_update, rbind.
  destruct (get_table d t) as [e|tb] eqn:Ht; [discriminate|].
  apply get_table_some in Ht.
  destruct (rmap (resolve_set _ _ _) sets) as [e|asg]; [discriminate|].
  destruct (compile_cond _ _ _ _ _) as [e|p]; [discriminate|].
  match goal with
  | |- match ?x with inl _ => _ | inr _ => _ end = _ -> _ =>
      destruct x; [discriminate|]
  end.
  destruct (rmap _ (trows tb)) as [e|rows'] eqn:Hrows; [discriminate|].
  match goal with
  | |- match ?x with inl _ => _ | inr _ => _ end = _ -> _ =>
      destruct x; [discriminate|]
  end.
  inversion 1; subst. exists tb. eexists _, _.
  split; [exact Ht|]. split; [reflexivity|].
  apply rmap_Forall2 in Hrows. unfold well_formed.
  induction Hrows as [|r r' rs rs' Hr _ IH]; intros Hd; [constructor|].
  inversion Hd; subst. constructor; [|now apply IH].
  destruct (p r).
  - apply rekey_cells in Hr. rewrite Hr. cbn. now rewrite apply_sets_length.
  - inversion Hr; now subst.
Qed.

Lemma run_delete_rewrites d clk t w ps d' :
  run_delete d clk t w ps = inr d' -> rewrites d t d'.
Proof.
  unfold run_delete, rbind.
  destruct (get_table d t) as [e|tb] eqn:Ht; [discriminate|].
  apply get_table_some in Ht.
  destruct (compile_cond _ _ _ _ _) as [e|p]; [discriminate|].
  inversion 1; subst. exists tb. eexists _, _.
  split; [exact Ht|]. split; [reflexivity|].
  unfold well_formed. rewrite !Forall_forall. intros Hwf r Hr.
  apply filter_In in Hr. now apply Hwf.
Qed.


(** The effect of any statement on the tables. *)
Lemma sqlite_run_effect q ps d clk rs d' rid :
  sqlite_run q ps d clk = inr (rs, d', rid) ->
  d' = d
  \/ (exists t, target q = Some t /\ rewrites d t d')
  \/ (exists t s, q = CREATE_TABLE_IF_NOT_EXISTS t s /\ d t = None
                  /\ d' = db_set d t (Table s [] 0)).
Proof.
  unfold sqlite_run. destruct (negb _); [discriminate|].
  destruct q as [p t w ob lim|orr t cs vs|t sets w|t w|t s]; unfold rbind.
  - destruct (run_select _ _ _ _ _ _ _ _); [discriminate|].
    inversion 1; subst. now left.
  - destruct (run_insert _ _ _ _ _ _ _) as [e|[d1 r1]] eqn:Hr; [discriminate|].
    inversion 1; subst. right; left. exists t. split; [reflexivity|].
    eapply run_insert_rewrites; eauto.
  - destruct (run_update _ _ _ _ _ _) as [e|d1] eqn:Hr; [discriminate|].
    inversion 1; subst. right; left. exists t. split; [reflexivity|].
    eapply run_update_rewrites; eauto.
  - destruct (run_delete _ _ _ _ _) as [e|d1] eqn:Hr; [discriminate|].
    inversion 1; subst. right; left. exists t. split; [reflexivity|].
    eapply run_delete_rewrites; eauto.
  - destruct (d t) eqn:Ht; inversion 1; subst; [now left|].
    right; right. now exists t, s.
Qed.

Lemma wf_db_set d t tb :
  wf_db d -> well_formed (tschema tb) (trows tb) -> wf_db (db_set d t tb).
Proof.
  intros Hd Htb t' tb' H. unfold db_set in H.
  destruct (String.eqb t t'); [inversion H; now subst|eauto].
Qed.

(** Every statement leaves the rows of every table well formed. *)
Theorem sqlite_run_wf q ps d clk rs d' rid :
  wf_db d -> sqlite_run q ps d clk = inr (rs, d', rid) -> wf_db d'.
Proof.
  intros Hd Hrun.
  destruct (sqlite_run_effect _ _ _ _ Hrun)
    as [->|[(t & _ & tb & rows' & seq' & Ht & -> & Hwf)
           |(t & s & _ & _ & ->)]].
  - exact Hd.
  - apply wf_db_set; [exact Hd|]. cbn. apply Hwf. exact (Hd _ _ Ht).
  - apply wf_db_set; [exact Hd|constructor].
Qed.

(** A table that exists keeps its schema through every statement. *)
Theorem sqlite_run_keeps_schema q ps d clk rs d' rid t0 tb0 :
  d t0 = Some tb0 ->
  sqlite_run q ps d clk = inr (rs, d', rid) ->
  exists tb1, d' t0 = Some tb1 /\ tschema tb1 = tschema tb0.
Proof.
  intros H0 Hrun.
  destruct (sqlite_run_effect _ _ _ _ Hrun)
    as [->|[(t & _ & tb & rows' & seq' & Ht & -> & _)
           |(t & s & _ & Hnone & ->)]].
  - now exists tb0.
  - unfold db_set. destruct (String.eqb_spec t t0) as [->|_].
    + eexists. split; [reflexivity|]. cbn. congruence.
    + now exists tb0.
  - unfold db_set. destruct (String.eqb_spec t t0) as [->|_]; [congruence|].
    now exists tb0.
Qed.

End SqlFacts.

(* ================================================================== *)
(** * Properties of the text functions *)
(* ================================================================== *)

Module PyStrFacts.

Import PyStr.

Local Open Scope N_scope.

(** ** The derivative matcher decides membership *)

Lemma lang_empty_inv s : ~ lang Empty s.
Proof. inversion 1. Qed.

Lemma lang_eps_inv s : lang Eps s -> s = [].
Proof. now inversion 1. Qed.

Lemma lang_class_inv neg rs s :
  lang (Class neg rs) s -> exists c, s = [c] /\ in_class neg rs c = true.
Proof. inversion 1; subst. eauto. Qed.

Lemma lang_cat_inv r1 r2 s :
  lang (Cat r1 r2) s -> exists s1 s2, s = s1 ++ s2 /\ lang r1 s1 /\ lang r2 s2.
Proof. inversion 1; subst. eauto. Qed.

Lemma lang_alt_inv r1 r2 s : lang (Alt r1 r2) s -> lang r1 s \/ lang r2 s.
Proof. inversion 1; subst; auto. Qed.

Lemma nullable_lang r : nullable r = true <-> lang r [].
Proof.
  induction r as [| |neg rs|r1 IH1 r2 IH2|r1 IH1 r2 IH2|r IH]; cbn.
  - split; [discriminate|intros H; now apply lang_empty_inv in H].
  - split; [constructor|reflexivity].
  - split; [discriminate|].
    intros H. apply lang_class_inv in H. destruct H as (c & Hc & _).
    discriminate.
  - rewrite andb_true_iff, IH1, IH2. split.
    + intros [H1 H2]. exact (lang_cat H1 H2).
    + intros H. apply lang_cat_inv in H.
      destruct H as (s1 & s2 & Heq & H1 & H2). symmetry in Heq.
      apply app_eq_nil in Heq. destruct Heq; subst. now split.
  - rewrite orb_true_iff, IH1, IH2. split.
    + intros [H|H]; [now apply lang_alt_l|now apply lang_alt_r].
    + apply lang_alt_inv.
  - split; [constructor|reflexivity].
Qed.

(** A non-empty word of [Star r] starts with a non-empty word of [r]. *)
Lemma lang_star_uncons r w :
  lang (Star r) w ->
  forall c s, w = c :: s ->
  exists s1 s2, s = s1 ++ s2 /\ lang r (c :: s1) /\ lang (Star r) s2.
Proof.
  intros H. remember (Star r) as r' eqn:Hr.
  induction H as [| | | | | |r0 s1 s2 H1 _ H2 IH2]; try discriminate.
  inversion Hr; subst r0. intros c s Heq.
  destruct s1 as [|c1 s1]; cbn in Heq.
  - now apply IH2.
  - inversion Heq; subst. now exists s1, s2.
Qed.

Lemma deriv_lang c r : forall s, lang (deriv c r) s <-> lang r (c :: s).
Proof.
  induction r as [| |neg rs|r1 IH1 r2 IH2|r1 IH1 r2 IH2|r IH]; intros s; cbn.
  - split; intros H; now apply lang_empty_inv in H.
  - split; intros H; [now apply lang_empty_inv in H|].
    apply lang_eps_inv in H. discriminate.
  - destruct (in_class neg rs c) eqn:Hc; split; intros H.
    + apply lang_eps_inv in H. subst. now constructor.
    + apply lang_class_inv in H. destruct H as (c' & Heq & _).
      inversion Heq; subst. constructor.
    + now apply lang_empty_inv in H.
    + apply lang_class_inv in H. destruct H as (c' & Heq & Hc').
      inversion Heq; subst. congruence.
  - assert (Hcat : forall s, lang (Cat (deriv c r1) r2) s ->
                             lang (Cat r1 r2) (c :: s)).
    { intros s0 H. apply lang_cat_inv in H.
      destruct H as (s1 & s2 & -> & H1 & H2).
      apply IH1 in H1. exact (lang_cat H1 H2). }
    assert (Hsplit : forall s, lang (Cat r1 r2) (c :: s) ->
              lang (Cat (deriv c r1) r2) s
              \/ (lang r1 [] /\ lang r2 (c :: s))).
    { intros s0 H. apply lang_cat_inv in H.
      destruct H as (s1 & s2 & Heq & H1 & H2).
      destruct s1 as [|c1 s1]; cbn in Heq.
      - subst. right. now split.
      - inversion Heq; subst. left. apply lang_cat; [now apply IH1|exact H2]. }
    destruct (nullable r1) eqn:Hn; split; intros H.
    + apply lang_alt_inv in H. destruct H as [H|H]; [now apply Hcat|].
      apply nullable_lang in Hn. apply IH2 in H.
      exact (lang_cat (s1 := []) Hn H).
    + destruct (Hsplit _ H) as [H'|[_ H']].
      * now apply lang_alt_l.
      * apply lang_alt_r. now apply IH2.
    + now apply Hcat.
    + destruct (Hsplit _ H) as [H'|[H' _]]; [exact H'|].
      apply nullable_lang in H'. congruence.
  - split; intros H; apply lang_alt_inv in H; destruct H as [H|H];
      (apply lang_alt_l; now apply IH1) || (apply lang_alt_r; now apply IH2).
  - split; intros H.
    + apply lang_cat_inv in H. destruct H as (s1 & s2 & -> & H1 & H2).
      apply IH in H1. exact (lang_star_cons H1 H2).
    + destruct (lang_star_uncons H eq_refl) as (s1 & s2 & -> & H1 & H2).
      apply lang_cat; [now apply IH|exact H2].
Qed.

Theorem matches_lang r s : matches r s = true <-> lang r s.
Proof.
  revert r. induction s as [|c s IH]; intros r; cbn.
  - apply nullable_lang.
  - rewrite IH. apply deriv_lang.
Qed.

(** ** The two patterns *)

Lemma lang_star_class neg rs s :
  lang (Star (Class neg rs)) s <-> Forall (fun c => in_class neg rs c = true) s.
Proof.
  split.
  - intros H. remember (Star (Class neg rs)) as r eqn:Hr.
    induction H as [| | | | | |r0 s1 s2 H1 _ H2 IH2]; try discriminate.
    + constructor.
    + inversion Hr; subst r0. apply lang_class_inv in H1.
      destruct H1 as (c & -> & Hc). cbn. constructor; auto.
  - induction 1 as [|c s Hc _ IH]; [constructor|].
    exact (lang_star_cons (lang_class neg rs c Hc) IH).
Qed.

Lemma lang_plus_class neg rs s :
  lang (Plus (Class neg rs)) s <->
  s <> [] /\ Forall (fun c => in_class neg rs c = true) s.
Proof.
  unfold Plus. split.
  - intros H. apply lang_cat_inv in H. destruct H as (s1 & s2 & -> & H1 & H2).
    apply lang_class_inv in H1. destruct H1 as (c & -> & Hc).
    apply lang_star_class in H2. cbn. split; [discriminate|now constructor].
  - intros [Hne H]. destruct H as [|c s Hc Hs]; [congruence|].
    apply (lang_cat (s1 := [c])); [now constructor|now apply lang_star_class].
Qed.

(** Membership in a one-range class, by cases on the two comparisons. *)
Ltac class_bounds :=
  unfold in_class; cbn [existsb fst snd];
  repeat match goal with
         | |- context [N.leb ?a ?b] => destruct (N.leb_spec a b)
         end;
  cbn; split; intros; try discriminate; try reflexivity; try lia.

Lemma in_class_not_at c :
  in_class true [(at_sign, at_sign)] c = true <-> c <> at_sign.
Proof. unfold at_sign. class_bounds. Qed.

Lemma in_class_chr x c : in_class false [(x, x)] c = true <-> c = x.
Proof. class_bounds. Qed.

Lemma in_class_digit c : in_class false [(48, 57)] c = true <-> is_digit c.
Proof. unfold is_digit. class_bounds. Qed.

Lemma lang_chr x s : lang (Chr x) s <-> s = [x].
Proof.
  unfold Chr. split.
  - intros H. apply lang_class_inv in H. destruct H as (c & -> & Hc).
    apply in_class_chr in Hc. now subst.
  - intros ->. constructor. now apply in_class_chr.
Qed.

Lemma lang_not_at_plus s :
  lang (Plus (Class true [(at_sign, at_sign)])) s <-> s <> [] /\ no_at s.
Proof.
  rewrite lang_plus_class. unfold no_at. rewrite !Forall_forall.
  split; intros [Hne H]; (split; [exact Hne|]); intros c Hc;
    apply in_class_not_at; auto.
Qed.

(** The words of the e-mail pattern are the well-formed addresses. *)
Theorem email_re_lang s : lang email_re s <-> email_shape s.
Proof.
  unfold email_re, email_shape. cbv zeta. split.
  - intros H.
    apply lang_cat_inv in H. destruct H as (a & s1 & -> & Ha & H).
    apply lang_cat_inv in H. destruct H as (x & s2 & -> & Hx & H).
    apply lang_cat_inv in H. destruct H as (b & s3 & -> & Hb & H).
    apply lang_cat_inv in H. destruct H as (y & c & -> & Hy & Hc).
    apply lang_chr in Hx, Hy. subst x y.
    apply lang_not_at_plus in Ha, Hb, Hc.
    exists a, b, c. cbn. tauto.
  - intros (a & b & c & -> & Ha & Hb & Hc & Na & Nb & Nc).
    apply lang_cat; [now apply lang_not_at_plus|].
    apply (lang_cat (s1 := [at_sign])); [now apply lang_chr|].
    apply lang_cat; [now apply lang_not_at_plus|].
    apply (lang_cat (s1 := [full_stop])); [now apply lang_chr|].
    now apply lang_not_at_plus.
Qed.

Lemma lang_rep_class neg rs n s :
  lang (Rep n (Class neg rs)) s <->
  length s = n /\ Forall (fun c => in_class neg rs c = true) s.
Proof.
  revert s. induction n as [|n IH]; intros s; cbn.
  - split.
    + intros H. apply lang_eps_inv in H. subst. now split.
    + intros [Hl _]. destruct s; [constructor|discriminate].
  - split.
    + intros H. apply lang_cat_inv in H. destruct H as (s1 & s2 & -> & H1 & H2).
      apply lang_class_inv in H1. destruct H1 as (c & -> & Hc).
      apply IH in H2. destruct H2 as [Hl Hf]. cbn.
      split; [now rewrite Hl|now constructor].
    + intros [Hl Hf]. destruct Hf as [|c s Hc Hs]; [discriminate|].
      cbn in Hl. apply (lang_cat (s1 := [c])); [now constructor|].
      apply IH. split; [congruence|assumption].
Qed.

(** The words of the identity-number pattern are the texts of exactly
    thirteen decimal digits. *)
Theorem dni_re_lang s : lang dni_re s <-> thirteen_digits s.
Proof.
  unfold dni_re, thirteen_digits. rewrite lang_rep_class.
  rewrite !Forall_forall. split; intros [Hl H]; (split; [exact Hl|]);
    intros c Hc; apply in_class_digit; auto.
Qed.

(** ** Stripped text *)

Lemma lstrip_head s c t : lstrip s = c :: t -> isspace c = false.
Proof.
  induction s as [|x s IH]; cbn; [discriminate|].
  destruct (isspace x) eqn:Hx; [exact IH|].
  intros Heq. inversion Heq; subst. exact Hx.
Qed.

(** After [strip] the text does not end in a newline, so [$] can only
    hold at the very end. *)
Lemma re_match_strip r s : re_match r (strip s) = matches r (strip s).
Proof.
  unfold re_match, strip, rstrip. rewrite rev_involutive.
  destruct (lstrip (rev (lstrip s))) as [|c t] eqn:Hs;
    [now rewrite orb_false_r|].
  apply lstrip_head in Hs.
  destruct (N.eqb_spec c newline) as [->|_];
    [discriminate Hs|now rewrite orb_false_r].
Qed.

Lemma re_match_email s :
  re_match email_re (strip s) = true <-> email_shape (strip s).
Proof. now rewrite re_match_strip, matches_lang, email_re_lang. Qed.

Lemma re_match_dni s :
  re_match dni_re (strip s) = true <-> thirteen_digits (strip s).
Proof. now rewrite re_match_strip, matches_lang, dni_re_lang. Qed.

(** An address without [@] is not well formed. *)
Lemma email_shape_has_at s : email_shape s -> In at_sign s.
Proof.
  intros (a & b & c & -> & _). apply in_or_app. right. now left.
Qed.

End PyStrFacts.

(* ================================================================== *)
(** * Properties of the persistence gateway *)
(* ================================================================== *)

Module GatewayFacts.

Import Sql SqlFacts Py Gateway.

Local Open Scope py_scope.

(** ** Driver errors at the gateway boundary *)

Section AnyDriver.

Context {C : Type}.
Variable drv : driver C.

(** Whatever the driver does, [fetch] does not raise an instance of
    [sqlite3.Error]. *)
Lemma fetch_never_raises_sqlite3 q ps (w : world C) e :
  fst (fetch drv q ps w) <> Raise (Sqlite3 e).
Proof.
  unfold fetch, try_except_sqlite3, bind, self_cursor_execute,
    self_cursor_fetchall, print, ret.
  destruct (cursor_execute drv q ps (self_conn w)) as [[[]|[e1|m|m|c m]] c1];
    cbn; try discriminate.
  destruct (cursor_fetchall drv c1) as [[rs|[e2|m|m|c m]] c2];
    cbn; discriminate.
Qed.

(** A driver error raised by [cursor.execute] inside [fetch] is printed
    and turned into the empty list. *)
Lemma fetch_swallows q ps (w : world C) e c' :
  cursor_execute drv q ps (self_conn w) = (Raise (Sqlite3 e), c') ->
  fetch drv q ps w
  = (Ret [],
     World c' (stdout w ++ ["Error en consulta: " +++ str_of_error e])
           (wallclock w)).
Proof.
  intros H. unfold fetch, try_except_sqlite3, bind, self_cursor_execute, print.
  now rewrite H.
Qed.

(** Whatever the driver does, [execute] does not raise an instance of
    [sqlite3.Error]. *)
Lemma execute_never_raises_sqlite3 q ps (w : world C) e :
  fst (execute drv q ps w) <> Raise (Sqlite3 e).
Proof.
  unfold execute, try_except_sqlite3, bind, self_cursor_execute,
    self_conn_commit, self_cursor_lastrowid, print, ret.
  destruct (cursor_execute drv q ps (self_conn w)) as [[[]|[e1|m|m|c m]] c1];
    cbn; try discriminate.
  destruct (conn_commit drv c1) as [[[]|[e2|m|m|c m]] c2];
    cbn; discriminate.
Qed.

(** A driver error raised by [cursor.execute] inside [execute] is printed
    and turned into [None]. *)
Lemma execute_swallows q ps (w : world C) e c' :
  cursor_execute drv q ps (self_conn w) = (Raise (Sqlite3 e), c') ->
  execute drv q ps w
  = (Ret None,
     World c' (stdout w ++ ["Error en operación: " +++ str_of_error e])
           (wallclock w)).
Proof.
  intros H. unfold execute, try_except_sqlite3, bind, self_cursor_execute, print.
  now rewrite H.
Qed.

(** [get_config] guards the result of [fetch]: when the driver fails on
    its query the default comes back. *)
Lemma get_config_read_failure k dflt (w : world C) e c' :
  cursor_execute drv select_valor [Text k] (self_conn w)
  = (Raise (Sqlite3 e), c') ->
  get_config drv k dflt w
  = (Ret dflt,
     World c' (stdout w ++ ["Error en consulta: " +++ str_of_error e])
           (wallclock w)).
Proof.
  intros H. unfold get_config, bind.
  now rewrite (fetch_swallows _ _ _ H).
Qed.

(** [registrar_movimiento_inventario] does not: when the driver fails on
    the stock query it indexes the empty list [fetch] returned, so the
    call raises [IndexError], and writes nothing. *)
Lemma registrar_read_failure pid tipo q motivo ref uid (w : world C) e c' :
  cursor_execute drv select_stock [Int pid] (self_conn w)
  = (Raise (Sqlite3 e), c') ->
  registrar_movimiento_inventario drv pid tipo q motivo ref uid w
  = (Raise (IndexError "list index out of range"),
     World c' (stdout w ++ ["Error en consulta: " +++ str_of_error e])
           (wallclock w)).
Proof.
  intros H. unfold registrar_movimiento_inventario, bind.
  now rewrite (fetch_swallows _ _ _ H).
Qed.

End AnyDriver.

(** C4 fails in [registrar_movimiento_inventario].  With the database
    locked, recording an incoming movement of 5 units of product 2 raises
    [IndexError] to the caller; [fetch] has printed the driver error and
    returned the empty list, and neither the stock nor the audit table is
    written. *)
Theorem registrar_movimiento_inventario_escapes :
  let out := registrar_movimiento_inventario (with_faults locked sqlite)
               2 "entrada" 5 "compra" Null Null seeded in
  fst out = Raise (IndexError "list index out of range")
  /\ stdout (snd out) = ["Error en consulta: database is locked"]
  /\ tables (self_conn (snd out)) "Productos"
     = tables (self_conn seeded) "Productos"
  /\ tables (self_conn (snd out)) "MovimientosInventario"
     = tables (self_conn seeded) "MovimientosInventario".
Proof. vm_compute. repeat split; reflexivity. Qed.

(** ** The gateway over the in-memory driver *)

(** [fetch] in terms of the statement semantics. *)
Lemma fetch_sqlite q ps (w : world conn) :
  fetch sqlite q ps w =
  let c := self_conn w in
  match sqlite_run q ps (tables c) (clock c) with
  | inl e =>
      (Ret [], World c (stdout w ++ ["Error en consulta: " +++ str_of_error e])
                     (wallclock w))
  | inr (rs, d, rid) =>
      (Ret rs,
       World (Conn d match rid with Some r => Some r | None => lastrowid c end
                   [] (clock c))
             (stdout w) (wallclock w))
  end.
Proof.
  unfold fetch, try_except_sqlite3, bind, self_cursor_execute,
    self_cursor_fetchall, print. cbn.
  destruct (sqlite_run q ps _ _) as [e|[[rs d] [rid|]]]; reflexivity.
Qed.

(** [execute] in terms of the statement semantics. *)
Lemma execute_sqlite q ps (w : world conn) :
  execute sqlite q ps w =
  let c := self_conn w in
  match sqlite_run q ps (tables c) (clock c) with
  | inl e =>
      (Ret None,
       World c (stdout w ++ ["Error en operación: " +++ str_of_error e])
             (wallclock w))
  | inr (rs, d, rid) =>
      let last := match rid with Some r => Some r | None => lastrowid c end in
      (Ret last, World (Conn d last rs (clock c)) (stdout w) (wallclock w))
  end.
Proof.
  unfold execute, try_except_sqlite3, bind, self_cursor_execute,
    self_conn_commit, self_cursor_lastrowid, print. cbn.
  destruct (sqlite_run q ps _ _) as [e|[[rs d] [rid|]]]; reflexivity.
Qed.

(** With parameters it can bind, the [sqlite3] module is the SQLite
    behind it. *)
Lemma fetch_sqlite3 q ps (w : world conn) :
  forallb bindable ps = true -> fetch sqlite3 q ps w = fetch sqlite q ps w.
Proof.
  intros H. unfold fetch, try_except_sqlite3, bind, self_cursor_execute,
    self_cursor_fetchall. cbn. now rewrite H.
Qed.

Lemma execute_sqlite3 q ps (w : world conn) :
  forallb bindable ps = true -> execute sqlite3 q ps w = execute sqlite q ps w.
Proof.
  intros H. unfold execute, try_except_sqlite3, bind, self_cursor_execute,
    self_conn_commit, self_cursor_lastrowid. cbn. now rewrite H.
Qed.

(** ** What the gateway keeps *)

Lemma select_all_run d clk t tb :
  d t = Some tb ->
  sqlite_run (select_all t) [] d clk = inr (map cells (trows tb), d, None).
Proof.
  intros H. unfold sqlite_run, select_all, run_select, get_table.
  cbn. rewrite H. cbn. now rewrite filter_all.
Qed.

(** A SELECT leaves the tables as they are. *)
Lemma select_keeps_tables p t w ob lim ps d clk rs d' rid :
  sqlite_run (SELECT p t w ob lim) ps d clk = inr (rs, d', rid) -> d' = d.
Proof.
  unfold sqlite_run. destruct (negb _); [discriminate|].
  destruct (run_select _ _ _ _ _ _ _ _); cbn; [discriminate|].
  now inversion 1.
Qed.

(** An INSERT changes no table but its own. *)
Lemma run_insert_others d clk orr t cs vs ps d' rid t' :
  run_insert d clk orr t cs vs ps = inr (d', rid) ->
  t <> t' -> d' t' = d t'.
Proof.
  unfold run_insert, rbind.
  destruct (get_table d t) as [e|tb0]; [discriminate|].
  destruct (rmap (resolve (tschema tb0)) cs); [discriminate|].
  destruct (Nat.eqb _ _); [|discriminate].
  destruct (rmap (eval_expr ps clk) vs); [discriminate|].
  destruct (assign_rowid tb0 _) as [e|[[rid0 cells1] given]]; [discriminate|].
  destruct (check_notnull _ _ _ _ _); [discriminate|].
  match goal with
  | |- match ?x with inl _ => _ | inr _ => _ end = _ -> _ =>
      destruct x; [discriminate|]
  end.
  intros H Ht. inversion H; subst. unfold db_set.
  destruct (String.eqb_spec t t'); [congruence|reflexivity].
Qed.

Lemma insert_keeps_others orr t cs vs ps d clk rs d' rid t' :
  sqlite_run (INSERT orr t cs vs) ps d clk = inr (rs, d', rid) ->
  t <> t' -> d' t' = d t'.
Proof.
  unfold sqlite_run. destruct (negb _); [discriminate|].
  destruct (run_insert d clk orr t cs vs ps) as [e|[d1 rid1]] eqn:Hrun;
    cbn; [discriminate|].
  intros H Ht. inversion H; subst. eapply run_insert_others; eauto.
Qed.

Section Keeping.

Variable P : db -> Prop.

Lemma keeps_ret {A} (a : A) : keeps P (ret a).
Proof. now intros w. Qed.

Lemma keeps_bind {A B} (m : M conn A) (k : A -> M conn B) :
  keeps P m -> (forall a, keeps P (k a)) -> keeps P (bind m k).
Proof.
  intros Hm Hk w Hw. unfold bind. specialize (Hm w Hw).
  destruct (m w) as [[a|e] w1]; cbn in *; [now apply Hk|exact Hm].
Qed.

Lemma keeps_getitem {A} what (l : list A) i : keeps P (getitem what l i).
Proof. unfold getitem. destruct (nth_error l i); now intros w. Qed.

Lemma keeps_lift_result {A} (r : result A) : keeps P (lift_result r).
Proof. now intros w. Qed.

Lemma keeps_datetime_now : keeps P datetime_now.
Proof. now intros w. Qed.

Lemma keeps_commit : keeps P (self_conn_commit sqlite).
Proof. now intros w. Qed.

Lemma keeps_for_each {A} (l : list A) body :
  (forall a, keeps P (body a)) -> keeps P (for_each l body).
Proof.
  intros Hb. induction l as [|a l IH]; cbn [for_each].
  - apply keeps_ret.
  - apply keeps_bind; [apply Hb|intros _; exact IH].
Qed.

Lemma keeps_fetch_select p t' c ob lim ps :
  keeps P (fetch sqlite (SELECT p t' c ob lim) ps).
Proof.
  intros w Hw. rewrite fetch_sqlite. cbv zeta.
  destruct (sqlite_run _ _ _ _) as [e|[[rs d] rid]] eqn:Hrun; cbn; [exact Hw|].
  apply select_keeps_tables in Hrun. subst d. exact Hw.
Qed.

(** When every statement keeps [P], the gateway does. *)
Hypothesis statements_keep :
  forall q ps d clk rs d' rid,
    P d -> sqlite_run q ps d clk = inr (rs, d', rid) -> P d'.

Lemma keeps_fetch q ps : keeps P (fetch sqlite q ps).
Proof.
  intros w Hw. rewrite fetch_sqlite. cbv zeta.
  destruct (sqlite_run _ _ _ _) as [e|[[rs d] rid]] eqn:Hrun; cbn; eauto.
Qed.

Lemma keeps_execute q ps : keeps P (execute sqlite q ps).
Proof.
  intros w Hw. rewrite execute_sqlite. cbv zeta.
  destruct (sqlite_run _ _ _ _) as [e|[[rs d] rid]] eqn:Hrun; cbn; eauto.
Qed.

Lemma keeps_cursor_execute q ps : keeps P (self_cursor_execute sqlite q ps).
Proof.
  intros w Hw. unfold self_cursor_execute. cbn.
  destruct (sqlite_run _ _ _ _) as [e|[[rs d] [rid|]]] eqn:Hrun; cbn; eauto.
Qed.

Lemma keeps_create_tables : keeps P (create_tables sqlite).
Proof.
  unfold create_tables. apply keeps_bind; [|intros _; apply keeps_commit].
  apply keeps_for_each. intros ts. apply keeps_cursor_execute.
Qed.

Lemma keeps_get_config k dflt : keeps P (get_config sqlite k dflt).
Proof.
  unfold get_config. apply keeps_bind; [apply keeps_fetch|intros rows].
  destruct (truthy rows); [|apply keeps_ret].
  apply keeps_bind; [apply keeps_getitem|intros r; apply keeps_getitem].
Qed.

Lemma keeps_set_config k v : keeps P (set_config sqlite k v).
Proof.
  unfold set_config.
  apply keeps_bind; [apply keeps_execute|intros _; apply keeps_ret].
Qed.

Lemma keeps_registrar pid tipo q motivo ref uid :
  keeps P (registrar_movimiento_inventario sqlite pid tipo q motivo ref uid).
Proof.
  unfold registrar_movimiento_inventario.
  apply keeps_bind; [apply keeps_fetch|intros rows].
  apply keeps_bind; [apply keeps_getitem|intros r0].
  apply keeps_bind; [apply keeps_getitem|intros stock].
  apply keeps_bind.
  { destruct (String.eqb tipo "entrada"); [apply keeps_lift_result|].
    destruct (String.eqb tipo "salida");
      [apply keeps_lift_result|apply keeps_ret]. }
  intros nuevo.
  apply keeps_bind; [apply keeps_execute|intros _].
  apply keeps_bind; [apply keeps_execute|intros _]. apply keeps_ret.
Qed.

Lemma keeps_if_empty_any t' body :
  keeps P body -> keeps P (if_empty sqlite t' body).
Proof.
  intros Hb. unfold if_empty.
  apply keeps_bind; [apply keeps_fetch|intros rows].
  destruct (negb (truthy rows)); [exact Hb|apply keeps_ret].
Qed.

Lemma keeps_execute_each_any q data : keeps P (execute_each sqlite q data).
Proof.
  apply keeps_for_each. intros ps.
  apply keeps_bind; [apply keeps_execute|intros; apply keeps_ret].
Qed.

Lemma keeps_insert_initial_data tpl : keeps P (insert_initial_data sqlite tpl).
Proof.
  unfold insert_initial_data.
  repeat (apply keeps_bind; [|intros _]);
    try apply keeps_commit;
    apply keeps_if_empty_any;
    repeat first
      [ apply keeps_execute_each_any
      | apply keeps_datetime_now
      | apply keeps_getitem
      | apply keeps_fetch
      | apply keeps_bind; [|intros ?] ].
Qed.

End Keeping.

Section Stability.

(** A table [t] that holds [tb]. *)
Variable t : string.
Variable tb : table.

Lemma stable_execute_insert orr t' cs vs ps :
  t' <> t -> keeps (holds t tb) (execute sqlite (INSERT orr t' cs vs) ps).
Proof.
  intros Ht w Hw. rewrite execute_sqlite. cbv zeta.
  destruct (sqlite_run _ _ _ _) as [e|[[rs d] rid]] eqn:Hrun; cbn; [exact Hw|].
  unfold holds. erewrite insert_keeps_others; eauto.
Qed.

Lemma stable_execute_each t' cs data :
  t' <> t -> keeps (holds t tb) (execute_each sqlite (insert_into t' cs) data).
Proof.
  intros Ht. apply keeps_for_each. intros ps.
  apply keeps_bind; [now apply stable_execute_insert|intros; apply keeps_ret].
Qed.

Hypothesis not_empty : trows tb <> [].

(** A seeding block is skipped when its table is [t], which has rows,
    and otherwise runs a body that writes elsewhere. *)
Lemma stable_if_empty t' body :
  (t' <> t -> keeps (holds t tb) body) ->
  keeps (holds t tb) (if_empty sqlite t' body).
Proof.
  intros Hb w Hw. unfold if_empty, bind.
  destruct (String.eqb_spec t' t) as [->|Hne].
  - rewrite fetch_sqlite. cbv zeta.
    rewrite (select_all_run _ _ _ Hw). cbn.
    destruct (trows tb) as [|r rs]; [congruence|]. cbn. exact Hw.
  - pose proof (@keeps_fetch_select (holds t tb) PStar t' CTrue [] None [] w Hw)
      as Hf.
    fold (select_all t') in Hf.
    destruct (fetch sqlite (select_all t') [] w) as [[rows|e] w1];
      cbn in *; [|exact Hf].
    destruct (negb (truthy rows)); [now apply Hb|exact Hf].
Qed.

Lemma stable_insert_initial_data tpl :
  keeps (holds t tb) (insert_initial_data sqlite tpl).
Proof.
  unfold insert_initial_data.
  repeat (apply keeps_bind; [|intros _]);
    try apply keeps_commit;
    apply stable_if_empty; intros Hne;
    repeat first
      [ now apply stable_execute_each
      | apply keeps_datetime_now
      | apply keeps_getitem
      | apply keeps_fetch_select
      | apply keeps_bind; [|intros ?] ].
Qed.

End Stability.

(** ** The database stays initialised *)

Lemma initialised_statements q ps d clk rs d' rid :
  initialised d -> sqlite_run q ps d clk = inr (rs, d', rid) -> initialised d'.
Proof.
  intros [Hd Hwf] Hrun. split.
  - intros t s Hin. destruct (Hd t s Hin) as (tb & Ht & Hs).
    destruct (sqlite_run_keeps_schema _ _ _ _ _ Ht Hrun) as (tb1 & Ht1 & Hs1).
    exists tb1. split; [exact Ht1|congruence].
  - eapply sqlite_run_wf; eauto.
Qed.

Lemma wf_db_statements q ps d clk rs d' rid :
  wf_db d -> sqlite_run q ps d clk = inr (rs, d', rid) -> wf_db d'.
Proof. apply sqlite_run_wf. Qed.

Lemma create_tables_declares clk wall :
  declared (tables (self_conn (snd (create_tables sqlite (fresh_world clk wall))))).
Proof.
  intros t s Hin. cbn in Hin.
  repeat (destruct Hin as [Hin|Hin];
          [inversion Hin; subst; eexists; split; vm_compute; reflexivity|]).
  destruct Hin.
Qed.

(** [DBManager()] on a new database file leaves it initialised, and
    every later call of the gateway keeps it so. *)
Theorem database_stays_initialised :
  (forall tpl clk wall,
     initialised (tables (self_conn (snd (init sqlite tpl
                                            (fresh_world clk wall))))))
  /\ (forall q ps, keeps initialised (fetch sqlite q ps))
  /\ (forall q ps, keeps initialised (execute sqlite q ps))
  /\ (forall k dflt, keeps initialised (get_config sqlite k dflt))
  /\ (forall k v, keeps initialised (set_config sqlite k v))
  /\ (forall pid tipo q motivo ref uid,
        keeps initialised
          (registrar_movimiento_inventario sqlite pid tipo q motivo ref uid))
  /\ (forall tpl, keeps initialised (insert_initial_data sqlite tpl)).
Proof.
  split; [|split; [|split; [|split; [|split; [|split]]]]].
  - intros tpl clk wall. unfold init, bind.
    pose proof (create_tables_declares clk wall) as Hd.
    pose proof (@keeps_create_tables wf_db wf_db_statements
                  (fresh_world clk wall)) as Hwf.
    destruct (create_tables sqlite (fresh_world clk wall)) as [[[]|e] w1];
      cbn [snd] in *.
    + apply (@keeps_insert_initial_data initialised initialised_statements).
      split; [exact Hd|]. apply Hwf. intros t tb H. discriminate H.
    + split; [exact Hd|]. apply Hwf. intros t tb H. discriminate H.
  - intros. apply keeps_fetch. exact initialised_statements.
  - intros. apply keeps_execute. exact initialised_statements.
  - intros. apply keeps_get_config. exact initialised_statements.
  - intros. apply keeps_set_config. exact initialised_statements.
  - intros. apply keeps_registrar. exact initialised_statements.
  - intros. apply keeps_insert_initial_data. exact initialised_statements.
Qed.

Lemma initialised_table d t s :
  initialised d -> In (t, s) declared_tables ->
  exists rows seq,
    d t = Some (Table s rows seq) /\ well_formed s rows /\ rows_of d t = rows.
Proof.
  intros [Hd Hwf] Hin. destruct (Hd t s Hin) as ([s' rows seq] & Ht & Hs).
  cbn in Hs. subst s'. exists rows, seq. split; [exact Ht|].
  split; [exact (Hwf _ _ Ht)|]. unfold rows_of. now rewrite Ht.
Qed.

(** Membership in [declared_tables], by search. *)
Ltac is_declared := cbn; repeat first [left; reflexivity | right].

Lemma seeded_initialised : initialised (tables (self_conn seeded)).
Proof. exact (proj1 database_stays_initialised _ _ _). Qed.

(** ** Settings *)


Lemma clave_is_true k r : clave_is k r = true <-> cell r 0 = Text k.
Proof.
  unfold clave_is. destruct (cell r 0) as [|z|q|s]; cbn;
    try (split; [discriminate|congruence]).
  rewrite String.eqb_eq. split; congruence.
Qed.

Lemma select_valor_run d clk k rows seq :
  d "Configuracion" = Some (Table Configuracion_schema rows seq) ->
  sqlite_run select_valor [Text k] d clk
  = inr (map (fun r => [cell r 1]) (filter (clave_is k) rows), d, None).
Proof.
  intros H. unfold sqlite_run, select_valor, run_select, get_table.
  cbn. rewrite H. reflexivity.
Qed.


Lemma upsert_config_run d clk k v rows seq :
  d "Configuracion" = Some (Table Configuracion_schema rows seq) ->
  sqlite_run upsert_config [Text k; Text v] d clk
  = inr ([],
         db_set d "Configuracion"
           (Table Configuracion_schema
              (filter (fun r => negb (clave_is k r)) rows
               ++ [setting_row (max_rowid rows + 1) k v clk])
              seq),
         Some (max_rowid rows + 1)).
Proof.
  intros H. unfold sqlite_run, upsert_config, run_insert, get_table.
  cbn. rewrite H. cbn.
  assert (Hf : filter (fun r => negb (sql_eqb (cell r 0) (Text k) || false)) rows
               = filter (fun r => negb (clave_is k r)) rows)
    by (apply filter_ext; intros r; unfold clave_is; now rewrite orb_false_r).
  rewrite Hf.
  match goal with
  | |- context [match ?x with [] => _ | _ :: _ => _ end] => destruct x
  end; reflexivity.
Qed.

Lemma filter_clave_after_upsert k rows new :
  clave_is k new = true ->
  filter (clave_is k) (filter (fun r => negb (clave_is k r)) rows ++ [new])
  = [new].
Proof.
  intros Hnew. rewrite filter_app. cbn. rewrite Hnew.
  replace (filter (clave_is k) (filter (fun r => negb (clave_is k r)) rows))
    with (@nil row); [reflexivity|].
  induction rows as [|r rows IH]; cbn; [reflexivity|].
  destruct (clave_is k r) eqn:Hr; cbn; [exact IH|]. now rewrite Hr.
Qed.

Lemma clave_is_setting_row rid k v clk : clave_is k (setting_row rid k v clk) = true.
Proof. apply clave_is_true. reflexivity. Qed.

(** The settings table after [set_config]. *)
Lemma set_config_tables w k v rows seq :
  tables (self_conn w) "Configuracion"
  = Some (Table Configuracion_schema rows seq) ->
  let w' := snd (set_config sqlite k v w) in
  fst (set_config sqlite k v w) = Ret tt
  /\ stdout w' = stdout w
  /\ tables (self_conn w') "Configuracion"
     = Some (Table Configuracion_schema
               (filter (fun r => negb (clave_is k r)) rows
                ++ [setting_row (max_rowid rows + 1) k v (clock (self_conn w))])
               seq)
  /\ forall t, t <> "Configuracion" ->
       tables (self_conn w') t = tables (self_conn w) t.
Proof.
  intros H. unfold set_config, bind. rewrite execute_sqlite. cbv zeta.
  erewrite upsert_config_run by exact H. cbn.
  repeat split.
  intros t Ht. unfold db_set.
  destruct (String.eqb_spec "Configuracion" t); [congruence|reflexivity].
Qed.

Lemma get_config_value w k dflt rows seq :
  tables (self_conn w) "Configuracion"
  = Some (Table Configuracion_schema rows seq) ->
  fst (get_config sqlite k dflt w)
  = match filter (clave_is k) rows with
    | r :: _ => Ret (cell r 1)
    | [] => Ret dflt
    end.
Proof.
  intros H. unfold get_config, bind. rewrite fetch_sqlite. cbv zeta.
  erewrite select_valor_run by exact H.
  destruct (filter (clave_is k) rows) as [|r rs]; reflexivity.
Qed.

Lemma set_then_get_config_on_tables w k v dflt rows seq :
  tables (self_conn w) "Configuracion"
  = Some (Table Configuracion_schema rows seq) ->
  let w' := snd (set_config sqlite k v w) in
  fst (get_config sqlite k dflt w') = Ret (Text v)
  /\ exists rows' seq',
       tables (self_conn w') "Configuracion"
       = Some (Table Configuracion_schema rows' seq')
       /\ length (filter (clave_is k) rows') = 1%nat.
Proof.
  intros H w'.
  destruct (set_config_tables w k v H) as (_ & _ & H' & _). fold w' in H'.
  split.
  - erewrite get_config_value by exact H'.
    rewrite filter_clave_after_upsert by apply clave_is_setting_row.
    reflexivity.
  - eexists _, _. split; [exact H'|].
    rewrite filter_clave_after_upsert by apply clave_is_setting_row.
    reflexivity.
Qed.

(** C5.  On an initialised database, for all strings [k] and [v],
    [get_config k] after [set_config k v] returns [v], whether or not
    [k] had a row before; the settings table then has exactly one row
    for [k]. *)
Theorem set_then_get_config :
  forall w k v dflt,
    initialised (tables (self_conn w)) ->
    let w' := snd (set_config sqlite k v w) in
    fst (get_config sqlite k dflt w') = Ret (Text v)
    /\ length (filter (clave_is k)
                 (rows_of (tables (self_conn w')) "Configuracion")) = 1%nat.
Proof.
  intros w k v dflt Hinit w'.
  destruct (@initialised_table _ "Configuracion" Configuracion_schema Hinit)
    as (rows & seq & Ht & _); [is_declared|].
  destruct (@set_then_get_config_on_tables w k v dflt rows seq Ht)
    as (Hget & rows' & seq' & Ht' & Hone).
  split; [exact Hget|]. unfold rows_of. subst w'. now rewrite Ht'.
Qed.

Lemma set_then_get_config_witness :
  initialised (tables (self_conn seeded))
  /\ fst (get_config sqlite "moneda" Null
            (snd (set_config sqlite "moneda" "USD" seeded)))
     = Ret (Text "USD")
  /\ fst (get_config sqlite "tema" Null
            (snd (set_config sqlite "tema" "oscuro" seeded)))
     = Ret (Text "oscuro").
Proof.
  split; [exact seeded_initialised|]. split.
  - exact (proj1 (@set_then_get_config seeded "moneda" "USD" Null
                    seeded_initialised)).
  - exact (proj1 (@set_then_get_config seeded "tema" "oscuro" Null
                    seeded_initialised)).
Defined.

Lemma set_config_replaces_row_on_tables w k v rows seq r :
  tables (self_conn w) "Configuracion"
  = Some (Table Configuracion_schema rows seq) ->
  In r rows -> cell r 0 = Text k ->
  cell r 2 <> Null -> cell r 3 <> Null ->
  let w' := snd (set_config sqlite k v w) in
  exists rows' seq' r',
    tables (self_conn w') "Configuracion"
    = Some (Table Configuracion_schema rows' seq')
    /\ filter (clave_is k) rows' = [r']
    /\ cell r' 1 = Text v
    /\ cell r' 2 = Null /\ cell r' 3 = Null
    /\ cell r' 4 = Text (clock (self_conn w))
    /\ ~ In r rows'.
Proof.
  intros H Hin Hk Hdesc Hcat w'.
  destruct (set_config_tables w k v H) as (_ & _ & H' & _). fold w' in H'.
  eexists _, _, _. split; [exact H'|].
  split; [apply filter_clave_after_upsert, clave_is_setting_row|].
  repeat split.
  intros Hr. apply in_app_or in Hr. destruct Hr as [Hr|[Hr|[]]].
  - apply filter_In in Hr. destruct Hr as [_ Hr].
    apply clave_is_true in Hk. now rewrite Hk in Hr.
  - subst r. now apply Hdesc.
Qed.

(** C9.  On an initialised database, [set_config] on a key whose row
    carries a description and a category replaces that row: afterwards
    the only row for the key holds the new value and the time of the
    write, and NULL for the description and the category; the old row is
    gone. *)
Theorem set_config_replaces_row :
  forall w k v r,
    let d := tables (self_conn w) in
    initialised d ->
    In r (rows_of d "Configuracion") -> cell r 0 = Text k ->
    cell r 2 <> Null -> cell r 3 <> Null ->
    let d' := tables (self_conn (snd (set_config sqlite k v w))) in
    exists r',
      filter (clave_is k) (rows_of d' "Configuracion") = [r']
      /\ cell r' 1 = Text v
      /\ cell r' 2 = Null /\ cell r' 3 = Null
      /\ cell r' 4 = Text (clock (self_conn w))
      /\ ~ In r (rows_of d' "Configuracion").
Proof.
  intros w k v r d Hinit Hin Hk Hdesc Hcat d'.
  destruct (@initialised_table _ "Configuracion" Configuracion_schema Hinit)
    as (rows & seq & Ht & _ & Hrows); [is_declared|].
  rewrite Hrows in Hin.
  destruct (@set_config_replaces_row_on_tables w k v rows seq r Ht Hin Hk
              Hdesc Hcat)
    as (rows' & seq' & r' & Ht' & H).
  exists r'. unfold rows_of, d'. rewrite Ht'. exact H.
Qed.

Lemma set_config_replaces_row_witness :
  let old := Row 7 [Text "moneda"; Text "HNL";
                    Text "Moneda principal del sistema"; Text "regional";
                    Text "2024-05-01 10:00:00"] in
  let d' := tables (self_conn (snd (set_config sqlite "moneda" "USD" seeded))) in
  In old (rows_of (tables (self_conn seeded)) "Configuracion")
  /\ exists r',
       filter (clave_is "moneda") (rows_of d' "Configuracion") = [r']
       /\ cell r' 1 = Text "USD"
       /\ cell r' 2 = Null /\ cell r' 3 = Null
       /\ cell r' 4 = Text (clock (self_conn seeded))
       /\ ~ In old (rows_of d' "Configuracion").
Proof.
  intros old d'.
  assert (Hin : In old (rows_of (tables (self_conn seeded)) "Configuracion"))
    by (vm_compute; do 6 right; left; reflexivity).
  split; [exact Hin|].
  apply (@set_config_replaces_row seeded "moneda" "USD" old
           seeded_initialised Hin); [reflexivity|discriminate|discriminate].
Defined.

Lemma filter_clave_absent k rows :
  (forall r, In r rows -> cell r 0 <> Text k) ->
  filter (clave_is k) rows = [].
Proof.
  induction rows as [|r rows IH]; cbn; intros Habs; [reflexivity|].
  destruct (clave_is k r) eqn:Hr.
  - apply clave_is_true in Hr. exfalso. apply (Habs r); [now left|exact Hr].
  - apply IH. intros r' Hr'. apply Habs. now right.
Qed.

(** Absence of a key, decided by running through the rows. *)
Lemma absent_by_check k rows :
  forallb (fun r => negb (clave_is k r)) rows = true ->
  forall r, In r rows -> cell r 0 <> Text k.
Proof.
  intros H r Hr Hk. rewrite forallb_forall in H. specialize (H r Hr).
  apply clave_is_true in Hk. now rewrite Hk in H.
Qed.

(** C10.  On an initialised database, [get_config k d] returns [d] when
    no row of the settings table has the key [k]. *)
Theorem get_config_absent :
  forall w k dflt,
    let d := tables (self_conn w) in
    initialised d ->
    (forall r, In r (rows_of d "Configuracion") -> cell r 0 <> Text k) ->
    fst (get_config sqlite k dflt w) = Ret dflt.
Proof.
  intros w k dflt d Hinit Habs.
  destruct (@initialised_table _ "Configuracion" Configuracion_schema Hinit)
    as (rows & seq & Ht & _ & Hrows); [is_declared|].
  rewrite Hrows in Habs.
  erewrite get_config_value by exact Ht.
  now rewrite filter_clave_absent.
Qed.

Lemma get_config_absent_witness :
  fst (get_config sqlite "tema" (Text "claro") seeded) = Ret (Text "claro").
Proof.
  apply (@get_config_absent seeded "tema" (Text "claro") seeded_initialised).
  apply absent_by_check. vm_compute. reflexivity.
Defined.

(** ** Inventory movements *)

Lemma select_stock_run d clk pid rows seq :
  d "Productos" = Some (Table Productos_schema rows seq) ->
  sqlite_run select_stock [Int pid] d clk
  = inr (map (fun r => [cell r 5]) (filter (id_is pid) rows), d, None).
Proof.
  intros H. unfold sqlite_run, select_stock, run_select, get_table.
  cbn. rewrite H. reflexivity.
Qed.

Lemma update_stock_run d clk pid v rows seq :
  d "Productos" = Some (Table Productos_schema rows seq) ->
  sqlite_run update_stock [Int v; Int pid] d clk
  = inr ([],
         db_set d "Productos"
           (Table Productos_schema (map (set_stock pid v) rows) seq),
         None).
Proof.
  intros H. unfold sqlite_run, update_stock, run_update, get_table.
  cbn -[list_set]. rewrite H. cbn -[list_set].
  rewrite rmap_if. reflexivity.
Qed.

Lemma insert_movimiento_run d clk pid tipo q s v motivo ref uid rows seq :
  d "MovimientosInventario"
  = Some (Table MovimientosInventario_schema rows seq) ->
  let rid := Z.max seq (max_rowid rows) + 1 in
  sqlite_run insert_movimiento
    [Int pid; Text tipo; Int q; Int s; Int v; Text motivo; ref; uid] d clk
  = inr ([],
         db_set d "MovimientosInventario"
           (Table MovimientosInventario_schema
              (rows ++ [movimiento_row rid pid tipo q s v motivo ref uid clk])
              (Z.max seq rid)),
         Some rid).
Proof.
  intros H rid. unfold sqlite_run, insert_movimiento, run_insert, get_table.
  cbn. rewrite H. cbn. unfold conflicts. cbn.
  rewrite filter_none, filter_all. reflexivity.
Qed.

Lemma id_is_set_stock pid v n r : id_is n (set_stock pid v r) = id_is n r.
Proof.
  unfold set_stock, id_is, cell.
  destruct (sql_eqb (nth 0 (cells r) Null) (Int pid)); [|reflexivity].
  cbn [cells]. now rewrite nth_list_set_other by discriminate.
Qed.

Lemma filter_id_is_set_stock pid v n rows :
  filter (id_is n) (map (set_stock pid v) rows)
  = map (set_stock pid v) (filter (id_is n) rows).
Proof.
  induction rows as [|r rows IH]; cbn; [reflexivity|].
  rewrite id_is_set_stock. destruct (id_is n r); cbn; now rewrite IH.
Qed.

Lemma stock_of_set_stock pid v rows old :
  well_formed Productos_schema rows ->
  stock_of rows pid = Some old ->
  stock_of (map (set_stock pid v) rows) pid = Some (Int v).
Proof.
  unfold stock_of. intros Hwf Hold. rewrite filter_id_is_set_stock.
  destruct (filter (id_is pid) rows) as [|r rs] eqn:Hf; [discriminate|].
  assert (Hr : In r (filter (id_is pid) rows)) by (rewrite Hf; now left).
  apply filter_In in Hr. destruct Hr as [Hin Hid].
  unfold well_formed in Hwf. rewrite Forall_forall in Hwf.
  specialize (Hwf r Hin). cbn in Hwf.
  cbn. unfold set_stock. unfold id_is in Hid. rewrite Hid.
  unfold cell. cbn [cells]. rewrite nth_list_set_same by lia. reflexivity.
Qed.

Lemma others_set_stock pid v rows :
  filter (fun r => negb (id_is pid r)) (map (set_stock pid v) rows)
  = filter (fun r => negb (id_is pid r)) rows.
Proof.
  induction rows as [|r rows IH]; cbn; [reflexivity|].
  rewrite id_is_set_stock, IH. unfold set_stock at 1.
  fold (id_is pid r). now destruct (id_is pid r).
Qed.

Lemma nuevo_stock_value tipo s q (w : world conn) :
  (if String.eqb tipo "entrada" then lift_result (py_add (Int s) q)
   else if String.eqb tipo "salida" then lift_result (py_sub (Int s) q)
   else ret (Int q)) w
  = (Ret (Int (expected_stock tipo s q)), w).
Proof.
  unfold expected_stock.
  destruct (String.eqb tipo "entrada"); [reflexivity|].
  destruct (String.eqb tipo "salida"); reflexivity.
Qed.

Lemma registrar_on_tables :
  forall w pid tipo q motivo referencia usuario_id s prods pseq movs mseq,
    tables (self_conn w) "Productos"
    = Some (Table Productos_schema prods pseq) ->
    tables (self_conn w) "MovimientosInventario"
    = Some (Table MovimientosInventario_schema movs mseq) ->
    well_formed Productos_schema prods ->
    stock_of prods pid = Some (Int s) ->
    let nuevo := expected_stock tipo s q in
    let out := registrar_movimiento_inventario sqlite pid tipo q motivo
                 referencia usuario_id w in
    fst out = Ret (Int nuevo)
    /\ (exists prods',
          tables (self_conn (snd out)) "Productos"
          = Some (Table Productos_schema prods' pseq)
          /\ stock_of prods' pid = Some (Int nuevo)
          /\ length prods' = length prods
          /\ filter (fun r => negb (id_is pid r)) prods'
             = filter (fun r => negb (id_is pid r)) prods)
    /\ (exists rid,
          tables (self_conn (snd out)) "MovimientosInventario"
          = Some (Table MovimientosInventario_schema
                    (movs ++ [movimiento_row rid pid tipo q s nuevo motivo
                                referencia usuario_id
                                (clock (self_conn w))])
                    (Z.max mseq rid))).
Proof.
  intros w pid tipo q motivo referencia usuario_id s prods pseq movs mseq
         Hp Hm Hwf Hs nuevo out.
  subst out. unfold registrar_movimiento_inventario, bind.
  rewrite fetch_sqlite. cbv zeta.
  erewrite select_stock_run by exact Hp.
  pose proof Hs as Hs'. unfold stock_of in Hs'.
  destruct (filter (id_is pid) prods) as [|r rs] eqn:Hf; [discriminate|].
  inversion Hs' as [Hcell]. cbn [map getitem nth_error ret]. rewrite Hcell.
  rewrite nuevo_stock_value. fold nuevo.
  rewrite execute_sqlite. cbv zeta. cbn [self_conn tables clock].
  erewrite update_stock_run by exact Hp.
  rewrite execute_sqlite. cbv zeta. cbn [self_conn tables clock].
  erewrite insert_movimiento_run
    by (unfold db_set; cbn; exact Hm).
  cbn [fst snd ret self_conn tables].
  split; [reflexivity|]. split.
  - exists (map (set_stock pid nuevo) prods).
    split; [reflexivity|]. split; [eapply stock_of_set_stock; eauto|].
    split; [apply length_map|apply others_set_stock].
  - eexists. reflexivity.
Qed.

(** Within the integers SQLite stores, a movement through the [sqlite3]
    module is the movement on the SQLite behind it. *)
Lemma registrar_sqlite3 :
  forall w pid tipo q motivo referencia usuario_id s prods pseq,
    tables (self_conn w) "Productos"
    = Some (Table Productos_schema prods pseq) ->
    stock_of prods pid = Some (Int s) ->
    int64 pid = true -> int64 q = true -> int64 s = true ->
    int64 (expected_stock tipo s q) = true ->
    bindable referencia = true -> bindable usuario_id = true ->
    registrar_movimiento_inventario sqlite3 pid tipo q motivo referencia
      usuario_id w
    = registrar_movimiento_inventario sqlite pid tipo q motivo referencia
        usuario_id w.
Proof.
  intros w pid tipo q motivo referencia usuario_id s prods pseq
         Hp Hs Ipid Iq Is Inuevo Iref Iuid.
  unfold registrar_movimiento_inventario, bind.
  rewrite fetch_sqlite3 by (cbn; now rewrite Ipid).
  rewrite fetch_sqlite. cbv zeta.
  erewrite select_stock_run by exact Hp.
  unfold stock_of in Hs.
  destruct (filter (id_is pid) prods) as [|r rs]; [discriminate|].
  inversion Hs as [Hcell]. cbn [map getitem nth_error ret]. rewrite Hcell.
  rewrite nuevo_stock_value.
  rewrite execute_sqlite3 by (cbn; now rewrite Inuevo, Ipid).
  destruct (execute sqlite update_stock _ _) as [[x|e] w1]; [|reflexivity].
  rewrite execute_sqlite3
    by (cbn; now rewrite Ipid, Iq, Is, Inuevo, Iref, Iuid).
  reflexivity.
Qed.

(** C1, as the code has it.  On an initialised database, for a product
    whose row holds the integer stock [s], and as long as the product,
    the quantity [q], [s] and the new stock are integers that SQLite
    stores (the optional reference being a text and the optional user
    such an integer), [registrar_movimiento_inventario] returns the new
    stock ([s + q] for ["entrada"], [s - q] for ["salida"], [q] for any
    other kind), leaves that stock in the product's row without touching
    the other products, and appends exactly one row to
    MovimientosInventario, holding the product, the kind, the quantity,
    [stock_anterior = s] and [stock_nuevo] equal to the new stock. *)
Theorem registrar_movimiento_inventario_spec :
  forall w pid tipo q motivo referencia usuario_id s,
    let d := tables (self_conn w) in
    initialised d ->
    stock_of (rows_of d "Productos") pid = Some (Int s) ->
    let nuevo := expected_stock tipo s q in
    int64 pid = true -> int64 q = true -> int64 s = true ->
    int64 nuevo = true ->
    is_text_or_null referencia = true ->
    is_int_or_null usuario_id = true ->
    let out := registrar_movimiento_inventario sqlite3 pid tipo q motivo
                 referencia usuario_id w in
    let d' := tables (self_conn (snd out)) in
    fst out = Ret (Int nuevo)
    /\ stock_of (rows_of d' "Productos") pid = Some (Int nuevo)
    /\ length (rows_of d' "Productos") = length (rows_of d "Productos")
    /\ filter (fun r => negb (id_is pid r)) (rows_of d' "Productos")
       = filter (fun r => negb (id_is pid r)) (rows_of d "Productos")
    /\ exists rid,
         rows_of d' "MovimientosInventario"
         = rows_of d "MovimientosInventario"
           ++ [Row rid [Int rid; Int pid; Text tipo; Int q; Int s; Int nuevo;
                        Text motivo; referencia; usuario_id;
                        Text (clock (self_conn w)); Null]].
Proof.
  intros w pid tipo q motivo referencia usuario_id s d Hinit Hs nuevo
         Ipid Iq Is Inuevo Tref Tuid out d'.
  destruct (@initialised_table _ "Productos" Productos_schema Hinit)
    as (prods & pseq & Hp & Hwf & Hprods); [is_declared|].
  destruct (@initialised_table _ "MovimientosInventario"
              MovimientosInventario_schema Hinit)
    as (movs & mseq & Hm & _ & Hmovs); [is_declared|].
  rewrite Hprods in Hs.
  assert (Bref : bindable referencia = true)
    by (destruct referencia; try discriminate Tref; reflexivity).
  assert (Buid : bindable usuario_id = true)
    by (destruct usuario_id; try discriminate Tuid; [reflexivity|exact Tuid]).
  assert (Auid : apply_affinity INTEGER usuario_id = usuario_id)
    by (destruct usuario_id; try discriminate Tuid; reflexivity).
  subst d' out.
  rewrite (@registrar_sqlite3 w pid tipo q motivo referencia usuario_id s
             prods pseq Hp Hs Ipid Iq Is Inuevo Bref Buid).
  destruct (@registrar_on_tables w pid tipo q motivo referencia usuario_id s
              prods pseq movs mseq Hp Hm Hwf Hs)
    as (Hret & (prods' & Hp' & Hs' & Hlen & Hoth) & (rid & Hm')).
  fold nuevo in Hret, Hs', Hm'.
  split; [exact Hret|].
  rewrite Hprods, Hmovs. unfold rows_of. rewrite Hp', Hm'. cbn [trows].
  split; [exact Hs'|]. split; [exact Hlen|]. split; [exact Hoth|].
  exists rid. unfold movimiento_row. now rewrite Auid.
Qed.

Lemma registrar_movimiento_inventario_witness :
  let out kind := registrar_movimiento_inventario sqlite3 2 kind 5 "conteo"
                    (Text "F-0012") (Int 1) seeded in
  stock_of (rows_of (tables (self_conn seeded)) "Productos") 2 = Some (Int 105)
  /\ fst (out "entrada") = Ret (Int 110)
  /\ fst (out "salida") = Ret (Int 100)
  /\ fst (out "ajuste") = Ret (Int 5)
  /\ stock_of (rows_of (tables (self_conn (snd (out "salida")))) "Productos") 2
     = Some (Int 100)
  /\ exists rid,
       rows_of (tables (self_conn (snd (out "salida")))) "MovimientosInventario"
       = rows_of (tables (self_conn seeded)) "MovimientosInventario"
         ++ [Row rid [Int rid; Int 2; Text "salida"; Int 5; Int 105; Int 100;
                      Text "conteo"; Text "F-0012"; Int 1;
                      Text (clock (self_conn seeded)); Null]].
Proof.
  intros out.
  assert (Hs : stock_of (rows_of (tables (self_conn seeded)) "Productos") 2
               = Some (Int 105)) by (vm_compute; reflexivity).
  assert (H : forall kind,
             int64 (expected_stock kind 105 5) = true ->
             fst (out kind) = Ret (Int (expected_stock kind 105 5)))
    by (intros kind Hk;
        exact (proj1 (@registrar_movimiento_inventario_spec seeded 2 kind 5
                        "conteo" (Text "F-0012") (Int 1) 105
                        seeded_initialised Hs eq_refl eq_refl eq_refl Hk
                        eq_refl eq_refl))).
  split; [exact Hs|].
  split; [exact (H "entrada" eq_refl)|].
  split; [exact (H "salida" eq_refl)|].
  split; [exact (H "ajuste" eq_refl)|].
  destruct (@registrar_movimiento_inventario_spec seeded 2 "salida" 5
              "conteo" (Text "F-0012") (Int 1) 105 seeded_initialised Hs
              eq_refl eq_refl eq_refl eq_refl eq_refl eq_refl)
    as (_ & Hst & _ & _ & Hrow).
  split; [exact Hst|exact Hrow].
Defined.

(** C1 as stated fails: product 2 holds 105 units, and an incoming
    movement of [2^63 - 105] units, a quantity SQLite stores, brings the
    stock to [2^63], which it does not.  The driver raises
    [OverflowError] when the new stock is bound; the stock stays at 105
    and no movement is recorded. *)
Lemma registrar_movimiento_inventario_overflow :
  let q := 2 ^ 63 - 105 in
  let out := registrar_movimiento_inventario sqlite3 2 "entrada" q "compra"
               Null Null seeded in
  stock_of (rows_of (tables (self_conn seeded)) "Productos") 2 = Some (Int 105)
  /\ int64 q = true
  /\ fst out
     = Raise (OtherError "OverflowError"
                "Python int too large to convert to SQLite INTEGER")
  /\ stock_of (rows_of (tables (self_conn (snd out))) "Productos") 2
     = Some (Int 105)
  /\ rows_of (tables (self_conn (snd out))) "MovimientosInventario"
     = rows_of (tables (self_conn seeded)) "MovimientosInventario".
Proof. vm_compute. repeat split; reflexivity. Qed.

(** ** Seeding *)

Lemma rows_of_some d t :
  rows_of d t <> [] -> exists tb, d t = Some tb /\ trows tb <> [].
Proof.
  unfold rows_of. destruct (d t) as [tb|]; [|congruence].
  intros H. now exists tb.
Qed.

(** C8.  On a database file that has just been created, [DBManager()]
    completes and leaves in Descuentos exactly the three predefined
    discounts; and whenever a table already holds a row,
    [insert_initial_data] leaves that table exactly as it was. *)
Theorem seeding_is_one_time :
  forall tpl,
    (forall clk wall,
       let out := init sqlite tpl (fresh_world clk wall) in
       fst out = Ret tt
       /\ option_map trows (tables (self_conn (snd out)) "Descuentos")
          = Some predefined_discounts)
    /\ (forall w t tb,
          tables (self_conn w) t = Some tb ->
          trows tb <> [] ->
          tables (self_conn (snd (insert_initial_data sqlite tpl w))) t
          = Some tb).
Proof.
  intros tpl. split.
  - intros clk wall. vm_compute. split; reflexivity.
  - intros w t tb Ht Hne.
    exact (@stable_insert_initial_data t tb Hne tpl w Ht).
Qed.

(** C8 on the seeded database: a second run of the seeding step leaves
    the discounts, and the settings, as they are. *)
Lemma seeding_is_one_time_witness :
  let again := snd (insert_initial_data sqlite "<html></html>" seeded) in
  rows_of (tables (self_conn seeded)) "Descuentos" = predefined_discounts
  /\ rows_of (tables (self_conn again)) "Descuentos" = predefined_discounts
  /\ rows_of (tables (self_conn again)) "Configuracion"
     = rows_of (tables (self_conn seeded)) "Configuracion".
Proof.
  intros again.
  destruct (seeding_is_one_time "<html></html>") as [_ Hlater].
  assert (Hd : rows_of (tables (self_conn seeded)) "Descuentos"
               = predefined_discounts) by (vm_compute; reflexivity).
  split; [exact Hd|]. split.
  - rewrite <- Hd.
    destruct (@rows_of_some (tables (self_conn seeded)) "Descuentos")
      as (tb & Ht & Hne); [vm_compute; discriminate|].
    unfold rows_of, again. now rewrite (Hlater seeded _ _ Ht Hne), Ht.
  - destruct (@rows_of_some (tables (self_conn seeded)) "Configuracion")
      as (tb & Ht & Hne); [vm_compute; discriminate|].
    unfold rows_of, again. now rewrite (Hlater seeded _ _ Ht Hne), Ht.
Defined.

End GatewayFacts.

(* ================================================================== *)
(** * Properties of the client record manager *)
(* ================================================================== *)

Module ClientsFacts.

Import Sql SqlFacts Py Gateway GatewayFacts PyStr PyStrFacts Clients.

(** ** Form validation *)

Section Validation.

Context {C : Type}.

Lemma is_empty_true (s : ustring) : is_empty s = true <-> s = [].
Proof. destruct s; cbn; split; congruence. Qed.

Lemma is_empty_false (s : ustring) : is_empty s = false <-> s <> [].
Proof. destruct s; cbn; split; congruence. Qed.

Lemma re_match_email_false s :
  re_match email_re (strip s) = false <-> ~ email_shape (strip s).
Proof. rewrite <- re_match_email. now destruct (re_match _ _). Qed.

Lemma re_match_dni_false s :
  re_match dni_re (strip s) = false <-> ~ thirteen_digits (strip s).
Proof. rewrite <- re_match_dni. now destruct (re_match _ _). Qed.

(** Each branch of [validate_form] settles every part of the
    statement. *)
Ltac settle :=
  repeat split; intros; try tauto; try discriminate; try reflexivity;
  try (do 2 eexists; repeat split; reflexivity).

(** C7, as the code has it.  [validate_form] reads the four fields with
    the surrounding white space removed.  On those texts it accepts
    exactly the forms whose name and surname are not empty, whose e-mail
    is empty or well formed and whose identity number is empty or made of
    thirteen digits, and then changes nothing; a non-empty e-mail that is
    not well formed (in particular one without [@]) and a non-empty
    identity number that is not thirteen digits are rejected; a rejected
    form gets one message, that of the first check that fails in the
    order name, surname, e-mail, identity number: one error box is added
    after those already opened, the field of that check takes the focus,
    and nothing else changes. *)
Theorem validate_form_spec :
  forall f : frame C,
    let nombre := strip (nombre_input f) in
    let apellido := strip (apellido_input f) in
    let email := strip (email_input f) in
    let dni := strip (dni_input f) in
    (fst (validate_form f) = true <->
       nombre <> [] /\ apellido <> []
       /\ (email = [] \/ email_shape email)
       /\ (dni = [] \/ thirteen_digits dni))
    /\ (fst (validate_form f) = true -> snd (validate_form f) = f)
    /\ (fst (validate_form f) = false ->
        exists x message,
          snd (validate_form f) = validation_error x message f
          /\ dialogs (snd (validate_form f))
             = dialogs f ++ [show_error "Error de Validación" message]
          /\ focus (snd (validate_form f)) = Some x)
    /\ (email <> [] -> ~ In at_sign email -> fst (validate_form f) = false)
    /\ (email <> [] -> ~ email_shape email -> fst (validate_form f) = false)
    /\ (dni <> [] -> ~ thirteen_digits dni -> fst (validate_form f) = false)
    /\ (nombre = [] ->
        validate_form f
        = (false, validation_error nombre_field "El nombre es obligatorio" f))
    /\ (nombre <> [] -> apellido = [] ->
        validate_form f
        = (false, validation_error apellido_field "El apellido es obligatorio" f))
    /\ (nombre <> [] -> apellido <> [] ->
        email <> [] -> ~ email_shape email ->
        validate_form f
        = (false, validation_error email_field "Formato de email inválido" f))
    /\ (nombre <> [] -> apellido <> [] ->
        (email = [] \/ email_shape email) ->
        dni <> [] -> ~ thirteen_digits dni ->
        validate_form f
        = (false, validation_error dni_field "El DNI debe tener 13 dígitos" f)).
Proof.
  intros f nombre apellido email dni.
  unfold validate_form, validation_error.
  fold nombre apellido email dni.
  destruct (is_empty nombre) eqn:En.
  { apply is_empty_true in En. cbn.
    settle. }
  apply is_empty_false in En.
  destruct (is_empty apellido) eqn:Ea.
  { apply is_empty_true in Ea. cbn.
    settle. }
  apply is_empty_false in Ea.
  destruct (is_empty email) eqn:Ee; cbn [negb andb].
  - apply is_empty_true in Ee.
    destruct (is_empty dni) eqn:Ed; cbn [negb andb].
    + apply is_empty_true in Ed. cbn.
      settle.
    + apply is_empty_false in Ed.
      destruct (re_match dni_re dni) eqn:Md; cbn [negb].
      * apply re_match_dni in Md. cbn.
        settle.
      * apply re_match_dni_false in Md. cbn.
        settle.
  - apply is_empty_false in Ee.
    destruct (re_match email_re email) eqn:Me; cbn [negb].
    + apply re_match_email in Me.
      assert (Hat : In at_sign email) by now apply email_shape_has_at.
      destruct (is_empty dni) eqn:Ed; cbn [negb andb].
      * apply is_empty_true in Ed. cbn.
        settle.
      * apply is_empty_false in Ed.
        destruct (re_match dni_re dni) eqn:Md; cbn [negb].
        -- apply re_match_dni in Md. cbn.
           settle.
        -- apply re_match_dni_false in Md. cbn.
           settle.
    + apply re_match_email_false in Me. cbn.
      settle.
Qed.

End Validation.

(** C7 on the form of Ana Gómez with an address that lacks [@]: the form
    is rejected with the e-mail message alone, and the e-mail field takes
    the focus. *)
Lemma validate_form_witness :
  let f := form "Ana" "Gomez" "ana.example.com" "0801199901234" in
  fst (validate_form f) = false
  /\ dialogs (snd (validate_form f))
     = [show_error "Error de Validación" "Formato de email inválido"]
  /\ focus (snd (validate_form f)) = Some email_field.
Proof.
  intros f.
  destruct (validate_form_spec f)
    as (_ & _ & _ & Hno_at & _ & _ & _ & _ & Hemail & _).
  assert (Hno : ~ In at_sign (strip (email_input f))).
  { vm_compute. intros H. repeat (destruct H as [H|H]; [discriminate H|]).
    exact H. }
  split.
  - apply Hno_at; [vm_compute; discriminate|exact Hno].
  - rewrite Hemail; try (vm_compute; discriminate).
    + split; reflexivity.
    + intros Hshape. apply email_shape_has_at in Hshape. exact (Hno Hshape).
Defined.

(** C7 as stated fails: the values are judged after [strip], so an e-mail
    field holding three spaces, which is not empty and has no [@], and an
    identity field holding thirteen digits between two spaces, fifteen
    characters in all, are both accepted. *)
Lemma padded_values_are_accepted :
  let f := form "Ana" "Gomez" "   " " 0801199901234 " in
  email_input f <> []
  /\ ~ In at_sign (email_input f)
  /\ dni_input f <> []
  /\ ~ thirteen_digits (dni_input f)
  /\ validate_form f = (true, f).
Proof.
  intros f. split; [vm_compute; discriminate|].
  split.
  { vm_compute. intros H. repeat (destruct H as [H|H]; [discriminate H|]).
    exact H. }
  split; [vm_compute; discriminate|].
  split; [|vm_compute; reflexivity].
  intros [Hlen _]. vm_compute in Hlen. discriminate Hlen.
Qed.

(** The form of a new client called Ana Gómez, with several e-mail
    addresses and identity numbers. *)
Example validate_form_examples :
  fst (validate_form (form "Ana" "Gomez" "" "")) = true
  /\ fst (validate_form (form "Ana" "Gomez" "ana@example.com" "0801199901234")) = true
  /\ fst (validate_form (form " Ana " "Gomez" " ana@example.com " "")) = true
  /\ fst (validate_form (form "Ana" "Gomez" "ana.example.com" "")) = false
  /\ fst (validate_form (form "Ana" "Gomez" "ana@example" "")) = false
  /\ fst (validate_form (form "Ana" "Gomez" "ana@@example.com" "")) = false
  /\ fst (validate_form (form "Ana" "Gomez" "" "080119990123")) = false
  /\ fst (validate_form (form "Ana" "Gomez" "" "08011999012345")) = false
  /\ fst (validate_form (form "Ana" "Gomez" "" "0801-1999-0123")) = false
  /\ dialogs (snd (validate_form (form "" "" "nada" "1")))
     = [show_error "Error de Validación" "El nombre es obligatorio"].
Proof. vm_compute. repeat split; reflexivity. Qed.

(** ** Deleting a client *)

Lemma count_ventas_run d clk cid rows seq :
  d "Ventas" = Some (Table Ventas_schema rows seq) ->
  sqlite_run count_ventas [Int cid] d clk
  = inr ([[Int (Z.of_nat (length (sales_of cid rows)))]], d, None).
Proof.
  intros H. unfold sqlite_run, count_ventas, run_select, get_table.
  cbn. rewrite H. reflexivity.
Qed.

Lemma deactivate_run d clk cid rows seq :
  d "Clientes" = Some (Table Clientes_schema rows seq) ->
  sqlite_run deactivate_cliente [Int cid] d clk
  = inr ([], db_set d "Clientes"
               (Table Clientes_schema (map (deactivate cid) rows) seq), None).
Proof.
  intros H. unfold sqlite_run, deactivate_cliente, run_update, get_table.
  cbn -[list_set]. rewrite H. cbn -[list_set].
  rewrite rmap_if. reflexivity.
Qed.

Lemma delete_cliente_run d clk cid rows seq :
  d "Clientes" = Some (Table Clientes_schema rows seq) ->
  sqlite_run delete_cliente [Int cid] d clk
  = inr ([], db_set d "Clientes"
               (Table Clientes_schema
                  (filter (fun r => negb (id_is cid r)) rows) seq), None).
Proof.
  intros H. unfold sqlite_run, delete_cliente, run_delete, get_table.
  cbn. rewrite H. reflexivity.
Qed.

Lemma same_data_refl (f : frame conn) : same_data f f.
Proof. now repeat split. Qed.

Lemma same_data_trans (f g h : frame conn) :
  same_data f g -> same_data g h -> same_data f h.
Proof.
  unfold same_data. intros (A1 & A2 & A3 & A4) (B1 & B2 & B3 & B4).
  repeat split; congruence.
Qed.

Lemma populate_rows_same rows (f : frame conn) :
  same_data f (snd (populate_rows rows f)).
Proof.
  revert f. induction rows as [|r rows IH]; intros f; cbn.
  - apply same_data_refl.
  - destruct (Nat.eqb _ 9); cbn; [|apply same_data_refl].
    eapply same_data_trans; [|apply IH]. now repeat split.
Qed.

(** Reloading the list reads the database and changes the table widget
    and the diagnostic stream only. *)
Lemma load_clients_same (f : frame conn) :
  same_data f (load_clients sqlite f).
Proof.
  unfold load_clients.
  set (query := if String.eqb (filter_combo f) "Solo activos" then _ else _).
  assert (Hq : exists p t c ob lim, query = SELECT p t c ob lim).
  { subst query. unfold select_clientes.
    destruct (String.eqb _ "Solo activos"); [eauto 6|].
    destruct (String.eqb _ "Solo inactivos"); eauto 6. }
  destruct Hq as (p & t & c & ob & lim & ->).
  unfold on_db at 1. rewrite GatewayFacts.fetch_sqlite. cbv zeta.
  destruct (sqlite_run _ _ _ _) as [e|[[rs d] rid]] eqn:Hrun.
  - cbn. now repeat split.
  - apply GatewayFacts.select_keeps_tables in Hrun. subst d.
    unfold populate_table.
    match goal with
    | |- context [populate_rows ?r ?g] =>
        pose proof (populate_rows_same r g) as Hp;
        destruct (populate_rows r g) as [[[]|e] f2]
    end; cbn in Hp |- *.
    + destruct Hp as (A1 & A2 & A3 & A4). now repeat split.
    + destruct Hp as (A1 & A2 & A3 & A4). now repeat split.
Qed.

Lemma delete_client_selected (f : frame conn) cid :
  current_client_id f = Some cid -> cid <> 0 ->
  delete_client sqlite f
  = match delete_client_body sqlite cid f with
    | (Ret _, f') => f'
    | (Raise e, f') =>
        open_dialog (show_error "Error"
                       ("Error al eliminar cliente: " +++ str_of_exn e)) f'
    end.
Proof.
  intros Hc Hz. unfold delete_client. rewrite Hc.
  destruct cid; [congruence|reflexivity|reflexivity].
Qed.

Lemma id_is_deactivate cid n r : id_is n (deactivate cid r) = id_is n r.
Proof.
  unfold deactivate, id_is, cell.
  destruct (sql_eqb (nth 0 (cells r) Null) (Int cid)); [|reflexivity].
  cbn [cells]. now rewrite nth_list_set_other by discriminate.
Qed.

Lemma activo_of_deactivate cid rows old :
  well_formed Clientes_schema rows ->
  activo_of rows cid = Some old ->
  activo_of (map (deactivate cid) rows) cid = Some (Int 0).
Proof.
  unfold activo_of. intros Hwf Hold.
  assert (Hf : filter (id_is cid) (map (deactivate cid) rows)
               = map (deactivate cid) (filter (id_is cid) rows)).
  { clear. induction rows as [|r rows IH]; cbn; [reflexivity|].
    rewrite id_is_deactivate. destruct (id_is cid r); cbn; now rewrite IH. }
  rewrite Hf.
  destruct (filter (id_is cid) rows) as [|r rs] eqn:Hr; [discriminate|].
  assert (Hin : In r (filter (id_is cid) rows)) by (rewrite Hr; now left).
  apply filter_In in Hin. destruct Hin as [Hin Hid].
  unfold well_formed in Hwf. rewrite Forall_forall in Hwf.
  specialize (Hwf r Hin). cbn in Hwf.
  cbn. unfold deactivate. unfold id_is in Hid. rewrite Hid.
  unfold cell. cbn [cells].
  rewrite nth_list_set_same by lia. reflexivity.
Qed.

(** The run of [delete_client] for a client without sales, confirmed. *)
Lemma delete_client_without_sales (f : frame conn) cid clientes cseq ventas vseq :
  current_client_id f = Some cid -> cid <> 0 ->
  tables (self_conn (db f)) "Clientes"
  = Some (Table Clientes_schema clientes cseq) ->
  tables (self_conn (db f)) "Ventas"
  = Some (Table Ventas_schema ventas vseq) ->
  answers f (asked f) = Yes ->
  sales_of cid ventas = [] ->
  exists g,
    delete_client sqlite f = load_clients sqlite g
    /\ tables (self_conn (db g))
       = db_set (tables (self_conn (db f))) "Clientes"
           (Table Clientes_schema
              (filter (fun r => negb (id_is cid r)) clientes) cseq)
    /\ asked g = S (asked f)
    /\ dialogs g
       = dialogs f
         ++ [show_question "Confirmación"
                           "¿Está seguro de eliminar este cliente?";
             show_success "Cliente Eliminado"
                          "Cliente eliminado correctamente"].
Proof.
  intros Hcur Hz Hc Hv Ha Hs.
  rewrite (delete_client_selected f Hcur Hz).
  unfold delete_client_body, sbind.
  unfold on_db at 1. rewrite GatewayFacts.fetch_sqlite. cbv zeta.
  erewrite count_ventas_run by exact Hv.
  rewrite Hs. cbn -[load_clients]. rewrite Ha.
  unfold on_db at 1. rewrite GatewayFacts.execute_sqlite. cbv zeta.
  cbn [db self_conn tables clock].
  erewrite delete_cliente_run by exact Hc.
  cbn -[load_clients].
  eexists. split; [reflexivity|]. cbn. rewrite <- app_assoc.
  split; [reflexivity|]. split; reflexivity.
Qed.

(** The run of [delete_client] for a client with sales, when the user
    chooses to deactivate. *)
Lemma delete_client_with_sales (f : frame conn) cid clientes cseq ventas vseq :
  current_client_id f = Some cid -> cid <> 0 ->
  tables (self_conn (db f)) "Clientes"
  = Some (Table Clientes_schema clientes cseq) ->
  tables (self_conn (db f)) "Ventas"
  = Some (Table Ventas_schema ventas vseq) ->
  answers f (asked f) = Yes ->
  sales_of cid ventas <> [] ->
  exists g,
    delete_client sqlite f = load_clients sqlite g
    /\ tables (self_conn (db g))
       = db_set (tables (self_conn (db f))) "Clientes"
           (Table Clientes_schema (map (deactivate cid) clientes) cseq)
    /\ asked g = S (asked f)
    /\ dialogs g
       = dialogs f
         ++ [show_question "Cliente con Ventas" deactivate_question;
             show_success "Cliente Desactivado"
                          "Cliente desactivado correctamente"].
Proof.
  intros Hcur Hz Hc Hv Ha Hs.
  rewrite (delete_client_selected f Hcur Hz).
  unfold delete_client_body, sbind.
  unfold on_db at 1. rewrite GatewayFacts.fetch_sqlite. cbv zeta.
  erewrite count_ventas_run by exact Hv.
  destruct (sales_of cid ventas) as [|s ss]; [congruence|].
  cbn -[load_clients deactivate_question]. rewrite Ha.
  unfold on_db at 1. rewrite GatewayFacts.execute_sqlite. cbv zeta.
  cbn [db self_conn tables clock].
  erewrite deactivate_run by exact Hc.
  cbn -[load_clients deactivate_question].
  eexists. split; [reflexivity|]. cbn -[deactivate_question].
  rewrite <- app_assoc.
  split; [reflexivity|]. split; reflexivity.
Qed.

(** C6.  On an initialised database, with a client selected: when the
    client has no sale, one confirmation answered Yes deletes the client's
    row and touches no other table; when the client has a sale, the
    deactivate-or-delete question is asked, and answering Yes sets
    [activo] to 0 in the client's row, removes no row of Clientes and
    touches no other table, Ventas included. *)
Theorem delete_client_spec :
  forall (f : frame conn) cid,
    let d := tables (self_conn (db f)) in
    current_client_id f = Some cid -> cid <> 0 ->
    initialised d ->
    answers f (asked f) = Yes ->
    let f' := delete_client sqlite f in
    let d' := tables (self_conn (db f')) in
    (sales_of cid (rows_of d "Ventas") = [] ->
       rows_of d' "Clientes"
       = filter (fun r => negb (id_is cid r)) (rows_of d "Clientes")
       /\ (forall t, t <> "Clientes" -> d' t = d t)
       /\ asked f' = S (asked f)
       /\ dialogs f'
          = dialogs f
            ++ [show_question "Confirmación"
                              "¿Está seguro de eliminar este cliente?";
                show_success "Cliente Eliminado"
                             "Cliente eliminado correctamente"])
    /\ (sales_of cid (rows_of d "Ventas") <> [] ->
       rows_of d' "Clientes" = map (deactivate cid) (rows_of d "Clientes")
       /\ (forall old, activo_of (rows_of d "Clientes") cid = Some old ->
             activo_of (rows_of d' "Clientes") cid = Some (Int 0))
       /\ length (rows_of d' "Clientes") = length (rows_of d "Clientes")
       /\ rows_of d' "Ventas" = rows_of d "Ventas"
       /\ (forall t, t <> "Clientes" -> d' t = d t)
       /\ asked f' = S (asked f)
       /\ dialogs f'
          = dialogs f
            ++ [show_question "Cliente con Ventas" deactivate_question;
                show_success "Cliente Desactivado"
                             "Cliente desactivado correctamente"]).
Proof.
  intros f cid d Hcur Hz Hinit Ha f' d'.
  destruct (@initialised_table _ "Clientes" Clientes_schema Hinit)
    as (clientes & cseq & Hc & Hwf & Hclientes); [is_declared|].
  destruct (@initialised_table _ "Ventas" Ventas_schema Hinit)
    as (ventas & vseq & Hv & _ & Hventas); [is_declared|].
  rewrite Hclientes, Hventas. subst f' d'. split; intros Hs.
  - destruct (delete_client_without_sales f Hcur Hz Hc Hv Ha Hs)
      as (g & -> & Ht & Hk & Hd).
    destruct (load_clients_same g) as (A1 & A2 & A3 & _).
    unfold rows_of. rewrite A1, A2, A3, Ht, Hk, Hd, db_set_same. cbn [trows].
    split; [reflexivity|]. split; [|split; reflexivity].
    intros t Hne. now apply db_set_other.
  - destruct (delete_client_with_sales f Hcur Hz Hc Hv Ha Hs)
      as (g & -> & Ht & Hk & Hd).
    destruct (load_clients_same g) as (A1 & A2 & A3 & _).
    unfold rows_of. rewrite A1, A2, A3, Ht, Hk, Hd, db_set_same. cbn [trows].
    rewrite db_set_other by discriminate. fold d. fold (rows_of d "Ventas").
    rewrite Hventas.
    split; [reflexivity|].
    split; [intros old; now apply activo_of_deactivate|].
    split; [apply length_map|].
    split; [reflexivity|].
    split; [|split; reflexivity].
    intros t Hne. now apply db_set_other.
Qed.

Lemma with_sale_initialised : initialised (tables (self_conn with_sale)).
Proof.
  apply (proj1 (proj2 (proj2 database_stays_initialised))).
  exact seeded_initialised.
Qed.

(** C6 on the seeded database after one sale to client 1: deleting
    client 1 deactivates it and keeps the sale; deleting client 2, who
    bought nothing, removes the row. *)
Lemma delete_client_witness :
  let before cid := tables (self_conn (db (frame_on with_sale cid Yes))) in
  let after cid := delete_client sqlite (frame_on with_sale cid Yes) in
  let tables_after cid := tables (self_conn (db (after cid))) in
  (activo_of (rows_of (before 1) "Clientes") 1 = Some (Int 1)
   /\ activo_of (rows_of (tables_after 1) "Clientes") 1 = Some (Int 0)
   /\ length (rows_of (tables_after 1) "Clientes") = 4%nat
   /\ rows_of (tables_after 1) "Ventas" = rows_of (before 1) "Ventas"
   /\ asked (after 1) = 1%nat)
  /\ (rows_of (tables_after 2) "Clientes"
      = filter (fun r => negb (id_is 2 r)) (rows_of (before 2) "Clientes")
      /\ length (rows_of (tables_after 2) "Clientes") = 3%nat
      /\ asked (after 2) = 1%nat).
Proof.
  intros before after tables_after. subst before tables_after after. cbv beta.
  assert (Hact : activo_of (rows_of (tables (self_conn
                                               (db (frame_on with_sale 1 Yes))))
                                    "Clientes") 1
                 = Some (Int 1))
    by (vm_compute; reflexivity).
  split.
  - destruct (@delete_client_spec (frame_on with_sale 1 Yes) 1 eq_refl
                ltac:(discriminate) with_sale_initialised eq_refl)
      as [_ H].
    destruct H as (_ & Ha & Hlen & Hv & _ & Hasked & _);
      [vm_compute; discriminate|].
    split; [exact Hact|]. split; [exact (Ha _ Hact)|].
    split; [rewrite Hlen; vm_compute; reflexivity|].
    split; [exact Hv|exact Hasked].
  - destruct (@delete_client_spec (frame_on with_sale 2 Yes) 2 eq_refl
                ltac:(discriminate) with_sale_initialised eq_refl)
      as [H _].
    destruct H as (Hrows & _ & Hasked & _); [vm_compute; reflexivity|].
    split; [exact Hrows|].
    split; [rewrite Hrows; vm_compute; reflexivity|].
    exact Hasked.
Defined.

End ClientsFacts.

Module AdditionalFacts.
Import Sql SqlFacts Py Gateway GatewayFacts Additional.
Local Open Scope py_scope.

Lemma select_empresa_run d clk rows seq :
  d "Empresa" = Some (Table Empresa_schema rows seq) ->
  sqlite_run select_empresa [] d clk = inr (map cells (firstn 1 rows), d, None).
Proof.
  intros H. unfold sqlite_run, select_empresa, run_select, get_table.
  cbn. rewrite H. cbn. now rewrite filter_all.
Qed.

Lemma insert_backup_run d clk nombre ruta uid (au : bool) rows seq :
  d "Backups" = Some (Table Backups_schema rows seq) ->
  let rid := Z.max seq (max_rowid rows) + 1 in
  sqlite_run insert_backup
    [Text nombre; Text ruta; int_or_none uid;
     Int (if au then 1 else 0); Int 0] d clk
  = inr ([],
         db_set d "Backups"
           (Table Backups_schema
              (rows ++ [backup_row rid nombre ruta uid au clk])
              (Z.max seq rid)),
         Some rid).
Proof.
  intros H rid. unfold sqlite_run, insert_backup, insert_into, run_insert, get_table.
  cbn. rewrite H. cbn. unfold conflicts. cbn.
  rewrite filter_none, filter_all.
  destruct uid, au; reflexivity.
Qed.

Lemma insert_auditoria_run d clk uid accion modulo descr ip ua rows seq :
  d "Auditoria" = Some (Table Auditoria_schema rows seq) ->
  let rid := Z.max seq (max_rowid rows) + 1 in
  sqlite_run insert_auditoria
    [int_or_none uid; Text accion; str_or_none modulo; str_or_none descr;
     str_or_none ip; str_or_none ua] d clk
  = inr ([],
         db_set d "Auditoria"
           (Table Auditoria_schema
              (rows ++ [auditoria_row rid uid accion modulo descr ip ua clk])
              (Z.max seq rid)),
         Some rid).
Proof.
  intros H rid. unfold sqlite_run, insert_auditoria, insert_into, run_insert, get_table.
  cbn. rewrite H. cbn. unfold conflicts. cbn.
  rewrite filter_none, filter_all.
  destruct uid, modulo, descr, ip, ua; reflexivity.
Qed.

Lemma insert_auditoria_null d clk uid modulo descr ip ua rows seq :
  d "Auditoria" = Some (Table Auditoria_schema rows seq) ->
  sqlite_run insert_auditoria
    [int_or_none uid; Null; str_or_none modulo; str_or_none descr;
     str_or_none ip; str_or_none ua] d clk
  = inl (IntegrityError "NOT NULL constraint failed: Auditoria.accion").
Proof.
  intros H. unfold sqlite_run, insert_auditoria, insert_into, run_insert, get_table.
  cbn. rewrite H. cbn. destruct uid; reflexivity.
Qed.

Lemma rowid_le_max rows r : In r rows -> rowid r <= max_rowid rows.
Proof.
  induction rows as [|x rows IH]; cbn; [tauto|].
  intros [->|Hin]; [lia|]. specialize (IH Hin). unfold max_rowid in IH. lia.
Qed.

Lemma ids_below_fresh rows seq :
  ids_below (Z.max seq (max_rowid rows) + 1) rows.
Proof.
  apply Forall_forall. intros r Hin. apply rowid_le_max in Hin. lia.
Qed.

(** ** Driver errors *)

(** X1.  Whatever the driver, the statement and the parameters, [fetch]
    and [execute] raise no [sqlite3.Error]; when [cursor.execute] raises
    one, [fetch] prints it after "Error en consulta: " and returns the
    empty list, and [execute] prints it after "Error en operación: " and
    returns [None]. *)
Theorem gateway_swallows_driver_errors :
  forall (C : Type) (drv : driver C) q ps (w : world C),
    (forall e, fst (fetch drv q ps w) <> Raise (Sqlite3 e))
    /\ (forall e, fst (execute drv q ps w) <> Raise (Sqlite3 e))
    /\ (forall e c',
          cursor_execute drv q ps (self_conn w) = (Raise (Sqlite3 e), c') ->
          fetch drv q ps w
          = (Ret [],
             World c' (stdout w ++ ["Error en consulta: " +++ str_of_error e])
                   (wallclock w))
          /\ execute drv q ps w
             = (Ret None,
                World c' (stdout w ++ ["Error en operación: " +++ str_of_error e])
                      (wallclock w))).
Proof.
  intros C drv q ps w. split; [|split].
  - intros e. apply fetch_never_raises_sqlite3.
  - intros e. apply execute_never_raises_sqlite3.
  - intros e c' H. split.
    + now apply fetch_swallows.
    + now apply execute_swallows.
Qed.

Lemma gateway_swallows_driver_errors_witness :
  fetch (with_faults locked sqlite) (select_all "Clientes") []
        (fresh_world "2024-05-01 10:00:00" "2024-05-01 04:00:00")
  = (Ret [],
     World (Conn empty_db None [] "2024-05-01 10:00:00")
           ["Error en consulta: database is locked"] "2024-05-01 04:00:00")
  /\ execute (with_faults locked sqlite) (select_all "Clientes") []
        (fresh_world "2024-05-01 10:00:00" "2024-05-01 04:00:00")
     = (Ret None,
        World (Conn empty_db None [] "2024-05-01 10:00:00")
              ["Error en operación: database is locked"] "2024-05-01 04:00:00").
Proof.
  exact (proj2 (proj2 (@gateway_swallows_driver_errors conn
                         (with_faults locked sqlite) (select_all "Clientes") []
                         (fresh_world "2024-05-01 10:00:00"
                                      "2024-05-01 04:00:00")))
           (OperationalError "database is locked")
           (Conn empty_db None [] "2024-05-01 10:00:00") eq_refl).
Defined.

(** ** Settings *)

Lemma filter_other_key k k' rows :
  k' <> k ->
  filter (clave_is k') (filter (fun r => negb (clave_is k r)) rows)
  = filter (clave_is k') rows.
Proof.
  intros Hne. induction rows as [|r rows IH]; cbn; [reflexivity|].
  destruct (clave_is k r) eqn:Hk; cbn.
  - destruct (clave_is k' r) eqn:Hk'; [|exact IH].
    apply clave_is_true in Hk, Hk'. congruence.
  - now rewrite IH.
Qed.

(** X2.  On an initialised database, [set_config k v] changes the value
    [get_config] returns for no key other than [k]. *)
Theorem set_config_keeps_other_keys :
  forall w k v k' dflt,
    initialised (tables (self_conn w)) ->
    k' <> k ->
    fst (get_config sqlite k' dflt (snd (set_config sqlite k v w)))
    = fst (get_config sqlite k' dflt w).
Proof.
  intros w k v k' dflt Hinit Hne.
  destruct (@initialised_table _ "Configuracion" Configuracion_schema Hinit)
    as (rows & seq & Ht & _); [is_declared|].
  destruct (set_config_tables w k v Ht) as (_ & _ & Ht' & _).
  erewrite get_config_value by exact Ht'.
  erewrite (@get_config_value w) by exact Ht.
  rewrite filter_app, filter_other_key by exact Hne.
  cbn [filter].
  replace (clave_is k' (setting_row (max_rowid rows + 1) k v (clock (self_conn w))))
    with false.
  - now rewrite app_nil_r.
  - symmetry. unfold clave_is, setting_row, cell. cbn.
    apply String.eqb_neq. congruence.
Qed.

Lemma set_config_keeps_other_keys_witness :
  fst (get_config sqlite "moneda" Null
         (snd (set_config sqlite "idioma" "en" seeded)))
  = fst (get_config sqlite "moneda" Null seeded).
Proof.
  apply (@set_config_keeps_other_keys seeded "idioma" "en" "moneda" Null
           seeded_initialised).
  discriminate.
Defined.

(** ** Company data *)

(** X3.  On an initialised database [get_empresa_info] raises nothing
    and writes nothing.  It returns [None] when Empresa has no row.
    Otherwise it returns the dictionary built from the first row, and
    there the key [moneda] carries the cell of column [logo] and the key
    [impuesto_por_defecto] the cell of column [zona_horaria]: the
    positions 7 and 10 of the tuple. *)
Theorem get_empresa_info_spec :
  forall w,
    let d := tables (self_conn w) in
    initialised d ->
    let out := get_empresa_info sqlite w in
    let E := column_of Empresa_schema in
    fst out
    = Ret match rows_of d "Empresa" with
          | [] => None
          | r :: _ =>
              Some (EmpresaInfo (E "nombre" r) (E "ruc" r) (E "direccion" r)
                                (E "telefono" r) (E "email" r) (E "logo" r)
                                (E "zona_horaria" r))
          end
    /\ tables (self_conn (snd out)) = d
    /\ stdout (snd out) = stdout w.
Proof.
  intros w d Hinit out E.
  destruct (@initialised_table _ "Empresa" Empresa_schema Hinit)
    as (rows & seq & Ht & Hwf & Hrows); [is_declared|].
  rewrite Hrows. subst out. unfold get_empresa_info, bind.
  rewrite fetch_sqlite. cbv zeta.
  erewrite select_empresa_run by exact Ht.
  destruct rows as [|r rows]; [cbn; repeat split|].
  inversion Hwf as [|r' rows' Hr _]; subst. cbn in Hr.
  destruct r as [rid cs].
  do 12 (destruct cs as [|? cs]; [discriminate Hr|]).
  destruct cs; [|discriminate Hr].
  cbn. repeat split.
Qed.

Lemma get_empresa_info_witness :
  initialised (tables (self_conn seeded))
  /\ fst (get_empresa_info sqlite seeded)
     = Ret (Some (EmpresaInfo (Text "Mi Empresa ERP") (Text "0801-9999-12345")
                    (Text "Colonia Palmira, Tegucigalpa") (Text "2234-5678")
                    (Text "info@miempresa.com") Null
                    (Text "America/Tegucigalpa"))).
Proof.
  split; [exact seeded_initialised|].
  rewrite (proj1 (@get_empresa_info_spec seeded seeded_initialised)).
  vm_compute. reflexivity.
Defined.

(** When the driver fails on its query, [get_empresa_info] returns
    [None]. *)
Lemma get_empresa_info_read_failure (C : Type) (drv : driver C)
    (w : world C) e c' :
  cursor_execute drv select_empresa [] (self_conn w)
  = (Raise (Sqlite3 e), c') ->
  get_empresa_info drv w
  = (Ret None,
     World c' (stdout w ++ ["Error en consulta: " +++ str_of_error e])
           (wallclock w)).
Proof.
  intros H. unfold get_empresa_info, bind.
  now erewrite fetch_swallows by exact H.
Qed.

(** ** Backups and the audit log *)

(** X4.  On an initialised database [crear_backup] appends exactly one
    row to Backups, holding the file name, the path, the user, the flag
    as 0 or 1 and size 0, keeps every row already there, writes to no
    other table, and returns the new row's id, which is above the id of
    every row of the table. *)
Theorem crear_backup_spec :
  forall w nombre_archivo ruta usuario_id automatico,
    let d := tables (self_conn w) in
    initialised d ->
    let out := crear_backup sqlite nombre_archivo ruta usuario_id automatico w in
    let d' := tables (self_conn (snd out)) in
    exists rid,
      fst out = Ret (Some rid)
      /\ rows_of d' "Backups"
         = rows_of d "Backups"
           ++ [backup_row rid nombre_archivo ruta usuario_id automatico
                          (clock (self_conn w))]
      /\ ids_below rid (rows_of d "Backups")
      /\ (forall t, t <> "Backups" -> d' t = d t).
Proof.
  intros w nombre_archivo ruta usuario_id automatico d Hinit out d'.
  destruct (@initialised_table _ "Backups" Backups_schema Hinit)
    as (rows & seq & Ht & _ & Hrows); [is_declared|].
  rewrite Hrows. subst d' out. unfold crear_backup.
  rewrite execute_sqlite. cbv zeta.
  erewrite insert_backup_run by exact Ht.
  cbn [fst snd self_conn tables].
  exists (Z.max seq (max_rowid rows) + 1).
  split; [reflexivity|].
  split; [unfold rows_of; now rewrite db_set_same|].
  split; [apply ids_below_fresh|].
  intros t Hne. apply db_set_other. congruence.
Qed.

Lemma crear_backup_witness :
  exists rid,
    fst (crear_backup sqlite "erp.bak" "/var/backups" (Some 1) true seeded)
    = Ret (Some rid)
    /\ rows_of (tables (self_conn
                  (snd (crear_backup sqlite "erp.bak" "/var/backups" (Some 1)
                          true seeded)))) "Backups"
       = rows_of (tables (self_conn seeded)) "Backups"
         ++ [backup_row rid "erp.bak" "/var/backups" (Some 1) true
                        (clock (self_conn seeded))].
Proof.
  destruct (@crear_backup_spec seeded "erp.bak" "/var/backups" (Some 1) true
              seeded_initialised)
    as (rid & Hret & Hrows & _).
  exists rid. split; [exact Hret|exact Hrows].
Defined.

(** X5.  On an initialised database [registrar_auditoria] with an action
    appends exactly one row to Auditoria and returns its id, above every
    id of the table; earlier rows stay as they are and no other table is
    written.  With [None] for the action the NOT NULL constraint rejects
    the row: the call prints the driver's message, returns [None] and
    leaves the log as it was. *)
Theorem registrar_auditoria_spec :
  forall w usuario_id accion modulo descripcion ip_address user_agent,
    let d := tables (self_conn w) in
    initialised d ->
    let out := registrar_auditoria sqlite usuario_id accion modulo
                 descripcion ip_address user_agent w in
    let d' := tables (self_conn (snd out)) in
    match accion with
    | Some a =>
        exists rid,
          fst out = Ret (Some rid)
          /\ rows_of d' "Auditoria"
             = rows_of d "Auditoria"
               ++ [auditoria_row rid usuario_id a modulo descripcion
                                 ip_address user_agent (clock (self_conn w))]
          /\ ids_below rid (rows_of d "Auditoria")
          /\ (forall t, t <> "Auditoria" -> d' t = d t)
    | None =>
        fst out = Ret None
        /\ d' = d
        /\ stdout (snd out)
           = stdout w
             ++ ["Error en operación: NOT NULL constraint failed: Auditoria.accion"]
    end.
Proof.
  intros w usuario_id accion modulo descripcion ip_address user_agent d
         Hinit out d'.
  destruct (@initialised_table _ "Auditoria" Auditoria_schema Hinit)
    as (rows & seq & Ht & _ & Hrows); [is_declared|].
  rewrite Hrows. subst d' out. unfold registrar_auditoria.
  rewrite execute_sqlite. cbv zeta.
  destruct accion as [a|]; cbn [str_or_none].
  - erewrite insert_auditoria_run by exact Ht.
    cbn [fst snd self_conn tables].
    exists (Z.max seq (max_rowid rows) + 1).
    split; [reflexivity|].
    split; [unfold rows_of; now rewrite db_set_same|].
    split; [apply ids_below_fresh|].
    intros t Hne. apply db_set_other. congruence.
  - erewrite insert_auditoria_null by exact Ht.
    cbn. repeat split.
Qed.

Lemma registrar_auditoria_witness :
  (exists rid,
     fst (registrar_auditoria sqlite (Some 1) (Some "login") (Some "sesion")
            None None None seeded)
     = Ret (Some rid)
     /\ ids_below rid (rows_of (tables (self_conn seeded)) "Auditoria"))
  /\ fst (registrar_auditoria sqlite (Some 1) None (Some "sesion")
            None None None seeded)
     = Ret None.
Proof.
  split.
  - destruct (@registrar_auditoria_spec seeded (Some 1) (Some "login")
                (Some "sesion") None None None seeded_initialised)
      as (rid & Hret & _ & Hids & _).
    exists rid. split; [exact Hret|exact Hids].
  - exact (proj1 (@registrar_auditoria_spec seeded (Some 1) None
                    (Some "sesion") None None None seeded_initialised)).
Defined.

(** ** Inventory movements *)



(** X7.  On an initialised database, and as long as the product, the
    quantity [q], the stock [s] and [s + q] are integers that SQLite
    stores, an incoming movement of [q] units followed by an outgoing
    movement of [q] units of the same product returns the stock to its
    value and leaves two more rows in MovimientosInventario. *)
Theorem entrada_then_salida_restores_stock :
  forall w pid q motivo1 motivo2 referencia usuario_id s,
    let d := tables (self_conn w) in
    initialised d ->
    stock_of (rows_of d "Productos") pid = Some (Int s) ->
    int64 pid = true -> int64 q = true -> int64 s = true ->
    int64 (s + q) = true ->
    is_text_or_null referencia = true ->
    is_int_or_null usuario_id = true ->
    let w1 := snd (registrar_movimiento_inventario sqlite3 pid "entrada" q
                     motivo1 referencia usuario_id w) in
    let out := registrar_movimiento_inventario sqlite3 pid "salida" q
                 motivo2 referencia usuario_id w1 in
    let d2 := tables (self_conn (snd out)) in
    fst out = Ret (Int s)
    /\ stock_of (rows_of d2 "Productos") pid = Some (Int s)
    /\ length (rows_of d2 "MovimientosInventario")
       = (2 + length (rows_of d "MovimientosInventario"))%nat.
Proof.
  intros w pid q motivo1 motivo2 referencia usuario_id s d Hinit Hs
         Ipid Iq Is Isum Tref Tuid w1 out d2.
  destruct (@initialised_table _ "Productos" Productos_schema Hinit)
    as (prods & pseq & Hp & Hwf & Hrows); [is_declared|].
  destruct (@initialised_table _ "MovimientosInventario"
              MovimientosInventario_schema Hinit)
    as (movs & mseq & Hm & _ & Hmrows); [is_declared|].
  rewrite Hrows in Hs. rewrite Hmrows.
  assert (Bref : bindable referencia = true)
    by (destruct referencia; try discriminate Tref; reflexivity).
  assert (Buid : bindable usuario_id = true)
    by (destruct usuario_id; try discriminate Tuid; [reflexivity|exact Tuid]).
  assert (Hback : expected_stock "salida" (expected_stock "entrada" s q) q = s)
    by (cbn; lia).
  subst d2 out w1.
  rewrite (@registrar_sqlite3 w pid "entrada" q motivo1 referencia usuario_id
             s prods pseq Hp Hs Ipid Iq Is Isum Bref Buid).
  destruct (@registrar_on_tables w pid "entrada" q motivo1 referencia
              usuario_id s prods pseq movs mseq Hp Hm Hwf Hs)
    as (_ & (prods1 & Hp1 & Hs1 & _) & (rid1 & Hm1)).
  set (w1 := snd (registrar_movimiento_inventario sqlite pid "entrada" q
                    motivo1 referencia usuario_id w)) in *.
  assert (Hinit1 : initialised (tables (self_conn w1))).
  { subst w1. apply keeps_registrar; [exact initialised_statements|exact Hinit]. }
  assert (Hwf1 : well_formed Productos_schema prods1).
  { destruct Hinit1 as [_ Hw]. exact (Hw _ _ Hp1). }
  cbn [expected_stock String.eqb] in Hs1.
  rewrite (@registrar_sqlite3 w1 pid "salida" q motivo2 referencia usuario_id
             (s + q) prods1 pseq Hp1 Hs1 Ipid Iq Isum
             ltac:(cbn [expected_stock String.eqb Ascii.eqb Bool.eqb];
                   replace (s + q - q) with s by lia; exact Is)
             Bref Buid).
  destruct (@registrar_on_tables w1 pid "salida" q motivo2 referencia
              usuario_id _ prods1 pseq _ _ Hp1 Hm1 Hwf1 Hs1)
    as (Hret & (prods2 & Hp2 & Hs2 & _) & (rid2 & Hm2)).
  rewrite Hback in Hret, Hs2.
  split; [exact Hret|].
  unfold rows_of. rewrite Hp2, Hm2. cbn [trows].
  split; [exact Hs2|].
  rewrite !length_app. cbn. lia.
Qed.

Lemma entrada_then_salida_restores_stock_witness :
  let w1 := snd (registrar_movimiento_inventario sqlite3 2 "entrada" 5
                   "compra" Null Null seeded) in
  stock_of (rows_of (tables (self_conn seeded)) "Productos") 2
  = Some (Int 105)
  /\ fst (registrar_movimiento_inventario sqlite3 2 "salida" 5 "devolucion"
            Null Null w1)
     = Ret (Int 105).
Proof.
  intros w1. subst w1.
  assert (Hs : stock_of (rows_of (tables (self_conn seeded)) "Productos") 2
               = Some (Int 105)) by (vm_compute; reflexivity).
  split; [exact Hs|].
  exact (proj1 (@entrada_then_salida_restores_stock seeded 2 5 "compra"
                  "devolucion" Null Null 105 seeded_initialised Hs
                  eq_refl eq_refl eq_refl eq_refl eq_refl eq_refl)).
Defined.

End AdditionalFacts.

Module ClientsEditFacts.

Import Sql SqlFacts Py Gateway GatewayFacts PyStr Clients ClientsFacts ClientsEdit.
Import Additional AdditionalFacts.

(** ** ORDER BY keeps the rows *)

Lemma insert_sorted_not_nil idx r rs : insert_sorted idx r rs <> [].
Proof. destruct rs as [|r' rs]; cbn; [discriminate|]. destruct (row_leb idx r r'); discriminate. Qed.

Lemma In_insert_sorted idx r rs x :
  In x (insert_sorted idx r rs) -> x = r \/ In x rs.
Proof.
  induction rs as [|r' rs IH]; cbn.
  - intros [<-|[]]. now left.
  - destruct (row_leb idx r r'); cbn.
    + intros [<-|H]; [now left|now right].
    + intros [<-|H]; [right; now left|].
      destruct (IH H) as [->|Hin]; [now left|right; now right].
Qed.

Lemma In_order_rows idx rs x : In x (order_rows idx rs) -> In x rs.
Proof.
  unfold order_rows. destruct idx as [|i idx]; [tauto|].
  induction rs as [|r rs IH]; cbn; [tauto|].
  intros H. apply In_insert_sorted in H. destruct H as [->|H]; [now left|].
  right. now apply IH.
Qed.

Lemma order_rows_nil idx rs : order_rows idx rs = [] <-> rs = [].
Proof.
  unfold order_rows. destruct idx as [|i idx]; [tauto|].
  destruct rs as [|r rs]; cbn; [tauto|].
  split; [|discriminate]. intros H. now apply insert_sorted_not_nil in H.
Qed.

(** ** The list of clients *)

Lemma select_clientes_run d clk combo rows seq :
  d "Clientes" = Some (Table Clientes_schema rows seq) ->
  sqlite_run
    (if String.eqb combo "Solo activos" then select_clientes (Some 1)
     else if String.eqb combo "Solo inactivos" then select_clientes (Some 0)
     else select_clientes None) [] d clk
  = inr (map cells (order_rows [2%nat; 1%nat] (listed combo rows)), d, None).
Proof.
  intros H. unfold listed.
  destruct (String.eqb combo "Solo activos");
    [|destruct (String.eqb combo "Solo inactivos")];
    unfold sqlite_run, select_clientes, run_select, get_table;
    cbn -[order_rows]; rewrite H; cbn -[order_rows]; try reflexivity.
  now rewrite filter_all.
Qed.

Lemma listed_In combo rows r : In r (listed combo rows) -> In r rows.
Proof.
  unfold listed.
  destruct (String.eqb combo "Solo activos");
    [|destruct (String.eqb combo "Solo inactivos")];
    try tauto; intros H; apply filter_In in H; tauto.
Qed.

(** The frame after [load_clients], on a database whose Clientes table
    has the declared columns. *)
Lemma load_clients_eq (f : frame conn) rows seq :
  tables (self_conn (db f)) "Clientes"
  = Some (Table Clientes_schema rows seq) ->
  well_formed Clientes_schema rows ->
  load_clients sqlite f
  = Frame (World (Conn (tables (self_conn (db f)))
                       (lastrowid (self_conn (db f))) []
                       (clock (self_conn (db f))))
                 (stdout (db f)
                  ++ match listed (filter_combo f) rows with
                     | [] => []
                     | _ :: _ =>
                         ["Error cargando clientes: too many values to unpack (expected 9)"]
                     end)
                 (wallclock (db f)))
          (current_client_id f) (nombre_input f) (apellido_input f)
          (dni_input f) (telefono_input f) (email_input f)
          (direccion_input f) (activo_check f) (filter_combo f) []
          (focus f) (dialogs f) (answers f) (asked f).
Proof.
  intros Ht Hwf. unfold load_clients.
  unfold on_db at 1. rewrite fetch_sqlite. cbv zeta.
  erewrite select_clientes_run by exact Ht.
  cbn [fst snd]. unfold populate_table.
  destruct (order_rows [2%nat; 1%nat] (listed (filter_combo f) rows))
    as [|r rs] eqn:Hord.
  - apply order_rows_nil in Hord. rewrite Hord. cbn.
    now rewrite app_nil_r.
  - assert (Hin : In r rows).
    { apply listed_In with (combo := filter_combo f).
      apply In_order_rows with (idx := [2%nat; 1%nat]). rewrite Hord. now left. }
    unfold well_formed in Hwf. rewrite Forall_forall in Hwf.
    specialize (Hwf r Hin). cbn in Hwf.
    assert (Hne : listed (filter_combo f) rows <> []).
    { intros E. apply (order_rows_nil [2%nat; 1%nat]) in E. congruence. }
    destruct (listed (filter_combo f) rows) as [|x xs]; [congruence|].
    cbn [map populate_rows]. rewrite Hwf. cbn. reflexivity.
Qed.

(** X8.  On an initialised database [load_clients] leaves the table
    widget empty, whatever the filter and the clients stored: a row of
    Clientes has twelve columns, so unpacking the first row read into
    nine names raises [ValueError], which is printed.  The form, the
    selection and the database stay as they are. *)
Theorem load_clients_lists_nothing :
  forall f : frame conn,
    let d := tables (self_conn (db f)) in
    initialised d ->
    let f' := load_clients sqlite f in
    clients_table f' = []
    /\ (listed (filter_combo f) (rows_of d "Clientes") <> [] ->
        stdout (db f')
        = stdout (db f)
          ++ ["Error cargando clientes: too many values to unpack (expected 9)"])
    /\ tables (self_conn (db f')) = d
    /\ same_form f f'.
Proof.
  intros f d Hinit f'.
  destruct (@initialised_table _ "Clientes" Clientes_schema Hinit)
    as (rows & seq & Ht & Hwf & Hrows); [is_declared|].
  subst f'. rewrite (load_clients_eq f Ht Hwf), Hrows. cbn.
  split; [reflexivity|]. split.
  - intros Hne. destruct (listed (filter_combo f) rows); [congruence|reflexivity].
  - split; [reflexivity|]. repeat split.
Qed.

Lemma load_clients_lists_nothing_witness :
  let f := frame_on seeded 1 Yes in
  length (rows_of (tables (self_conn (db f))) "Clientes") = 4%nat
  /\ clients_table (load_clients sqlite f) = []
  /\ stdout (db (load_clients sqlite f))
     = ["Error cargando clientes: too many values to unpack (expected 9)"].
Proof.
  intros f. subst f.
  split; [vm_compute; reflexivity|].
  destruct (@load_clients_lists_nothing (frame_on seeded 1 Yes)
              seeded_initialised) as (Htab & Hout & _).
  split; [exact Htab|].
  rewrite Hout; [vm_compute; reflexivity|vm_compute; discriminate].
Defined.

(** ** Loading a client into the form *)

Lemma select_cliente_run d clk id rows seq :
  d "Clientes" = Some (Table Clientes_schema rows seq) ->
  sqlite_run select_cliente [Int id] d clk
  = inr (map cells (filter (id_is id) rows), d, None).
Proof.
  intros H. unfold sqlite_run, select_cliente, run_select, get_table.
  cbn. rewrite H. reflexivity.
Qed.

Section Details.

Variable qt_text : sqlval -> result ustring.

Lemma load_client_details_eq (f : frame conn) id rows seq :
  tables (self_conn (db f)) "Clientes"
  = Some (Table Clientes_schema rows seq) ->
  well_formed Clientes_schema rows ->
  load_client_details sqlite qt_text id f
  = Frame (World (Conn (tables (self_conn (db f)))
                       (lastrowid (self_conn (db f))) []
                       (clock (self_conn (db f))))
                 (stdout (db f)
                  ++ match filter (id_is id) rows with
                     | [] => []
                     | _ :: _ =>
                         ["Error cargando detalles del cliente: too many values to unpack (expected 9)"]
                     end)
                 (wallclock (db f)))
          (current_client_id f) (nombre_input f) (apellido_input f)
          (dni_input f) (telefono_input f) (email_input f)
          (direccion_input f) (activo_check f) (filter_combo f)
          (clients_table f) (focus f) (dialogs f) (answers f) (asked f).
Proof.
  intros Ht Hwf. unfold load_client_details, load_client_details_body, sbind.
  unfold on_db at 1. rewrite fetch_sqlite. cbv zeta.
  erewrite select_cliente_run by exact Ht.
  cbn [fst snd].
  destruct (filter (id_is id) rows) as [|r rs] eqn:Hf.
  - cbn. now rewrite app_nil_r.
  - assert (Hin : In r rows).
    { assert (H : In r (filter (id_is id) rows)) by (rewrite Hf; now left).
      apply filter_In in H. tauto. }
    unfold well_formed in Hwf. rewrite Forall_forall in Hwf.
    specialize (Hwf r Hin). cbn in Hwf.
    destruct r as [rid cs]. cbn [cells] in Hwf.
    do 12 (destruct cs as [|? cs]; [discriminate Hwf|]).
    destruct cs; [|discriminate Hwf].
    cbn. reflexivity.
Qed.

(** X9.  On an initialised database [load_client_details] selects no
    client and fills no field of the form: when a client with the id
    exists, unpacking its twelve columns into nine names raises
    [ValueError], which is printed; when none exists nothing is done.
    The database, the table widget and the dialogs stay as they are. *)
Theorem load_client_details_never_selects :
  forall (f : frame conn) id,
    let d := tables (self_conn (db f)) in
    initialised d ->
    let f' := load_client_details sqlite qt_text id f in
    same_form f f'
    /\ tables (self_conn (db f')) = d
    /\ clients_table f' = clients_table f
    /\ dialogs f' = dialogs f
    /\ (filter (id_is id) (rows_of d "Clientes") <> [] ->
        stdout (db f')
        = stdout (db f)
          ++ ["Error cargando detalles del cliente: too many values to unpack (expected 9)"]).
Proof.
  intros f id d Hinit f'.
  destruct (@initialised_table _ "Clientes" Clientes_schema Hinit)
    as (rows & seq & Ht & Hwf & Hrows); [is_declared|].
  subst f'. rewrite (load_client_details_eq f id Ht Hwf), Hrows. cbn.
  split; [repeat split|]. split; [reflexivity|].
  split; [reflexivity|]. split; [reflexivity|].
  intros Hne. destruct (filter (id_is id) rows); [congruence|reflexivity].
Qed.

End Details.

Lemma load_client_details_never_selects_witness :
  let f := filled seeded "" "" "" "" in
  let f' := load_client_details sqlite ascii_text 1 f in
  current_client_id f' = None
  /\ nombre_input f' = []
  /\ stdout (db f')
     = ["Error cargando detalles del cliente: too many values to unpack (expected 9)"].
Proof.
  intros f f'. subst f f'.
  destruct (@load_client_details_never_selects ascii_text
              (filled seeded "" "" "" "") 1 seeded_initialised)
    as ((Hc & Hn & _) & _ & _ & _ & Hout).
  split; [exact Hc|]. split; [exact Hn|].
  rewrite Hout; [vm_compute; reflexivity|vm_compute; discriminate].
Defined.

(** ** Saving a client *)

Lemma validate_form_true {C} (f : frame C) :
  fst (validate_form f) = true -> validate_form f = (true, f).
Proof.
  unfold validate_form.
  repeat match goal with
         | |- context [if ?b then _ else _] => destruct b
         end; cbn; try discriminate; reflexivity.
Qed.

Lemma filter_existsb_false {A} (q : A -> bool) l :
  existsb q l = false ->
  filter (fun r => q r || false) l = []
  /\ filter (fun r => negb (q r || false)) l = l.
Proof.
  induction l as [|x l IH]; cbn; [now split|].
  intros H. apply orb_false_iff in H. destruct H as [Hx Hl].
  rewrite Hx. cbn. destruct (IH Hl) as [-> ->]. now split.
Qed.

Lemma filter_existsb_true {A} (q : A -> bool) l :
  existsb q l = true ->
  exists x xs, filter (fun r => q r || false) l = x :: xs /\ q x = true.
Proof.
  induction l as [|x l IH]; cbn; [discriminate|].
  destruct (q x) eqn:Hx; cbn.
  - intros _. eauto.
  - exact IH.
Qed.

Lemma insert_cliente_run d clk n a dni tel em dir fecha (activo : bool)
    rows seq :
  d "Clientes" = Some (Table Clientes_schema rows seq) ->
  let rid := Z.max seq (max_rowid rows) + 1 in
  let dni' := str_or_none dni in
  sqlite_run insert_cliente
    [Text n; Text a; dni'; str_or_none tel; str_or_none em;
     str_or_none dir; Text fecha; Int (if activo then 1 else 0)] d clk
  = if dni_taken dni' rows
    then inl (IntegrityError "UNIQUE constraint failed: Clientes.dni")
    else inr ([],
              db_set d "Clientes"
                (Table Clientes_schema
                   (rows ++ [cliente_row rid n a dni' (str_or_none tel)
                               (str_or_none em) (str_or_none dir) fecha activo])
                   (Z.max seq rid)),
              Some rid).
Proof.
  intros H rid dni'. unfold sqlite_run, insert_cliente, insert_into, run_insert, get_table.
  cbn. rewrite H. cbn. unfold conflicts. cbn.
  unfold dni_taken.
  destruct (existsb (fun r => sql_eqb (cell r 3) dni') rows) eqn:Hex.
  - apply filter_existsb_true in Hex. destruct Hex as (x & xs & -> & Hx).
    unfold unique_failed. cbn. rewrite Hx. reflexivity.
  - apply filter_existsb_false in Hex. destruct Hex as [-> ->].
    reflexivity.
Qed.

Section Saving.

Variable encode : ustring -> option string.
Variable encode_error : ustring -> string.

Lemma bound_shape p v :
  bound encode p = Some v -> exists o, v = str_or_none o.
Proof.
  destruct p as [s|]; cbn.
  - destruct (encode s) as [b|]; cbn; [|discriminate].
    intros H. inversion H. now exists (Some b).
  - intros H. inversion H. now exists None.
Qed.

Lemma bind_param_bound {C} p v (f : frame C) :
  bound encode p = Some v ->
  bind_param encode encode_error p f = (Ret v, f).
Proof.
  destruct p as [s|]; cbn.
  - destruct (encode s) as [b|]; cbn; [|discriminate].
    intros H. now inversion H.
  - intros H. now inversion H.
Qed.

Lemma bind_params_bound {C} ps vs (f : frame C) :
  Forall2 (fun p v => bound encode p = Some v) ps vs ->
  bind_params encode encode_error ps f = (Ret vs, f).
Proof.
  induction 1 as [|p v ps vs Hp _ IH]; cbn; [reflexivity|].
  unfold sbind. erewrite bind_param_bound by exact Hp. rewrite IH. reflexivity.
Qed.

(** A valid form with no client selected: the statement is executed,
    the success box is shown, the form is cleared and the list is
    reloaded. *)
Lemma save_client_new (f : frame conn) n a dni tel em dir :
  fst (validate_form f) = true ->
  current_client_id f = None ->
  encode (strip (nombre_input f)) = Some n ->
  encode (strip (apellido_input f)) = Some a ->
  bound encode (or_none (strip (dni_input f))) = Some dni ->
  bound encode (or_none (strip (telefono_input f))) = Some tel ->
  bound encode (or_none (strip (email_input f))) = Some em ->
  bound encode (or_none (strip (direccion_input f))) = Some dir ->
  save_client sqlite encode encode_error f
  = load_clients sqlite
      (clear_form
         (open_dialog (show_success "Cliente Registrado"
                                    "Cliente registrado correctamente")
            (snd (on_db (execute sqlite insert_cliente
                           [Text n; Text a; dni; tel; em; dir;
                            Text (wallclock (db f));
                            Int (if activo_check f then 1 else 0)])
                        f)))).
Proof.
  intros Hv Hcur Hn Ha Hd Ht He Hg.
  unfold save_client. rewrite (validate_form_true f Hv). cbn [negb].
  unfold save_client_body. rewrite Hcur.
  destruct f as [w cur nom ape dn tl eml drc act combo tab foc dlg ans ask].
  cbn [db current_client_id nombre_input apellido_input dni_input
       telefono_input email_input direccion_input activo_check] in *.
  subst cur.
  assert (Hps : Forall2 (fun p v => bound encode p = Some v)
                  [Some (strip nom); Some (strip ape); or_none (strip dn);
                   or_none (strip tl); or_none (strip eml);
                   or_none (strip drc)]
                  [Text n; Text a; dni; tel; em; dir]).
  { repeat constructor; cbn; try assumption.
    - now rewrite Hn.
    - now rewrite Ha. }
  cbv beta iota zeta delta [sbind on_db datetime_now db wallclock].
  erewrite bind_params_bound by exact Hps.
  cbv beta iota zeta delta [app snd ui_ db].
  rewrite execute_sqlite. cbv zeta.
  destruct (sqlite_run insert_cliente _ _ _) as [e|[[rs d'] rid]];
    reflexivity.
Qed.

Lemma wf_cliente_row rid n a dni tel em dir fecha activo rows :
  well_formed Clientes_schema rows ->
  well_formed Clientes_schema
    (rows ++ [cliente_row rid n a dni tel em dir fecha activo]).
Proof.
  intros H. apply Forall_app. split; [exact H|].
  constructor; [reflexivity|constructor].
Qed.

(** X10.  On an initialised database, [save_client] on a valid form with
    no client selected, whose identity number no client carries, appends
    one row to Clientes: the stripped name and surname, the optional
    fields as text or NULL when blank, the local time, the active flag,
    and the defaults of the other columns.  No other table is written,
    the success box is shown and the form is cleared. *)
Theorem save_client_registers :
  forall (f : frame conn) n a dni tel em dir,
    let d := tables (self_conn (db f)) in
    initialised d ->
    fst (validate_form f) = true ->
    current_client_id f = None ->
    encode (strip (nombre_input f)) = Some n ->
    encode (strip (apellido_input f)) = Some a ->
    bound encode (or_none (strip (dni_input f))) = Some dni ->
    bound encode (or_none (strip (telefono_input f))) = Some tel ->
    bound encode (or_none (strip (email_input f))) = Some em ->
    bound encode (or_none (strip (direccion_input f))) = Some dir ->
    dni_taken dni (rows_of d "Clientes") = false ->
    let f' := save_client sqlite encode encode_error f in
    let d' := tables (self_conn (db f')) in
    exists rid,
      rows_of d' "Clientes"
      = rows_of d "Clientes"
        ++ [cliente_row rid n a dni tel em dir (wallclock (db f))
                        (activo_check f)]
      /\ ids_below rid (rows_of d "Clientes")
      /\ (forall t, t <> "Clientes" -> d' t = d t)
      /\ dialogs f'
         = dialogs f ++ [show_success "Cliente Registrado"
                                      "Cliente registrado correctamente"]
      /\ blank f'.
Proof.
  intros f n a dni tel em dir d Hinit Hv Hcur Hn Ha Hd Ht He Hg Hfree f' d'.
  destruct (@initialised_table _ "Clientes" Clientes_schema Hinit)
    as (rows & seq & Htab & Hwf & Hrows); [is_declared|].
  rewrite Hrows in *. subst d' f'.
  rewrite (save_client_new f Hv Hcur Hn Ha Hd Ht He Hg).
  destruct (bound_shape _ Hd) as (od & ->).
  destruct (bound_shape _ Ht) as (ot & ->).
  destruct (bound_shape _ He) as (oe & ->).
  destruct (bound_shape _ Hg) as (og & ->).
  unfold on_db. rewrite execute_sqlite. cbv zeta.
  erewrite insert_cliente_run by exact Htab. rewrite Hfree.
  cbn [snd].
  erewrite load_clients_eq;
    [|cbn; reflexivity
     |apply wf_cliente_row; exact Hwf].
  cbn -[db_set]. exists (Z.max seq (max_rowid rows) + 1).
  split; [unfold rows_of; now rewrite db_set_same|].
  split; [apply ids_below_fresh|].
  split; [intros t Hne; apply db_set_other; congruence|].
  split; [reflexivity|]. repeat split.
Qed.

(** X11.  On an initialised database, [save_client] on a valid form
    with no client selected, whose identity number a client already
    carries, writes nothing: the driver's UNIQUE error is printed by the
    gateway, and the frame shows the box "Cliente Registrado" all the
    same and clears the form. *)
Theorem save_client_duplicate_dni :
  forall (f : frame conn) n a dni tel em dir,
    let d := tables (self_conn (db f)) in
    initialised d ->
    fst (validate_form f) = true ->
    current_client_id f = None ->
    encode (strip (nombre_input f)) = Some n ->
    encode (strip (apellido_input f)) = Some a ->
    bound encode (or_none (strip (dni_input f))) = Some dni ->
    bound encode (or_none (strip (telefono_input f))) = Some tel ->
    bound encode (or_none (strip (email_input f))) = Some em ->
    bound encode (or_none (strip (direccion_input f))) = Some dir ->
    dni_taken dni (rows_of d "Clientes") = true ->
    let f' := save_client sqlite encode encode_error f in
    tables (self_conn (db f')) = d
    /\ (exists rest,
          stdout (db f')
          = stdout (db f)
            ++ "Error en operación: UNIQUE constraint failed: Clientes.dni"
               :: rest)
    /\ dialogs f'
       = dialogs f ++ [show_success "Cliente Registrado"
                                    "Cliente registrado correctamente"]
    /\ blank f'.
Proof.
  intros f n a dni tel em dir d Hinit Hv Hcur Hn Ha Hd Ht He Hg Htaken f'.
  destruct (@initialised_table _ "Clientes" Clientes_schema Hinit)
    as (rows & seq & Htab & Hwf & Hrows); [is_declared|].
  rewrite Hrows in *. subst f'.
  rewrite (save_client_new f Hv Hcur Hn Ha Hd Ht He Hg).
  destruct (bound_shape _ Hd) as (od & ->).
  destruct (bound_shape _ Ht) as (ot & ->).
  destruct (bound_shape _ He) as (oe & ->).
  destruct (bound_shape _ Hg) as (og & ->).
  unfold on_db. rewrite execute_sqlite. cbv zeta.
  erewrite insert_cliente_run by exact Htab. rewrite Htaken.
  cbn [snd].
  erewrite load_clients_eq; [|cbn; exact Htab|exact Hwf].
  cbn. split; [reflexivity|]. split.
  - eexists. rewrite <- app_assoc. reflexivity.
  - split; [reflexivity|]. repeat split.
Qed.

End Saving.

Lemma save_client_registers_witness :
  let f := filled seeded " Luis " "Mejia" "0801199012345" "luis@mail.hn" in
  let f' := save_client sqlite ascii_bytes (fun _ => "") f in
  exists rid,
    rows_of (tables (self_conn (db f'))) "Clientes"
    = rows_of (tables (self_conn (db f))) "Clientes"
      ++ [cliente_row rid "Luis" "Mejia" (Text "0801199012345") Null
            (Text "luis@mail.hn") Null "2024-05-01 04:00:00" true].
Proof.
  intros f f'. subst f f'.
  destruct (@save_client_registers ascii_bytes (fun _ => "")
              (filled seeded " Luis " "Mejia" "0801199012345" "luis@mail.hn")
              "Luis" "Mejia" (Text "0801199012345") Null
              (Text "luis@mail.hn") Null seeded_initialised)
    as (rid & Hrows & _); try (vm_compute; reflexivity).
  exists rid. rewrite Hrows. vm_compute. reflexivity.
Defined.

Lemma save_client_duplicate_dni_witness :
  let f := filled seeded "Luis" "Mejia" "0801199901234" "" in
  let f' := save_client sqlite ascii_bytes (fun _ => "") f in
  dni_taken (Text "0801199901234")
    (rows_of (tables (self_conn (db f))) "Clientes") = true
  /\ tables (self_conn (db f')) = tables (self_conn (db f))
  /\ dialogs f' = [show_success "Cliente Registrado"
                                "Cliente registrado correctamente"].
Proof.
  intros f f'. subst f f'.
  assert (Ht : dni_taken (Text "0801199901234")
                 (rows_of (tables (self_conn
                    (db (filled seeded "Luis" "Mejia" "0801199901234" ""))))
                    "Clientes") = true)
    by (vm_compute; reflexivity).
  destruct (@save_client_duplicate_dni ascii_bytes (fun _ => "")
              (filled seeded "Luis" "Mejia" "0801199901234" "")
              "Luis" "Mejia" (Text "0801199901234") Null Null Null
              seeded_initialised)
    as (Htab & _ & Hdlg & _); try (vm_compute; reflexivity).
  split; [exact Ht|]. split; [exact Htab|exact Hdlg].
Defined.

(** ** Deleting a client: the other answers *)

Lemma delete_detalle_run d clk cid det dseq ventas vseq :
  d "DetalleVenta" = Some (Table DetalleVenta_schema det dseq) ->
  d "Ventas" = Some (Table Ventas_schema ventas vseq) ->
  sqlite_run delete_detalle [Int cid] d clk
  = inr ([], db_set d "DetalleVenta"
               (Table DetalleVenta_schema
                  (filter (fun r => negb (detail_of cid ventas r)) det) dseq),
         None).
Proof.
  intros Hd Hv. unfold sqlite_run, delete_detalle, run_delete, get_table.
  simpl. rewrite Hd. simpl. unfold get_table. rewrite Hv. simpl. reflexivity.
Qed.

Lemma delete_ventas_run d clk cid ventas vseq :
  d "Ventas" = Some (Table Ventas_schema ventas vseq) ->
  sqlite_run delete_ventas [Int cid] d clk
  = inr ([], db_set d "Ventas"
               (Table Ventas_schema
                  (filter (fun r => negb (sql_eqb (cell r 9) (Int cid))) ventas)
                  vseq),
         None).
Proof.
  intros Hv. unfold sqlite_run, delete_ventas, run_delete, get_table.
  cbn. rewrite Hv. reflexivity.
Qed.

Lemma well_formed_filter s (p : row -> bool) rows :
  well_formed s rows -> well_formed s (filter p rows).
Proof.
  unfold well_formed. rewrite !Forall_forall. intros H r Hin.
  apply filter_In in Hin. now apply H.
Qed.

(** X12.  On an initialised database, with a client selected,
    [delete_client] deletes and changes no row when the user answers No:
    to the one confirmation, for a client without sales; to both
    questions, for a client with sales.  The form is cleared and the
    selection dropped all the same. *)
Theorem delete_client_declined :
  forall (f : frame conn) cid,
    let d := tables (self_conn (db f)) in
    current_client_id f = Some cid -> cid <> 0 ->
    initialised d ->
    answers f (asked f) = No ->
    answers f (S (asked f)) = No ->
    let f' := delete_client sqlite f in
    tables (self_conn (db f')) = d
    /\ dialogs f'
       = dialogs f
         ++ match sales_of cid (rows_of d "Ventas") with
            | [] => [show_question "Confirmación"
                                   "¿Está seguro de eliminar este cliente?"]
            | _ :: _ => [show_question "Cliente con Ventas" deactivate_question;
                         show_question "Confirmación" cascade_question]
            end
    /\ blank f'.
Proof.
  intros f cid d Hcur Hz Hinit Ha1 Ha2 f'.
  destruct (@initialised_table _ "Clientes" Clientes_schema Hinit)
    as (clientes & cseq & Hc & Hwf & _); [is_declared|].
  destruct (@initialised_table _ "Ventas" Ventas_schema Hinit)
    as (ventas & vseq & Hv & _ & Hventas); [is_declared|].
  rewrite Hventas. subst f'.
  assert (E : exists g,
             delete_client sqlite f = g
             /\ tables (self_conn (db g)) = d
             /\ dialogs g
                = dialogs f
                  ++ match sales_of cid ventas with
                     | [] => [show_question "Confirmación"
                                "¿Está seguro de eliminar este cliente?"]
                     | _ :: _ =>
                         [show_question "Cliente con Ventas" deactivate_question;
                          show_question "Confirmación" cascade_question]
                     end
             /\ blank g).
  { rewrite (delete_client_selected f Hcur Hz).
    unfold delete_client_body, sbind.
    unfold on_db at 1. rewrite fetch_sqlite. cbv zeta.
    erewrite count_ventas_run by exact Hv.
    destruct (sales_of cid ventas) as [|s ss].
    - cbn -[load_clients]. rewrite Ha1. cbn -[load_clients].
      erewrite load_clients_eq; [|cbn; exact Hc|exact Hwf].
      eexists. split; [reflexivity|].
      cbn. rewrite <- ?app_assoc. repeat split.
    - cbn -[load_clients deactivate_question]. rewrite Ha1.
      cbn -[load_clients deactivate_question]. rewrite Ha2.
      cbn -[load_clients deactivate_question].
      erewrite load_clients_eq; [|cbn; exact Hc|exact Hwf].
      eexists. split; [reflexivity|].
      cbn -[deactivate_question]. rewrite <- ?app_assoc. repeat split. }
  destruct E as (g & -> & H). exact H.
Qed.

Lemma delete_client_declined_witness :
  let f := frame_on with_sale 1 No in
  let f' := delete_client sqlite f in
  tables (self_conn (db f')) = tables (self_conn (db f))
  /\ current_client_id f' = None.
Proof.
  intros f f'. subst f f'.
  destruct (@delete_client_declined (frame_on with_sale 1 No) 1 eq_refl
              ltac:(discriminate) with_sale_initialised eq_refl eq_refl)
    as (Ht & _ & Hb & _).
  split; [exact Ht|exact Hb].
Defined.

(** X13.  On an initialised database, for a selected client who has
    sales, answering No to the offer to deactivate and Yes to the
    confirmation removes the client's row, every sale of the client and
    every detail row of those sales; the other clients, sales and detail
    rows stay, in their order, and no other table is written. *)
Theorem delete_client_cascade :
  forall (f : frame conn) cid,
    let d := tables (self_conn (db f)) in
    current_client_id f = Some cid -> cid <> 0 ->
    initialised d ->
    sales_of cid (rows_of d "Ventas") <> [] ->
    answers f (asked f) = No ->
    answers f (S (asked f)) = Yes ->
    let f' := delete_client sqlite f in
    let d' := tables (self_conn (db f')) in
    rows_of d' "Clientes"
    = filter (fun r => negb (id_is cid r)) (rows_of d "Clientes")
    /\ rows_of d' "Ventas"
       = filter (fun r => negb (sql_eqb (cell r 9) (Int cid)))
                (rows_of d "Ventas")
    /\ rows_of d' "DetalleVenta"
       = filter (fun r => negb (detail_of cid (rows_of d "Ventas") r))
                (rows_of d "DetalleVenta")
    /\ (forall t, t <> "Clientes" -> t <> "Ventas" -> t <> "DetalleVenta" ->
          d' t = d t)
    /\ dialogs f'
       = dialogs f
         ++ [show_question "Cliente con Ventas" deactivate_question;
             show_question "Confirmación" cascade_question;
             show_success "Cliente Eliminado"
                          "Cliente y ventas asociadas eliminados"]
    /\ blank f'.
Proof.
  intros f cid d Hcur Hz Hinit Hs Ha1 Ha2 f' d'.
  destruct (@initialised_table _ "Clientes" Clientes_schema Hinit)
    as (clientes & cseq & Hc & Hwf & Hclientes); [is_declared|].
  destruct (@initialised_table _ "Ventas" Ventas_schema Hinit)
    as (ventas & vseq & Hv & _ & Hventas); [is_declared|].
  destruct (@initialised_table _ "DetalleVenta" DetalleVenta_schema Hinit)
    as (det & dseq & Hd & _ & Hdet); [is_declared|].
  rewrite Hclientes, Hventas, Hdet in *. subst d' f'.
  assert (E : exists g,
             delete_client sqlite f = g
             /\ tables (self_conn (db g))
                = db_set
                    (db_set
                       (db_set d "DetalleVenta"
                          (Table DetalleVenta_schema
                             (filter (fun r => negb (detail_of cid ventas r)) det)
                             dseq))
                       "Ventas"
                       (Table Ventas_schema
                          (filter (fun r => negb (sql_eqb (cell r 9) (Int cid)))
                                  ventas) vseq))
                    "Clientes"
                    (Table Clientes_schema
                       (filter (fun r => negb (id_is cid r)) clientes) cseq)
             /\ dialogs g
                = dialogs f
                  ++ [show_question "Cliente con Ventas" deactivate_question;
                      show_question "Confirmación" cascade_question;
                      show_success "Cliente Eliminado"
                                   "Cliente y ventas asociadas eliminados"]
             /\ blank g).
  { rewrite (delete_client_selected f Hcur Hz).
    unfold delete_client_body, sbind.
    unfold on_db at 1. rewrite fetch_sqlite. cbv zeta.
    erewrite count_ventas_run by exact Hv.
    destruct (sales_of cid ventas) as [|s ss] eqn:Hsales; [congruence|].
    rewrite <- Hsales. clear Hs.
    assert (Hpos : (0 <? Z.of_nat (length (sales_of cid ventas))) = true)
      by (rewrite Hsales; reflexivity).
    cbn -[load_clients deactivate_question sales_of Z.ltb Z.of_nat].
    rewrite Hpos.
    cbn -[load_clients deactivate_question sales_of]. rewrite Ha1.
    cbn -[load_clients deactivate_question sales_of]. rewrite Ha2.
    cbn -[load_clients deactivate_question sales_of execute].
    unfold on_db at 1. rewrite execute_sqlite. cbv zeta.
    cbn [db self_conn tables clock].
    erewrite delete_detalle_run by (first [exact Hd|exact Hv]).
    cbn -[load_clients deactivate_question sales_of execute db_set].
    unfold on_db at 1. rewrite execute_sqlite. cbv zeta.
    cbn [db self_conn tables clock].
    erewrite delete_ventas_run
      by (rewrite db_set_other by discriminate; exact Hv).
    cbn -[load_clients deactivate_question sales_of execute db_set].
    unfold on_db at 1. rewrite execute_sqlite. cbv zeta.
    cbn [db self_conn tables clock].
    erewrite delete_cliente_run
      by (rewrite !db_set_other by discriminate; exact Hc).
    cbn -[load_clients deactivate_question sales_of db_set].
    erewrite load_clients_eq;
      [|cbn -[db_set]; apply db_set_same
       |apply well_formed_filter; exact Hwf].
    eexists. split; [reflexivity|].
    cbn -[deactivate_question sales_of db_set].
    rewrite <- ?app_assoc. repeat split. }
  destruct E as (g & -> & -> & Hdlg & Hblank).
  split; [unfold rows_of, db_set; cbn; reflexivity|].
  split; [unfold rows_of, db_set; cbn; reflexivity|].
  split; [unfold rows_of, db_set; cbn; reflexivity|].
  split; [|split; [exact Hdlg|exact Hblank]].
  intros t H1 H2 H3. rewrite !db_set_other by congruence. reflexivity.
Qed.

Lemma with_detail_initialised : initialised (tables (self_conn with_detail)).
Proof.
  apply (proj1 (proj2 (proj2 database_stays_initialised))).
  exact with_sale_initialised.
Qed.

Lemma delete_client_cascade_witness :
  let f := selecting with_detail 1 no_then_yes in
  let d := tables (self_conn (db f)) in
  let d' := tables (self_conn (db (delete_client sqlite f))) in
  (length (rows_of d "Ventas") = 1%nat
   /\ length (rows_of d "DetalleVenta") = 1%nat)
  /\ rows_of d' "Ventas" = []
  /\ rows_of d' "DetalleVenta" = []
  /\ length (rows_of d' "Clientes") = 3%nat.
Proof.
  intros f d d'. subst f d d'.
  split; [split; vm_compute; reflexivity|].
  destruct (@delete_client_cascade (selecting with_detail 1 no_then_yes) 1
              eq_refl ltac:(discriminate) with_detail_initialised)
    as (Hc & Hv & Hd & _); try reflexivity; [vm_compute; discriminate|].
  rewrite Hc, Hv, Hd. repeat split; vm_compute; reflexivity.
Defined.

End ClientsEditFacts.

Module NotifCenterFacts.

Import Notif NotifFacts NotifCenter.

(** ** Placement *)

Lemma place_nth x y sp ws i p :
  nth_error (place x y sp ws) i = Some p ->
  target_x p = x
  /\ target_y p
     = y + Z.of_nat i * ((height + sp) * (if 0 <? sp then 1 else -1)).
Proof.
  revert y i. induction ws as [|w ws IH]; intros y i H.
  - destruct i; discriminate.
  - destruct i as [|i]; cbn [place nth_error] in H.
    + inversion H; subst. cbn [target_x target_y Z.of_nat].
      split; [reflexivity|ring].
    + apply IH in H. destruct H as [Hx Hy]. split; [exact Hx|].
      rewrite Hy, Nat2Z.inj_succ. unfold Z.succ. ring.
Qed.

(** X14.  [reposition_notifications] stacks the visible notifications in
    one column.  In the top positions each one is placed 130 pixels
    below the one before: 10 pixels apart.  In the position
    "bottom-right" each one is placed 110 pixels above the one before,
    so that consecutive notifications, 120 pixels high, overlap. *)
Theorem reposition_spacing :
  forall position screen_width screen_height m i p q,
    let targets := reposition_notifications position screen_width
                     screen_height m in
    nth_error targets i = Some p ->
    nth_error targets (S i) = Some q ->
    target_x q = target_x p
    /\ if String.eqb position "bottom-right"
       then target_y q = target_y p - 110 /\ overlap p q
       else target_y q = target_y p + 130 /\ ~ overlap p q.
Proof.
  intros position sw sh m i p q targets Hp Hq. subst targets.
  unfold reposition_notifications in Hp, Hq.
  assert (Hstep : forall x y sp,
             nth_error (place x y sp (notification_widgets m)) i = Some p ->
             nth_error (place x y sp (notification_widgets m)) (S i) = Some q ->
             target_x q = target_x p
             /\ target_y q
                = target_y p + (height + sp) * (if 0 <? sp then 1 else -1)).
  { intros x y sp H1 H2. apply place_nth in H1, H2.
    destruct H1 as [H1x H1y], H2 as [H2x H2y].
    split; [congruence|]. rewrite H1y, H2y, Nat2Z.inj_succ.
    unfold Z.succ. ring. }
  destruct (String.eqb_spec position "top-right") as [->|Htop].
  - destruct (Hstep _ _ _ Hp Hq) as [Hx Hy]. cbn in Hy.
    cbn [String.eqb Ascii.eqb Bool.eqb].
    split; [exact Hx|]. unfold overlap, height. split; lia.
  - destruct (String.eqb position "bottom-right");
      destruct (Hstep _ _ _ Hp Hq) as [Hx Hy]; cbn in Hy;
      (split; [exact Hx|]); unfold overlap, height; split; lia.
Qed.

Lemma reposition_spacing_witness :
  let m := Manager [Widget 0 (Data "a" "" "info" 0 None None "" false) 5000;
                    Widget 1 (Data "b" "" "info" 0 None None "" false) 5000]
                   [] [] false 5 5000 30 [] 0 0 2 [] in
  overlap (Placement 0 1540 930) (Placement 1 1540 820).
Proof.
  intros m.
  exact (proj2 (proj2 (@reposition_spacing "bottom-right" 1920 1080 m 0
                         (Placement 0 1540 930) (Placement 1 1540 820)
                         eq_refl eq_refl))).
Defined.

(** ** From submission to display *)

(** X15.  Whatever the events since the manager was created, the
    notifications shown so far followed by the notifications waiting in
    the queue are the notifications submitted, in the order of their
    submission: none is lost, shown twice or overtaken. *)
Theorem notifications_delivered_in_order :
  forall t0 es m,
    run (init t0) es = Some m ->
    shown m ++ map fst (notification_queue m) = submissions (init t0) es.
Proof.
  intros t0 es m Hrun. apply run_delivery in Hrun. exact Hrun.
Qed.

Lemma notifications_delivered_in_order_witness :
  exists m,
    run (init 0) six_submissions = Some m
    /\ map title (shown m) = ["n1"; "n2"; "n3"; "n4"; "n5"]
    /\ map title (map fst (notification_queue m)) = ["n6"]
    /\ shown m ++ map fst (notification_queue m)
       = submissions (init 0) six_submissions.
Proof.
  destruct (run (init 0) six_submissions) as [m|] eqn:Hrun;
    [|vm_compute in Hrun; discriminate].
  exists m. split; [reflexivity|].
  pose proof (@notifications_delivered_in_order 0 six_submissions m Hrun) as H.
  assert (Hm : Some m = run (init 0) six_submissions) by (symmetry; exact Hrun).
  vm_compute in Hm. inversion Hm; subst m. clear Hm.
  split; [reflexivity|]. split; [reflexivity|]. exact H.
Defined.

(** ** Every visible notification will be closed *)

Lemma NoDup_app_cons_snoc {A} (l : list A) a :
  NoDup l -> ~ In a l -> NoDup (l ++ [a]).
Proof.
  intros Hnd Hnot. induction Hnd as [|x l Hx Hnd IH]; cbn.
  - constructor; [tauto|constructor].
  - constructor.
    + intros Hin. apply in_app_or in Hin. destruct Hin as [Hin|[<-|[]]].
      * contradiction.
      * apply Hnot. now left.
    + apply IH. intros Hin. apply Hnot. now right.
Qed.

Lemma remove_widget_In w ws x :
  In x (remove_widget w ws) -> In x ws.
Proof.
  induction ws as [|a ws IH]; cbn; [tauto|].
  destruct (Nat.eqb (wid a) w); cbn; [now right|].
  intros [->|H]; [now left|right; now apply IH].
Qed.

Lemma remove_widget_other w ws x :
  NoDup (map wid ws) -> In x (remove_widget w ws) -> wid x <> w.
Proof.
  induction ws as [|a ws IH]; cbn; [tauto|].
  intros Hnd Hin. inversion Hnd as [|? ? Hnot Hnd']; subst.
  destruct (Nat.eqb_spec (wid a) w) as [<-|Hne].
  - intros E. apply Hnot. rewrite <- E. now apply in_map.
  - destruct Hin as [->|Hin]; [exact Hne|now apply IH].
Qed.

Lemma remove_widget_NoDup w ws :
  NoDup (map wid ws) -> NoDup (map wid (remove_widget w ws)).
Proof.
  induction ws as [|a ws IH]; cbn; [tauto|].
  intros Hnd. inversion Hnd as [|? ? Hnot Hnd']; subst.
  destruct (Nat.eqb (wid a) w); [exact Hnd'|].
  cbn. constructor; [|now apply IH].
  intros Hin. apply Hnot. apply in_map_iff in Hin.
  destruct Hin as (x & Hx & Hin). apply in_map_iff. exists x.
  split; [exact Hx|]. eapply remove_widget_In; eauto.
Qed.

Lemma closable_show_next m : closable m -> closable (show_next_notification m).
Proof.
  intros [Ht [Hnd Hlt]]. unfold show_next_notification.
  destruct (notification_queue m) as [|[d dur] rest].
  - split; [exact Ht|split; assumption].
  - destruct (Nat.leb _ _).
    + split; [|split; assumption].
      intros w Hw. destruct (Ht w Hw) as (tm & Hin & Hc).
      exists tm. split; [cbn; apply in_or_app; now left|exact Hc].
    + cbn. split; [|split].
      * intros w Hw. cbn in Hw. apply in_app_or in Hw.
        destruct Hw as [Hw|[<-|[]]].
        -- destruct (Ht w Hw) as (tm & Hin & Hc). exists tm.
           split; [|exact Hc]. cbn.
           apply in_or_app; left. apply in_or_app; now left.
        -- exists (Timer dur (ticks m + dur)%Z (cb_close (next_wid m))).
           split; [|split; reflexivity]. cbn.
           apply in_or_app; left. apply in_or_app; right. now left.
      * cbn. rewrite map_app. cbn. apply NoDup_app_cons_snoc.
        -- exact Hnd.
        -- intros Hin. apply in_map_iff in Hin.
           destruct Hin as (x & Hx & Hin).
           rewrite Forall_forall in Hlt. specialize (Hlt x Hin). lia.
      * cbn. apply Forall_app. split.
        -- eapply Forall_impl; [|exact Hlt]. cbn. intros; lia.
        -- constructor; [cbn; lia|constructor].
Qed.

Lemma closable_frame m m' :
  notification_widgets m' = notification_widgets m ->
  timers m' = timers m -> next_wid m' = next_wid m ->
  closable m -> closable m'.
Proof.
  intros Hw Ht Hn [Hc [Hnd Hlt]].
  unfold closable, close_timers_pending, widgets_distinct.
  rewrite Hw, Ht, Hn. split; [exact Hc|split; assumption].
Qed.

Lemma closable_on_widget_closed m i tm w :
  nth_error (timers m) i = Some tm -> call tm = cb_close w ->
  closable m ->
  closable (on_widget_closed w (set_timers (drop_nth i (timers m)) m)).
Proof.
  intros Hi Hcall [Hc [Hnd Hlt]]. split; [|split]; cbn.
  - intros x Hx.
    cbn in Hx. pose proof (@remove_widget_other _ _ _ Hnd Hx) as Hne.
    apply remove_widget_In in Hx.
    destruct (Hc x Hx) as (tm' & Hin & Hcl & Hd). exists tm'.
    split; [|split; assumption].
    eapply In_drop_nth; eauto. intros ->. congruence.
  - now apply remove_widget_NoDup.
  - rewrite Forall_forall in *. intros x Hx. apply Hlt.
    eapply remove_widget_In; eauto.
Qed.

Lemma closable_drop_timer m i tm :
  nth_error (timers m) i = Some tm ->
  (forall w, call tm <> cb_close w) ->
  closable m -> closable (set_timers (drop_nth i (timers m)) m).
Proof.
  intros Hi Hcall [Hc [Hnd Hlt]]. split; [|split; assumption]; cbn.
  intros x Hx. destruct (Hc x Hx) as (tm' & Hin & Hcl & Hd). exists tm'.
  split; [|split; assumption].
  eapply In_drop_nth; eauto. intros ->. now apply (Hcall (wid x)).
Qed.

Lemma closable_step m e m' :
  closable m -> step m e = Some m' -> closable m'.
Proof.
  intros Hm Hstep.
  destruct e as [t msg ty dur cb dat ic|i|ms|w| | |sec|clk]; cbn in Hstep.
  - inversion Hstep; subst; clear Hstep. unfold show_notification.
    cbv zeta. cbn [is_animating set_queue set_history].
    destruct (negb (is_animating m)).
    + apply closable_show_next. eapply closable_frame; [| | |exact Hm];
        reflexivity.
    + eapply closable_frame; [| | |exact Hm]; reflexivity.
  - destruct (nth_error (timers m) i) as [tm|] eqn:Hi; [|discriminate].
    destruct (Z.leb (due tm) (ticks m)); [|discriminate].
    inversion Hstep; subst; clear Hstep.
    destruct (call tm) as [| |w] eqn:Hcall; cbn [run_callback].
    + apply closable_show_next.
      eapply closable_drop_timer; eauto. intros w. congruence.
    + apply closable_show_next.
      eapply closable_frame
        with (m := set_timers (drop_nth i (timers m)) m);
        [reflexivity|reflexivity|reflexivity|].
      eapply closable_drop_timer; eauto. intros w. congruence.
    + eapply closable_on_widget_closed; eauto.
  - destruct (Z.leb 0 ms); [|discriminate]. inversion Hstep; subst.
    eapply closable_frame; [| | |exact Hm]; reflexivity.
  - inversion Hstep; subst. destruct Hm as [Hc [Hnd Hlt]].
    split; [|split]; cbn.
    + intros x Hx. apply remove_widget_In in Hx. exact (Hc x Hx).
    + now apply remove_widget_NoDup.
    + rewrite Forall_forall in *. intros x Hx. apply Hlt.
      eapply remove_widget_In; eauto.
  - inversion Hstep; subst.
    eapply closable_frame; [| | |exact Hm]; reflexivity.
  - inversion Hstep; subst.
    eapply closable_frame; [| | |exact Hm]; reflexivity.
  - inversion Hstep; subst.
    eapply closable_frame; [| | |exact Hm]; reflexivity.
  - inversion Hstep; subst.
    eapply closable_frame; [| | |exact Hm]; reflexivity.
Qed.

(** X16.  In every reachable state each notification on screen has its
    auto-close timer pending, armed with the duration the notification
    was given, and the widgets on screen are distinct: closing one from
    its timer or by a click removes that one and no other. *)
Theorem visible_notifications_close :
  forall m, reachable m ->
    close_timers_pending m
    /\ NoDup (map wid (notification_widgets m))
    /\ (forall w m', In w (notification_widgets m) ->
          step m (CloseWidget (wid w)) = Some m' ->
          forall x, In x (notification_widgets m) ->
            (In x (notification_widgets m') <-> x <> w)).
Proof.
  intros m Hm.
  assert (H : closable m).
  { revert m Hm. apply invariant_reachable.
    - intros t0. split; [intros w []|split; constructor].
    - intros; eapply closable_step; eauto. }
  destruct H as [Hc [Hnd Hlt]].
  split; [exact Hc|]. split; [exact Hnd|].
  intros w m' Hw Hstep x Hx. cbn in Hstep. inversion Hstep; subst. cbn.
  clear Hstep Hc Hlt.
  induction (notification_widgets m) as [|a ws IH]; [destruct Hx|].
  cbn in Hnd. inversion Hnd as [|? ? Hnot Hnd']; subst. cbn.
  destruct (Nat.eqb_spec (wid a) (wid w)) as [E|Hne].
  - assert (a = w).
    { destruct Hw as [Hw|Hw]; [exact Hw|].
      exfalso. apply Hnot. rewrite E. now apply in_map. }
    subst a. split.
    + intros Hin E'. subst x. apply Hnot. now apply in_map.
    + intros Hxw. destruct Hx as [Hx|Hx]; [congruence|exact Hx].
  - destruct Hw as [Hw|Hw]; [subst a; congruence|].
    destruct Hx as [Hx|Hx].
    + subst x. split; [intros _ E'; subst; congruence|intros _; now left].
    + specialize (IH Hnd' Hw Hx). split.
      * intros [Hin|Hin]; [subst; intros E'; subst; congruence|now apply IH].
      * intros Hxw. right. now apply IH.
Qed.

Lemma visible_notifications_close_witness :
  let m := show_notification "Stock" "bajo" "warning" (Some 6000%Z) None None
             "i" (init 0) in
  reachable m
  /\ map wid (notification_widgets m) = [0%nat]
  /\ close_timers_pending m.
Proof.
  intros m.
  assert (Hm : reachable m).
  { exists 0%Z, [Submit "Stock" "bajo" "warning" (Some 6000%Z) None None "i"].
    reflexivity. }
  split; [exact Hm|]. split; [reflexivity|].
  exact (proj1 (visible_notifications_close Hm)).
Defined.

(** ** The unread counter *)

Lemma unread_replace_nth i notif h :
  nth_error h i = Some notif ->
  (length (filter (fun d => negb (read d)) (replace_nth i (set_read notif) h))
   + (if read notif then 0 else 1)
   = length (filter (fun d => negb (read d)) h))%nat.
Proof.
  revert i. induction h as [|a h IH]; intros [|i] H; cbn in H;
    try discriminate.
  - inversion H; subst. cbn. destruct (read notif); cbn; lia.
  - cbn [replace_nth filter]. specialize (IH _ H).
    destruct (negb (read a)); cbn [length]; lia.
Qed.

(** X17.  The count of unread notifications is 0 after
    [mark_all_as_read]; a click on an entry of the history lowers it by
    one when the entry was unread and leaves it as it is otherwise, and a
    click outside the list changes nothing; a notification submitted
    while the history holds fewer than 200 entries raises it by one. *)
Theorem unread_count_laws :
  forall m,
    get_unread_count (mark_all_as_read m) = 0%nat
    /\ (forall row notif,
          0 <= row ->
          nth_error (notification_history m) (Z.to_nat row) = Some notif ->
          get_unread_count (fst (on_notification_click row m))
          = (get_unread_count m - (if read notif then 0 else 1))%nat)
    /\ (forall row,
          row < 0 \/ Z.of_nat (length (notification_history m)) <= row ->
          on_notification_click row m = (m, None))
    /\ (forall t msg ty dur cb dat ic,
          (length (notification_history m) < 200)%nat ->
          get_unread_count (show_notification t msg ty dur cb dat ic m)
          = S (get_unread_count m)).
Proof.
  intros m. split; [|split; [|split]].
  - unfold get_unread_count, mark_all_as_read. cbn.
    induction (notification_history m) as [|d h IH]; cbn; [reflexivity|exact IH].
  - intros row notif Hrow Hnth. unfold on_notification_click.
    assert (Hlt : (Z.to_nat row < length (notification_history m))%nat).
    { apply nth_error_Some. congruence. }
    replace ((0 <=? row) && (row <? Z.of_nat (length (notification_history m))))
      with true.
    + rewrite Hnth. cbn. unfold get_unread_count. cbn.
      pose proof (unread_replace_nth _ _ Hnth). lia.
    + symmetry. apply andb_true_iff. split; [apply Z.leb_le; lia|].
      apply Z.ltb_lt. lia.
  - intros row Hout. unfold on_notification_click.
    replace ((0 <=? row) && (row <? Z.of_nat (length (notification_history m))))
      with false; [reflexivity|].
    symmetry. apply andb_false_iff.
    destruct Hout as [H|H]; [left; apply Z.leb_gt; lia|right; apply Z.ltb_ge; lia].
  - intros t msg ty dur cb dat ic Hlen. unfold get_unread_count.
    rewrite show_notification_history. cbv zeta.
    replace (Nat.ltb 200 (length (Data t msg ty (now m) cb dat ic false
                                    :: notification_history m)))
      with false; [reflexivity|].
    symmetry. apply Nat.ltb_ge. cbn [length]. lia.
Qed.

Lemma unread_count_laws_witness :
  let m := show_notification "Stock" "bajo" "warning" None None None "i"
             (init 0) in
  get_unread_count m = 1%nat
  /\ get_unread_count (fst (on_notification_click 0 m)) = 0%nat
  /\ on_notification_click 1 m = (m, None).
Proof.
  intros m.
  destruct (unread_count_laws (init 0)) as (_ & _ & _ & Hsub).
  destruct (unread_count_laws m) as (_ & Hclick & Hout & _).
  split; [exact (Hsub "Stock" "bajo" "warning" None None None "i"
                      ltac:(cbn; lia))|].
  split.
  - exact (Hclick 0 _ ltac:(lia) eq_refl).
  - apply Hout. right. cbn. lia.
Defined.

(** ** Cleaning the history *)

Lemma filter_recent_prefix cutoff h :
  most_recent_first h ->
  exists old,
    h = filter (fun d => Z.ltb cutoff (timestamp d)) h ++ old
    /\ Forall (fun d => timestamp d <= cutoff) old.
Proof.
  induction h as [|d h IH]; cbn.
  - intros _. exists []. split; [reflexivity|constructor].
  - intros [Hle Hsorted]. destruct (Z.ltb_spec cutoff (timestamp d)) as [Hlt|Hge].
    + destruct (IH Hsorted) as (old & Heq & Hold). exists old.
      split; [cbn; now rewrite <- Heq|exact Hold].
    + exists (d :: h). split.
      * replace (filter (fun d0 => Z.ltb cutoff (timestamp d0)) h)
          with (@nil data); [reflexivity|].
        symmetry. clear IH Hsorted.
        induction h as [|x h IHh]; cbn; [reflexivity|].
        inversion Hle; subst.
        destruct (Z.ltb_spec cutoff (timestamp x)); [lia|now apply IHh].
      * constructor; [exact Hge|].
        eapply Forall_impl; [|exact Hle]. cbn. intros; lia.
Qed.

(** X18.  As long as the system clock has not been set since the
    manager was created, [auto_clean_history] cuts the history at one
    point: it keeps the entries newer than the cut-off, which come first
    and in their order, and drops the rest, which are the oldest ones. *)
Theorem auto_clean_history_drops_the_oldest :
  forall t0 es m,
    run (init t0) es = Some m ->
    Forall clock_runs_on es ->
    let cutoff := now m - auto_clear_days m * ms_per_day in
    let kept := notification_history (auto_clean_history m) in
    exists old,
      notification_history m = kept ++ old
      /\ Forall (fun d => timestamp d <= cutoff) old
      /\ Forall (fun d => cutoff < timestamp d) kept.
Proof.
  intros t0 es m Hrun Hes cutoff kept.
  assert (Hsorted : most_recent_first (notification_history m)).
  { refine (proj1 (chronological_run (m := init t0) _ Hes Hrun)).
    split; [exact I|constructor]. }
  destruct (@filter_recent_prefix cutoff _ Hsorted) as (old & Heq & Hold).
  exists old. subst kept. unfold auto_clean_history. cbn. fold cutoff.
  split; [exact Heq|]. split; [exact Hold|].
  apply Forall_forall. intros d Hd. apply filter_In in Hd.
  destruct Hd as [_ Hd]. now apply Z.ltb_lt.
Qed.

Lemma auto_clean_history_drops_the_oldest_witness :
  let es := [Submit "old" "m" "info" None None None "i";
             Elapse (31 * ms_per_day);
             Submit "new" "m" "info" None None None "i"] in
  exists m,
    run (init 0) es = Some m
    /\ map title (notification_history m) = ["new"; "old"]
    /\ map title (notification_history (auto_clean_history m)) = ["new"]
    /\ exists old,
         notification_history m
         = notification_history (auto_clean_history m) ++ old
         /\ Forall (fun d => timestamp d
                             <= now m - auto_clear_days m * ms_per_day) old.
Proof.
  intros es.
  assert (Ht : option_map
                 (fun m => (map title (notification_history m),
                            map title (notification_history
                                         (auto_clean_history m))))
                 (run (init 0) es)
               = Some (["new"; "old"], ["new"]))
    by (vm_compute; reflexivity).
  destruct (run (init 0) es) as [m|] eqn:Hrun; [|discriminate Ht].
  cbn [option_map] in Ht. injection Ht as Hh Hk.
  exists m. split; [reflexivity|]. split; [exact Hh|]. split; [exact Hk|].
  destruct (@auto_clean_history_drops_the_oldest 0 es m Hrun)
    as (old & Heq & Hold & _).
  - subst es. repeat constructor.
  - exists old. split; [exact Heq|exact Hold].
Defined.

(** When the system clock is set back the cut is no longer at one point:
    here the entry dropped is the one submitted last. *)
Example auto_clean_history_after_clock_set_back :
  option_map
    (fun m => (map title (notification_history m),
               map title (notification_history (auto_clean_history m))))
    (run (init 0) [Submit "a" "m" "info" None None None "i";
                   SetClock (- (40 * ms_per_day));
                   Submit "b" "m" "info" None None None "i";
                   SetClock 0])
  = Some (["b"; "a"], ["a"]).
Proof. vm_compute. reflexivity. Qed.

End NotifCenterFacts.

Module QueryFacts.

Import Sql SqlFacts Py Gateway GatewayFacts Query.

Local Open Scope py_scope.

(** [fetch] in terms of the statement semantics. *)
Lemma fetch_select_sqlite q ps (w : world conn) :
  Query.fetch sqlite sqlite_select q ps w =
  let c := self_conn w in
  match run_select_where q ps (tables c) with
  | inl e =>
      (Ret [],
       World c (stdout w ++ ["Error en consulta: " +++ str_of_error e])
             (wallclock w))
  | inr rs =>
      (Ret rs,
       World (Conn (tables c) (lastrowid c) [] (clock c)) (stdout w)
             (wallclock w))
  end.
Proof.
  unfold Query.fetch, try_except_sqlite3, bind, self_cursor_execute_select,
    self_cursor_fetchall, sqlite_select, print, ret.
  cbn. destruct (run_select_where q ps (tables (self_conn w))) as [e|rs];
    reflexivity.
Qed.

End QueryFacts.

Module LoginFacts.

Import Sql SqlFacts Py Gateway GatewayFacts PyStr Clients Query QueryFacts
  Qt Login.

Lemma select_usuario_run d rows seq u p :
  d "Usuarios" = Some (Table Usuarios_schema rows seq) ->
  run_select_where select_usuario [Text u; Text p] d
  = inr (map identity (filter (credentials u p) rows)).
Proof.
  intros Hd. unfold run_select_where, select_usuario, get_table. cbn.
  rewrite Hd. cbn. f_equal. f_equal.
  apply filter_ext. intros r. unfold credentials, compare_values.
  destruct (cell r 2), (cell r 3); cbn; try reflexivity;
    repeat match goal with
           | |- context [if ?b then _ else _] => destruct b
           | |- context [match ?b with true => _ | false => _ end] => destruct b
           end; reflexivity.
Qed.

(** X19.  With both fields filled, [attempt_login] accepts exactly when
    some row of Usuarios carries the stripped user name and password; it
    then keeps [id], [nombre] and [rol] of the first such row, whatever
    its [activo] and [bloqueado] columns say.  Otherwise it warns
    "Acceso denegado".  Either way no table changes: failed attempts are
    not counted. *)
Theorem attempt_login_spec encode encode_error (g : dialog conn) u p :
  initialised (tables (self_conn (db g))) ->
  is_empty (strip (username g)) = false ->
  is_empty (strip (password g)) = false ->
  encode (strip (username g)) = Some u ->
  encode (strip (password g)) = Some p ->
  let g' := attempt_login sqlite sqlite_select encode encode_error g in
  tables (self_conn (db g')) = tables (self_conn (db g))
  /\ stdout (db g') = stdout (db g)
  /\ match filter (credentials u p)
                  (rows_of (tables (self_conn (db g))) "Usuarios") with
     | r :: _ =>
         accepted g' = true /\ accepted_user g' = Some (identity r)
         /\ boxes g' = boxes g
     | [] =>
         accepted g' = accepted g /\ accepted_user g' = accepted_user g
         /\ boxes g' = boxes g ++ [warning "Acceso denegado" denied_text]
     end.
Proof.
  intros Hi Hu Hp Eu Ep g'. subst g'.
  destruct (initialised_table (t := "Usuarios") (s := Usuarios_schema) Hi)
    as (rows & seq & Hd & _ & Hrows); [is_declared|].
  unfold attempt_login. rewrite Hu, Hp, Eu, Ep. cbn [orb].
  rewrite fetch_select_sqlite. cbv zeta.
  rewrite (select_usuario_run _ u p Hd). rewrite Hrows.
  destruct (filter (credentials u p) rows) as [|r rs]; cbn;
    repeat split; reflexivity.
Qed.

Lemma attempt_login_spec_witness :
  let g := opened seeded " admin" "1234 " in
  let g' := attempt_login sqlite sqlite_select ClientsEdit.ascii_bytes
              (fun _ => "") g in
  accepted g' = true
  /\ accepted_user g'
     = Some [Int 1; Text "Administrador Principal"; Text "Administrador"]
  /\ tables (self_conn (db g')) = tables (self_conn (db g)).
Proof.
  intros g g'. subst g g'.
  destruct (@attempt_login_spec ClientsEdit.ascii_bytes (fun _ => "")
              (opened seeded " admin" "1234 ") "admin" "1234"
              seeded_initialised)
    as (Htab & _ & Hm); try (vm_compute; reflexivity).
  assert (E : exists r rs,
             filter (credentials "admin" "1234")
               (rows_of (tables (self_conn
                  (db (opened seeded " admin" "1234 ")))) "Usuarios")
             = r :: rs
             /\ identity r = [Int 1; Text "Administrador Principal";
                              Text "Administrador"]).
  { vm_compute. eexists. eexists. split; reflexivity. }
  destruct E as (r & rs & E & Hr). rewrite E in Hm.
  destruct Hm as (Ha & Hau & _). rewrite Hr in Hau.
  split; [exact Ha|]. split; [exact Hau|exact Htab].
Defined.

End LoginFacts.

Module StockAlertsFacts.

Import Sql SqlFacts Py Gateway GatewayFacts Query QueryFacts Notif NotifFacts
  StockAlerts.

Lemma select_stock_alerts_run d rows seq :
  d "Productos" = Some (Table Productos_schema rows seq) ->
  run_select_where select_stock_alerts [] d
  = inr (map (fun r => [cell r 1; cell r 5; cell r 6])
             (filter (fun r => alert_due (cell r 5) (cell r 6)) rows)).
Proof.
  intros Hd. unfold run_select_where, select_stock_alerts, get_table. cbn.
  rewrite Hd. cbn. reflexivity.
Qed.

Lemma select_bajo_stock_run d rows seq :
  d "Productos" = Some (Table Productos_schema rows seq) ->
  run_select_where select_bajo_stock [] d
  = inr (map (fun r => [cell r 0; cell r 1; cell r 5; cell r 6])
             (filter (fun r => listed_low (cell r 5) (cell r 6) (cell r 13))
                     rows)).
Proof.
  intros Hd. unfold run_select_where, select_bajo_stock, get_table. cbn.
  rewrite Hd. cbn. reflexivity.
Qed.

Lemma Qle_bool_inject a b : Qle_bool (inject_Z a) (inject_Z b) = (a <=? b).
Proof. unfold Qle_bool. cbn. now rewrite !Z.mul_1_r. Qed.

Lemma run_app es1 : forall es2 m,
  run m (es1 ++ es2)
  = match run m es1 with Some m' => run m' es2 | None => None end.
Proof.
  induction es1 as [|e es1 IH]; intros es2 m; cbn; [reflexivity|].
  destruct (step m e); [apply IH|reflexivity].
Qed.

Lemma notify_rows_run repr_float rows : forall m,
  exists m',
    notify_rows repr_float
      (map (fun r => [cell r 1; cell r 5; cell r 6]) rows) m = (Ret tt, m')
    /\ run m (map (stock_alert repr_float) rows) = Some m'.
Proof.
  induction rows as [|r rows IH]; intros m; cbn [map notify_rows run].
  - now exists m.
  - unfold stock_alert at 1. cbn [step]. apply IH.
Qed.

(** X20.  With stock alerts enabled, [check_stock_alerts] submits one
    warning per row of Productos whose stock is at most its positive
    minimum or at most 10, in the order of the table and whether or not a
    notification for the product is already pending; it raises nothing,
    changes no table, and leaves the manager in a reachable state.  For
    integer columns the test is [stock <= stock_minimo /\ 0 < stock_minimo
    \/ stock <= 10]; a product without a minimum is notified exactly when
    its stock is at most 10.  Whether the product is active plays no
    part. *)
Theorem check_stock_alerts_spec repr_float (w : world conn) (m : manager) :
  initialised (tables (self_conn w)) ->
  let out := check_stock_alerts sqlite sqlite_select repr_float true w m in
  let low := filter (fun r => alert_due (cell r 5) (cell r 6))
                    (rows_of (tables (self_conn w)) "Productos") in
  fst out = Ret tt
  /\ tables (self_conn (fst (snd out))) = tables (self_conn w)
  /\ run m (map (stock_alert repr_float) low) = Some (snd (snd out))
  /\ (reachable m -> reachable (snd (snd out)))
  /\ (forall s k,
        alert_due (Int s) (Int k) = ((s <=? k) && (0 <? k) || (s <=? 10))%bool)
  /\ (forall s, alert_due (Int s) Null = (s <=? 10)).
Proof.
  intros Hi out low. subst out low.
  destruct (initialised_table (t := "Productos") (s := Productos_schema) Hi)
    as (rows & seq & Hd & _ & Hrows); [is_declared|].
  rewrite Hrows.
  assert (E : exists m',
             check_stock_alerts sqlite sqlite_select repr_float true w m
             = (Ret tt,
                (World (Conn (tables (self_conn w)) (lastrowid (self_conn w))
                             [] (clock (self_conn w)))
                       (stdout w) (wallclock w), m'))
             /\ run m (map (stock_alert repr_float)
                           (filter (fun r => alert_due (cell r 5) (cell r 6))
                                   rows)) = Some m').
  { unfold check_stock_alerts. cbn [negb]. rewrite fetch_select_sqlite.
    cbv zeta. rewrite (select_stock_alerts_run _ Hd).
    destruct (notify_rows_run repr_float
                (filter (fun r => alert_due (cell r 5) (cell r 6)) rows) m)
      as (m' & Hn & Hr).
    exists m'. rewrite Hn. split; [reflexivity|exact Hr]. }
  destruct E as (m' & -> & Hr). cbn [fst snd self_conn tables].
  split; [reflexivity|]. split; [reflexivity|]. split; [exact Hr|].
  split.
  - intros (t0 & es & Hes). exists t0, (es ++ map (stock_alert repr_float)
      (filter (fun r => alert_due (cell r 5) (cell r 6)) rows)).
    rewrite run_app, Hes. exact Hr.
  - split.
    + intros s k. unfold alert_due, compare_values, and3, or3. cbn.
      rewrite !Qle_bool_inject.
      replace (k <=? 0) with (negb (0 <? k))
        by (destruct (Z.ltb_spec 0 k), (Z.leb_spec k 0); cbn; lia).
      destruct (s <=? k), (0 <? k), (s <=? 10); reflexivity.
    + intros s. unfold alert_due, compare_values, and3, or3. cbn.
      rewrite !Qle_bool_inject. destruct (s <=? 10); reflexivity.
Qed.

Lemma check_stock_alerts_spec_witness :
  let out := check_stock_alerts sqlite sqlite_select (fun _ => "") true
               seeded (Notif.init 0) in
  fst out = Ret tt /\ reachable (snd (snd out)).
Proof.
  intros out. subst out.
  destruct (@check_stock_alerts_spec (fun _ => "") seeded (Notif.init 0)
              seeded_initialised) as (H1 & _ & _ & H4 & _).
  split; [exact H1|]. apply H4. exists 0, []. reflexivity.
Defined.

(** X21.  [get_productos_bajo_stock] returns [id], [nombre], [stock] and
    [stock_minimo] of the active products whose stock is at most their
    minimum, in the order of the table, and changes nothing.  A product
    without a minimum is never listed.  Every product it lists with a
    positive minimum is one that [check_stock_alerts] notifies. *)
Theorem get_productos_bajo_stock_spec (w : world conn) :
  initialised (tables (self_conn w)) ->
  let out := get_productos_bajo_stock sqlite sqlite_select w in
  fst out
  = Ret (map (fun r => [cell r 0; cell r 1; cell r 5; cell r 6])
             (filter (fun r => listed_low (cell r 5) (cell r 6) (cell r 13))
                     (rows_of (tables (self_conn w)) "Productos")))
  /\ tables (self_conn (snd out)) = tables (self_conn w)
  /\ stdout (snd out) = stdout w
  /\ (forall s k a,
        listed_low (Int s) (Int k) (Int a) = ((s <=? k) && (a =? 1))%bool)
  /\ (forall s a, listed_low s Null a = false)
  /\ (forall s k a,
        listed_low s k a = true ->
        compare_values GT k (Int 0) = Some true ->
        alert_due s k = true).
Proof.
  intros Hi out. subst out.
  destruct (initialised_table (t := "Productos") (s := Productos_schema) Hi)
    as (rows & seq & Hd & _ & Hrows); [is_declared|].
  rewrite Hrows. unfold get_productos_bajo_stock.
  rewrite fetch_select_sqlite. cbv zeta.
  rewrite (select_bajo_stock_run _ Hd). cbn [fst snd self_conn tables stdout].
  repeat split.
  - intros s k a. unfold listed_low, compare_values, and3. cbn.
    rewrite Qle_bool_inject.
    destruct (s <=? k), (a =? 1); reflexivity.
  - intros s a. unfold listed_low, compare_values, and3.
    destruct s, a; cbn; try reflexivity;
      match goal with
      | |- context [if ?b then _ else _] => destruct b; reflexivity
      end.
  - intros s k a Hl Hk. unfold listed_low in Hl. unfold alert_due.
    rewrite Hk.
    destruct (compare_values LE s k) as [[|]|]; cbn in *;
      try reflexivity;
      destruct (compare_values EQ a (Int 1)) as [[|]|]; discriminate.
Qed.

Lemma get_productos_bajo_stock_spec_witness :
  let out := get_productos_bajo_stock sqlite sqlite_select seeded in
  tables (self_conn (snd out)) = tables (self_conn seeded)
  /\ listed_low (Int 3) (Int 5) (Int 0) = false.
Proof.
  intros out. subst out.
  destruct (@get_productos_bajo_stock_spec seeded seeded_initialised)
    as (_ & H2 & _ & H4 & _).
  split; [exact H2|]. rewrite H4. reflexivity.
Defined.

End StockAlertsFacts.

Module SettingsFacts.

Import Sql SqlFacts Py Gateway GatewayFacts PyStr Clients Qt Settings.

Lemma select_configuracion_run d clk rows seq :
  d "Configuracion" = Some (Table Configuracion_schema rows seq) ->
  sqlite_run select_configuracion [] d clk
  = inr (map (fun r => [cell r 0; cell r 1]) rows, d, None).
Proof.
  intros H. unfold sqlite_run, select_configuracion, run_select, get_table.
  cbn. rewrite H. cbn. now rewrite filter_all.
Qed.

Lemma select_descuentos_run d clk rows seq :
  d "Descuentos" = Some (Table Descuentos_schema rows seq) ->
  sqlite_run select_descuentos [] d clk
  = inr (map (fun r => [cell r 0; cell r 1; cell r 2; cell r 3]) rows, d,
         None).
Proof.
  intros H. unfold sqlite_run, select_descuentos, run_select, get_table.
  cbn. rewrite H. cbn. now rewrite filter_all.
Qed.

(** ** The dictionary *)

Lemma py_eqb_text_r x k : py_eqb x (Text k) = true <-> x = Text k.
Proof.
  destruct x as [|z|q|s]; cbn; try (split; [discriminate|congruence]).
  rewrite String.eqb_eq. split; congruence.
Qed.

Lemma py_eqb_text_l x k : py_eqb (Text k) x = true <-> x = Text k.
Proof.
  destruct x as [|z|q|s]; cbn; try (split; [discriminate|congruence]).
  rewrite String.eqb_eq. split; congruence.
Qed.

Lemma py_eqb_clave_is k r : py_eqb (cell r 0) (Text k) = clave_is k r.
Proof. unfold clave_is. destruct (cell r 0); reflexivity. Qed.

Lemma dict_get_set_text k k' v d :
  dict_get (Text k) (dict_set k' v d)
  = if py_eqb k' (Text k) then Some v else dict_get (Text k) d.
Proof.
  induction d as [|[k0 v0] d IH]; cbn; [reflexivity|].
  destruct (py_eqb k0 k') eqn:E0; cbn.
  - destruct (py_eqb k0 (Text k)) eqn:E1.
    + apply py_eqb_text_r in E1. subst k0. apply py_eqb_text_l in E0.
      subst k'. cbn. now rewrite String.eqb_refl.
    + destruct (py_eqb k' (Text k)) eqn:E2; [|reflexivity].
      apply py_eqb_text_r in E2. subst k'.
      rewrite E0 in E1. discriminate.
  - rewrite IH. destruct (py_eqb k0 (Text k)) eqn:E1; [|reflexivity].
    destruct (py_eqb k' (Text k)) eqn:E2; [|reflexivity].
    apply py_eqb_text_r in E1, E2. subst k0 k'. cbn in E0.
    rewrite String.eqb_refl in E0. discriminate.
Qed.

(** Reading key [k] after the rows have been stored one by one: the
    value of the last row that has the key. *)
Lemma dict_get_stored k rows : forall d,
  dict_get (Text k)
    (fold_left (fun d r => dict_set (cell r 0) (cell r 1) d) rows d)
  = fold_left (fun acc r => if clave_is k r then Some (cell r 1) else acc)
              rows (dict_get (Text k) d).
Proof.
  induction rows as [|r rows IH]; intros d; cbn; [reflexivity|].
  rewrite IH, dict_get_set_text, py_eqb_clave_is. reflexivity.
Qed.

Lemma fold_last_filter {A B} (p : A -> bool) (g : A -> B) l : forall acc,
  fold_left (fun acc r => if p r then Some (g r) else acc) l acc
  = fold_left (fun acc r => if p r then Some (g r) else acc) (filter p l) acc.
Proof.
  induction l as [|x l IH]; intros acc; cbn; [reflexivity|].
  destruct (p x) eqn:E; cbn; [rewrite E|]; apply IH.
Qed.

Lemma dict_get_stored_unique k rows new d :
  filter (clave_is k) rows = [new] ->
  dict_get (Text k)
    (fold_left (fun d r => dict_set (cell r 0) (cell r 1) d) rows d)
  = Some (cell new 1).
Proof.
  intros H. rewrite dict_get_stored, fold_last_filter, H. cbn.
  assert (Hn : In new (filter (clave_is k) rows)) by (rewrite H; now left).
  apply filter_In in Hn. now rewrite (proj2 Hn).
Qed.

Lemma filter_comm {A} (p q : A -> bool) l :
  filter p (filter q l) = filter q (filter p l).
Proof.
  induction l as [|x l IH]; cbn; [reflexivity|].
  destruct (p x) eqn:Ep, (q x) eqn:Eq; cbn; rewrite ?Ep, ?Eq, IH; reflexivity.
Qed.

(** ** The table widget *)

Lemma nth_error_at {A} (pre : list A) x post :
  nth_error (pre ++ x :: post) (List.length pre) = Some x.
Proof. induction pre as [|a pre IH]; cbn; [reflexivity|exact IH]. Qed.

Lemma replace_nth_at {A} (pre : list A) x y post :
  NotifCenter.replace_nth (List.length pre) y (pre ++ x :: post)
  = pre ++ y :: post.
Proof. induction pre as [|a pre IH]; cbn; [reflexivity|now rewrite IH]. Qed.

Lemma setItem_at pre cells post col text :
  (col < columnCount)%nat ->
  setItem (List.length pre) col text (pre ++ cells :: post)
  = pre ++ NotifCenter.replace_nth col (Some text) cells :: post.
Proof.
  intros Hc. unfold setItem. rewrite nth_error_at.
  apply Nat.ltb_lt in Hc. rewrite Hc. apply replace_nth_at.
Qed.

Lemma fill_row_at repr_float pre cells post a b c d :
  List.length cells = columnCount ->
  fill_row repr_float (List.length pre) 0 [a; b; c; d] (pre ++ cells :: post)
  = pre ++ map (fun v => Some (StockAlerts.format repr_float v)) [a; b; c; d]
        :: post.
Proof.
  intros Hl. destruct cells as [|c0 [|c1 [|c2 [|c3 [|]]]]]; try discriminate.
  cbn [fill_row].
  repeat (rewrite setItem_at by (unfold columnCount; lia);
          cbn [NotifCenter.replace_nth]).
  reflexivity.
Qed.

Lemma fill_rows_at repr_float rows : forall pre post,
  List.length post = List.length rows ->
  four_columns post ->
  fill_rows repr_float (List.length pre)
    (map (fun r => [cell r 0; cell r 1; cell r 2; cell r 3]) rows)
    (pre ++ post)
  = pre ++ map (shown repr_float) rows.
Proof.
  induction rows as [|r rows IH]; intros pre post Hl Hp.
  - destruct post; [reflexivity|discriminate].
  - destruct post as [|cells post]; [discriminate|].
    inversion Hp as [|? ? Hc Hp']; subst.
    cbn [map fill_rows]. rewrite fill_row_at by exact Hc.
    change (pre ++ ?x :: post) with (pre ++ [x] ++ post).
    rewrite app_assoc.
    replace (S (List.length pre))
      with (List.length (pre ++ [map (fun v => Some (StockAlerts.format repr_float v))
                                     [cell r 0; cell r 1; cell r 2; cell r 3]]))
      by (rewrite length_app; cbn; lia).
    rewrite IH; [|cbn in Hl; lia|exact Hp'].
    rewrite <- app_assoc. reflexivity.
Qed.

Lemma four_columns_firstn n : forall t,
  four_columns t -> four_columns (firstn n t).
Proof.
  induction n as [|n IH]; intros t Ht; [constructor|].
  destruct t as [|x t]; [constructor|].
  inversion Ht; subst. cbn. constructor; [assumption|]. now apply IH.
Qed.

Lemma setRowCount_shape n t :
  four_columns t ->
  List.length (setRowCount n t) = n /\ four_columns (setRowCount n t).
Proof.
  intros Ht. unfold setRowCount. split.
  - rewrite length_app, length_firstn, repeat_length. lia.
  - apply Forall_app. split.
    + now apply four_columns_firstn.
    + apply Forall_forall. intros x Hx. apply repeat_spec in Hx. now subst.
Qed.

Section Frame.

Variable encode : ustring -> option string.
Variable encode_error : ustring -> string.
Variable qt_text : sqlval -> result ustring.
Variable repr_float : Q -> string.

Lemma store_settings_rows rows : forall (f : frame conn),
  store_settings (map (fun r => [cell r 0; cell r 1]) rows) f
  = (Ret tt,
     set_current_settings
       (fold_left (fun d r => dict_set (cell r 0) (cell r 1) d) rows
                  (current_settings f)) f).
Proof.
  induction rows as [|r rows IH]; intros f; cbn [map store_settings fold_left].
  - destruct f; reflexivity.
  - rewrite IH. reflexivity.
Qed.

(** One setting saved. *)
Lemma save_each_one (f : frame conn) k valor v rest rows seq :
  tables (self_conn (db f)) "Configuracion"
  = Some (Table Configuracion_schema rows seq) ->
  encode valor = Some v ->
  exists w',
    save_each sqlite encode encode_error ((k, valor) :: rest) f
    = save_each sqlite encode encode_error rest (set_db w' f)
    /\ stdout w' = stdout (db f)
    /\ tables (self_conn w') "Configuracion"
       = Some (Table Configuracion_schema
                 (filter (fun r => negb (clave_is k r)) rows
                  ++ [setting_row (max_rowid rows + 1) k v
                        (clock (self_conn (db f)))])
                 seq)
    /\ forall t, t <> "Configuracion" ->
         tables (self_conn w') t = tables (self_conn (db f)) t.
Proof.
  intros Ht He.
  destruct (set_config_tables (db f) k v Ht) as (Hr & Hs & Ht' & Ho).
  exists (snd (set_config sqlite k v (db f))).
  split; [|split; [exact Hs|split; [exact Ht'|exact Ho]]].
  cbn [save_each]. rewrite He.
  destruct (set_config sqlite k v (db f)) as [r w'] eqn:E.
  cbn in Hr. subst r. reflexivity.
Qed.

(** The two company settings saved. *)
Lemma save_all_settings_sqlite (f : frame conn) n r :
  initialised (tables (self_conn (db f))) ->
  encode (company_name f) = Some n ->
  encode (company_ruc f) = Some r ->
  exists w' rows' seq' new_n new_r,
    save_all_settings sqlite encode encode_error f
    = message (information "Configuración Guardada"
                 "Todas las configuraciones han sido guardadas correctamente.")
              (set_db w' f)
    /\ stdout w' = stdout (db f)
    /\ tables (self_conn w') "Configuracion"
       = Some (Table Configuracion_schema rows' seq')
    /\ filter (clave_is "empresa_nombre") rows' = [new_n]
    /\ cell new_n 1 = Text n
    /\ filter (clave_is "empresa_ruc") rows' = [new_r]
    /\ cell new_r 1 = Text r
    /\ forall t, t <> "Configuracion" ->
         tables (self_conn w') t = tables (self_conn (db f)) t.
Proof.
  intros Hi En Er.
  destruct (initialised_table (t := "Configuracion")
              (s := Configuracion_schema) Hi)
    as (rows & seq & Ht & _); [is_declared|].
  destruct (save_each_one f "empresa_nombre" [("empresa_ruc", company_ruc f)]
              Ht En) as (w1 & E1 & Hs1 & Ht1 & Ho1).
  destruct (save_each_one (set_db w1 f) "empresa_ruc" [] Ht1 Er)
    as (w2 & E2 & Hs2 & Ht2 & Ho2).
  cbn [db set_db] in *.
  eexists w2, _, seq, _, _.
  split; [|split; [|split; [exact Ht2|]]].
  - unfold save_all_settings. rewrite E1, E2. cbn [save_each].
    destruct f; reflexivity.
  - congruence.
  - split.
    { rewrite filter_app, filter_comm, filter_clave_after_upsert
        by apply clave_is_setting_row.
      reflexivity. }
    split; [reflexivity|]. split.
    { apply filter_clave_after_upsert, clave_is_setting_row. }
    split; [reflexivity|].
    intros t Hne. rewrite Ho2, Ho1 by exact Hne. reflexivity.
Qed.

(** The frame after [load_discounts_list]. *)
Lemma load_discounts_list_sqlite (f : frame conn) rows seq :
  tables (self_conn (db f)) "Descuentos"
  = Some (Table Descuentos_schema rows seq) ->
  four_columns (discounts_table f) ->
  load_discounts_list sqlite repr_float f
  = set_discounts_table (map (shown repr_float) rows)
      (set_db (World (Conn (tables (self_conn (db f)))
                           (lastrowid (self_conn (db f))) []
                           (clock (self_conn (db f))))
                     (stdout (db f)) (wallclock (db f))) f).
Proof.
  intros Ht Hs. unfold load_discounts_list. rewrite fetch_sqlite. cbv zeta.
  erewrite select_descuentos_run by exact Ht.
  rewrite length_map.
  destruct (setRowCount_shape (List.length rows) Hs) as (Hl & Hf).
  pose proof (@fill_rows_at repr_float rows [] _ Hl Hf) as E.
  cbn [List.length app] in E. rewrite E. reflexivity.
Qed.

(** X22.  On an initialised database [save_all_settings] reports
    success and prints nothing, and a frame that then runs
    [load_all_settings] on the same database shows the company name and
    the RUC that were saved, whatever its fields and its dictionary held
    before, opening no message box and printing no error. *)
Theorem saved_settings_are_loaded (f : frame conn) n r :
  initialised (tables (self_conn (db f))) ->
  encode (company_name f) = Some n ->
  encode (company_ruc f) = Some r ->
  qt_text (Text n) = Ret (company_name f) ->
  qt_text (Text r) = Ret (company_ruc f) ->
  let f' := save_all_settings sqlite encode encode_error f in
  boxes f'
  = boxes f
    ++ [information "Configuración Guardada"
          "Todas las configuraciones han sido guardadas correctamente."]
  /\ stdout (db f') = stdout (db f)
  /\ forall g,
       db g = db f' ->
       four_columns (discounts_table g) ->
       let g' := load_all_settings sqlite qt_text repr_float g in
       company_name g' = company_name f
       /\ company_ruc g' = company_ruc f
       /\ stdout (db g') = stdout (db f)
       /\ boxes g' = boxes g.
Proof.
  intros Hi En Er Qn Qr f'. subst f'.
  destruct (save_all_settings_sqlite f Hi En Er)
    as (w' & rows' & seq' & new_n & new_r & E & Hs & Ht & Fn & Cn & Fr & Cr
        & Ho).
  rewrite E. cbn [boxes message set_db db].
  split; [reflexivity|]. split; [exact Hs|].
  intros g Hg Hfc.
  destruct (initialised_table (t := "Descuentos") (s := Descuentos_schema) Hi)
    as (drows & dseq & Hd & _); [is_declared|].
  rewrite <- Ho in Hd by discriminate.
  assert (El : exists w2 d2,
             load_all_settings sqlite qt_text repr_float g
             = set_discounts_table (map (shown repr_float) drows)
                 (set_db w2
                    (set_company_ruc (company_ruc f)
                       (set_company_name (company_name f)
                          (set_current_settings d2 g))))
             /\ stdout w2 = stdout w').
  { unfold load_all_settings, load_all_settings_body.
    rewrite fetch_sqlite. cbv zeta. rewrite Hg.
    erewrite select_configuracion_run by exact Ht.
    rewrite store_settings_rows.
    unfold apply_settings_to_ui, setting_text.
    cbn [current_settings set_current_settings set_company_name set_db].
    erewrite dict_get_stored_unique by exact Fn. rewrite Cn, Qn.
    cbn [current_settings set_current_settings set_company_name set_db].
    erewrite dict_get_stored_unique by exact Fr. rewrite Cr, Qr.
    erewrite load_discounts_list_sqlite; [| exact Hd | exact Hfc].
    eexists _, _. split; [reflexivity|]. reflexivity. }
  destruct El as (w2 & d2 & -> & Hs2).
  cbn. repeat split. congruence.
Qed.

(** X23.  On an initialised database [save_receipt_template] refuses a
    template that is blank once stripped, opening a warning and touching
    nothing; any other template is stored under [recibo_template] as
    typed, surrounding white space included, so that [get_config] returns
    it; the success box is shown, nothing is printed and no other table
    changes. *)
Theorem save_receipt_template_spec (f : frame conn) :
  initialised (tables (self_conn (db f))) ->
  let f' := save_receipt_template sqlite encode encode_error f in
  (is_empty (strip (receipt_template f)) = true ->
   f' = message (warning "Validación" "La plantilla no puede estar vacía.") f)
  /\ (forall t,
        is_empty (strip (receipt_template f)) = false ->
        encode (receipt_template f) = Some t ->
        boxes f'
        = boxes f ++ [information "Éxito" "Plantilla guardada correctamente."]
        /\ stdout (db f') = stdout (db f)
        /\ (forall dflt,
              fst (get_config sqlite "recibo_template" dflt (db f'))
              = Ret (Text t))
        /\ forall tb, tb <> "Configuracion" ->
             tables (self_conn (db f')) tb = tables (self_conn (db f)) tb).
Proof.
  intros Hi f'. subst f'. unfold save_receipt_template. split.
  - intros ->. reflexivity.
  - intros t -> Et.
    destruct (initialised_table (t := "Configuracion")
                (s := Configuracion_schema) Hi)
      as (rows & seq & Ht & _); [is_declared|].
    destruct (save_each_one f "recibo_template" [] Ht Et)
      as (w' & -> & Hs & Ht' & Ho).
    cbn [save_each message set_db boxes db].
    split; [reflexivity|]. split; [exact Hs|]. split; [|exact Ho].
    intros dflt. erewrite get_config_value by exact Ht'.
    rewrite filter_clave_after_upsert by apply clave_is_setting_row.
    reflexivity.
Qed.

(** X25.  On an initialised database [load_discounts_list] makes the
    table widget show exactly the rows of Descuentos, in the order of the
    table: one line per discount with [id], [nombre], [tipo] and
    [porcentaje] as text, whatever it showed before.  It changes no
    table, prints nothing and opens no message box. *)
Theorem load_discounts_list_spec (f : frame conn) :
  initialised (tables (self_conn (db f))) ->
  four_columns (discounts_table f) ->
  let f' := load_discounts_list sqlite repr_float f in
  discounts_table f'
  = map (shown repr_float) (rows_of (tables (self_conn (db f))) "Descuentos")
  /\ tables (self_conn (db f')) = tables (self_conn (db f))
  /\ stdout (db f') = stdout (db f)
  /\ boxes f' = boxes f.
Proof.
  intros Hi Hs f'. subst f'.
  destruct (initialised_table (t := "Descuentos") (s := Descuentos_schema) Hi)
    as (rows & seq & Hd & _ & Hrows); [is_declared|].
  rewrite (load_discounts_list_sqlite f Hd Hs), Hrows.
  cbn. repeat split.
Qed.

End Frame.

Lemma db_opened w : db (opened w) = w.
Proof. reflexivity. Qed.

Lemma saved_settings_are_loaded_witness :
  let f := filled seeded "Mi Tienda" "08011990123456" "" in
  let f' := save_all_settings sqlite ClientsEdit.ascii_bytes (fun _ => "") f in
  let g' := load_all_settings sqlite ClientsEdit.ascii_text (fun _ => "")
              (opened (db f')) in
  company_name g' = company_name f /\ company_ruc g' = company_ruc f.
Proof.
  intros f f' g'. subst f f' g'.
  destruct (@saved_settings_are_loaded ClientsEdit.ascii_bytes (fun _ => "")
              ClientsEdit.ascii_text (fun _ => "")
              (filled seeded "Mi Tienda" "08011990123456" "")
              "Mi Tienda" "08011990123456" seeded_initialised)
    as (_ & _ & H); try (vm_compute; reflexivity).
  destruct (H _ (db_opened _) (Forall_nil _)) as (Hn & Hr & _).
  split; [exact Hn|exact Hr].
Defined.

Lemma save_receipt_template_spec_witness :
  let f := filled seeded "" "" "  Gracias por su compra  " in
  let f' := save_receipt_template sqlite ClientsEdit.ascii_bytes
              (fun _ => "") f in
  fst (get_config sqlite "recibo_template" Null (db f'))
  = Ret (Text "  Gracias por su compra  ").
Proof.
  intros f f'. subst f f'.
  destruct (@save_receipt_template_spec ClientsEdit.ascii_bytes (fun _ => "")
              (filled seeded "" "" "  Gracias por su compra  ")
              seeded_initialised) as (_ & H).
  assert (Hb : is_empty (strip (receipt_template
                 (filled seeded "" "" "  Gracias por su compra  "))) = false)
    by (vm_compute; reflexivity).
  assert (He : ClientsEdit.ascii_bytes
                 (receipt_template
                    (filled seeded "" "" "  Gracias por su compra  "))
               = Some "  Gracias por su compra  ")
    by (vm_compute; reflexivity).
  destruct (H "  Gracias por su compra  " Hb He) as (_ & _ & Hg & _).
  exact (Hg Null).
Defined.

Lemma load_discounts_list_spec_witness :
  let f := Frame seeded [] [] [] []
             [[Some "9"; Some "Antiguo"; None; None]] [] in
  let f' := load_discounts_list sqlite (fun _ => "") f in
  discounts_table f'
  = map (shown (fun _ => ""))
        (rows_of (tables (self_conn (db f))) "Descuentos")
  /\ List.length (rows_of (tables (self_conn (db f))) "Descuentos") = 3%nat.
Proof.
  intros f f'. subst f f'.
  destruct (@load_discounts_list_spec (fun _ => "")
              (Frame seeded [] [] [] []
                     [[Some "9"; Some "Antiguo"; None; None]] [])
              seeded_initialised) as (H & _).
  - repeat constructor.
  - split; [exact H|]. vm_compute. reflexivity.
Defined.

(** ** Failed writes *)

Section Failing.

Context {C : Type}.
Variable drv : driver C.
Variable encode : ustring -> option string.
Variable encode_error : ustring -> string.
Variable e : sqlite3_Error.

Hypothesis write_fails :
  forall ps c, fst (cursor_execute drv upsert_config ps c) = Raise (Sqlite3 e).

Lemma set_config_failing k v (w : world C) :
  exists c',
    set_config drv k v w
    = (Ret tt,
       World c' (stdout w ++ ["Error en operación: " +++ str_of_error e])
             (wallclock w)).
Proof.
  pose proof (write_fails [Text k; Text v] (self_conn w)) as H.
  destruct (cursor_execute drv upsert_config [Text k; Text v] (self_conn w))
    as [r c'] eqn:E.
  cbn in H. subst r. exists c'.
  unfold set_config, bind. erewrite execute_swallows by exact E.
  reflexivity.
Qed.

Lemma save_each_failing l : forall (f : frame C),
  Forall (fun kv => encode (snd kv) <> None) l ->
  exists w',
    save_each drv encode encode_error l f = (Ret tt, set_db w' f)
    /\ stdout w'
       = stdout (db f)
         ++ repeat ("Error en operación: " +++ str_of_error e) (List.length l).
Proof.
  induction l as [|[k valor] l IH]; intros f Hl.
  - exists (db f). cbn. rewrite app_nil_r. destruct f; split; reflexivity.
  - inversion Hl as [|? ? Hv Hl']; subst. cbn [snd] in Hv.
    cbn [save_each]. destruct (encode valor) as [v|]; [|congruence].
    destruct (set_config_failing k v (db f)) as (c' & ->).
    destruct (IH (set_db (World c' (stdout (db f)
                                     ++ ["Error en operación: "
                                         +++ str_of_error e])
                                (wallclock (db f))) f) Hl')
      as (w' & -> & Hs).
    exists w'. split; [reflexivity|].
    rewrite Hs. cbn [db set_db stdout List.length repeat].
    rewrite <- app_assoc. reflexivity.
Qed.

(** X24.  When the driver fails on the statement of [set_config], both
    [save_all_settings] and [save_receipt_template] still open their
    success box: the gateway has printed the error and swallowed it, one
    line per setting, and the [except] branch with the error box is not
    taken. *)
Theorem failed_writes_reported_as_saved (f : frame C) :
  encode (company_name f) <> None ->
  encode (company_ruc f) <> None ->
  encode (receipt_template f) <> None ->
  is_empty (strip (receipt_template f)) = false ->
  let line := "Error en operación: " +++ str_of_error e in
  let f1 := save_all_settings drv encode encode_error f in
  let f2 := save_receipt_template drv encode encode_error f in
  boxes f1
  = boxes f
    ++ [information "Configuración Guardada"
          "Todas las configuraciones han sido guardadas correctamente."]
  /\ stdout (db f1) = stdout (db f) ++ [line; line]
  /\ boxes f2
     = boxes f ++ [information "Éxito" "Plantilla guardada correctamente."]
  /\ stdout (db f2) = stdout (db f) ++ [line].
Proof.
  intros Hn Hr Ht Hb line f1 f2. subst line f1 f2.
  unfold save_all_settings, save_receipt_template. rewrite Hb.
  destruct (save_each_failing
              (l := [("empresa_nombre", company_name f);
                     ("empresa_ruc", company_ruc f)]) f)
    as (w1 & -> & Hs1); [repeat constructor; assumption|].
  destruct (save_each_failing
              (l := [("recibo_template", receipt_template f)]) f)
    as (w2 & -> & Hs2); [repeat constructor; assumption|].
  cbn [boxes message set_db db]. repeat split; assumption.
Qed.

End Failing.

Lemma locked_write_fails ps (c : conn) :
  fst (cursor_execute (with_faults locked sqlite) upsert_config ps c)
  = Raise (Sqlite3 (OperationalError "database is locked")).
Proof. reflexivity. Qed.

Lemma failed_writes_reported_as_saved_witness :
  let f := filled seeded "Mi Tienda" "0801" "Gracias" in
  let f1 := save_all_settings (with_faults locked sqlite)
              ClientsEdit.ascii_bytes (fun _ => "") f in
  boxes f1
  = boxes f
    ++ [information "Configuración Guardada"
          "Todas las configuraciones han sido guardadas correctamente."]
  /\ stdout (db f1)
     = stdout (db f)
       ++ ["Error en operación: "
           +++ str_of_error (OperationalError "database is locked");
           "Error en operación: "
           +++ str_of_error (OperationalError "database is locked")].
Proof.
  intros f f1. subst f f1.
  assert (Hn : ClientsEdit.ascii_bytes
                 (company_name (filled seeded "Mi Tienda" "0801" "Gracias"))
               <> None) by (vm_compute; discriminate).
  assert (Hr : ClientsEdit.ascii_bytes
                 (company_ruc (filled seeded "Mi Tienda" "0801" "Gracias"))
               <> None) by (vm_compute; discriminate).
  assert (Ht : ClientsEdit.ascii_bytes
                 (receipt_template
                    (filled seeded "Mi Tienda" "0801" "Gracias"))
               <> None) by (vm_compute; discriminate).
  assert (Hb : is_empty (strip (receipt_template
                 (filled seeded "Mi Tienda" "0801" "Gracias"))) = false)
    by (vm_compute; reflexivity).
  destruct (@failed_writes_reported_as_saved conn (with_faults locked sqlite)
              ClientsEdit.ascii_bytes (fun _ => "")
              (OperationalError "database is locked") locked_write_fails
              (filled seeded "Mi Tienda" "0801" "Gracias") Hn Hr Ht Hb)
    as (H1 & H2 & _).
  split; [exact H1|exact H2].
Defined.

End SettingsFacts.
